(** * ThinkPrint Galeria Facial: the React front ends, embedded and verified

  The repository holds three single-page front ends (dashboard, microsite,
  slideshow), each in one [App.jsx].  Every component is embedded as its
  state record, its handlers as functions from a state (and the outcome of
  a pending [fetch]) to the next state and the requests sent, and its
  [return] as a function from the state to a view.

  JavaScript values are embedded as they are at run time: strings are
  sequences of UTF-16 code units, [||] and [if] go through truthiness,
  and reading a property of [null] throws. *)

From Stdlib Require Import NArith String Ascii Bool Lia DecimalString.
From stdpp Require Import base option list gmap.

Set Warnings "-register-all".
Local Open Scope N_scope.

(** ** JavaScript values *)

Module JS.

(** A string is its sequence of UTF-16 code units. *)
Abbreviation jsstring := (list N).

(** An ASCII literal of the source, as code units. *)
Definition lit (s : string) : jsstring :=
  map N_of_ascii (list_ascii_of_string s).

(** Numbers.  The programs only produce and test integers ([parseInt], the
    literal [30], lengths and indices), so a number is [NaN] or a sign and
    an integer magnitude; [Num true 0] is the negative zero.  The engine
    stores the nearest double, which is zero exactly when the magnitude is.
    A number with a fraction, which a JSON body may also hold, is not among
    the values embedded. *)
Inductive number :=
| NaN
| Num (negative : bool) (magnitude : N).

Inductive value :=
| Undefined
| Null
| Bool (b : bool)
| Number (n : number)
| Str (s : jsstring)
| Array (items : list value)
| Object (props : gmap jsstring value).

(** What the engine supplies and the programs rely on without defining:
    the printing of a number, the reading of a string as a number, and the
    upper-case mapping of the code units from 128 on (the unit itself where
    the mapping is not one unit). *)
Class Engine := {
  NumberToString : number -> jsstring;
  StringToNumber : jsstring -> number;
  toUpperCase_high : N -> N
}.

(** ToBoolean *)
Definition truthy (v : value) : bool :=
  match v with
  | Undefined | Null => false
  | Bool b => b
  | Number NaN => false
  | Number (Num _ m) => negb (m =? 0)
  | Str s => negb (bool_decide (s = []))
  | Array _ | Object _ => true
  end.

(** [a || b] *)
Definition or (a b : value) : value := if truthy a then a else b.

(** Whether React accepts a value as a child ([{v}] in JSX): a string or a
    number is drawn as text, a boolean, [null] and [undefined] draw
    nothing, an array is the list of its items as children, and an object
    throws ('Objects are not valid as a React child') when React comes to
    draw what the component returned. *)
Fixpoint valid_child (v : value) : bool :=
  match v with
  | Object _ => false
  | Array items => forallb valid_child items
  | Undefined | Null | Bool _ | Number _ | Str _ => true
  end.

(** The iteration of a string: its code points, a lead surrogate followed
    by a trail surrogate being one of them. *)
Fixpoint code_points (s : jsstring) : list jsstring :=
  match s with
  | [] => []
  | c :: rest =>
      match rest with
      | d :: rest' =>
          if (55296 <=? c) && (c <=? 56319) && (56320 <=? d) && (d <=? 57343)
          then [c; d] :: code_points rest'
          else [c] :: code_points rest
      | [] => [[c]]
      end
  end.

(** [[...v]]: the items of an array, the code points of a string; [None]
    is the TypeError for what is not iterable. *)
Definition spread (v : value) : option (list value) :=
  match v with
  | Array items => Some items
  | Str s => Some (map Str (code_points s))
  | Undefined | Null | Bool _ | Number _ | Object _ => None
  end.

(** [v.k] for a key that no built-in prototype defines (the programs read
    [media], [error], [message], [token], [url], [filename], [upload_id],
    [participants]).  [None] is the TypeError of reading a property of
    [undefined] or [null]. *)
Definition get (v : value) (k : jsstring) : option value :=
  match v with
  | Undefined | Null => None
  | Object props => Some (default Undefined (props !! k))
  | Bool _ | Number _ | Str _ | Array _ => Some Undefined
  end.

(** [Object.is], the comparison React uses for state and dependencies.
    Arrays and objects are compared by identity; it is applied below to a
    state and a value fresh out of [JSON.parse], which is never the same
    array or object. *)
Definition Object_is (a b : value) : bool :=
  match a, b with
  | Undefined, Undefined | Null, Null => true
  | Bool x, Bool y => eqb x y
  | Number NaN, Number NaN => true
  | Number (Num s m), Number (Num s' m') => eqb s s' && (m =? m')
  | Str x, Str y => bool_decide (x = y)
  | _, _ => false
  end.

(** [Array.prototype.join] with a comma, over already converted items. *)
Fixpoint join_comma (l : list jsstring) : jsstring :=
  match l with
  | [] => []
  | [s] => s
  | s :: l' => s ++ lit "," ++ join_comma l'
  end.

Section ToString.
Context `{Engine}.

(** ToString, as a template literal, [localStorage.setItem] and
    [RegExp.prototype.test] apply it. *)
Fixpoint ToString (v : value) : jsstring :=
  match v with
  | Undefined => lit "undefined"
  | Null => lit "null"
  | Bool true => lit "true"
  | Bool false => lit "false"
  | Number n => NumberToString n
  | Str s => s
  | Array items =>
      join_comma
        (map (fun x => match x with
                       | Undefined | Null => []
                       | _ => ToString x
                       end) items)
  | Object _ => lit "[object Object]"
  end.

(** ToNumber *)
Definition ToNumber (v : value) : number :=
  match v with
  | Undefined => NaN
  | Null | Bool false => Num false 0
  | Bool true => Num false 1
  | Number n => n
  | Str s => StringToNumber s
  | Array _ | Object _ => StringToNumber (ToString v)
  end.

(** [a > b] where [b] is a number. *)
Definition greater_than (a : value) (b : N) : bool :=
  match ToNumber a with
  | NaN => false
  | Num true _ => false
  | Num false m => b <? m
  end.

(** [v[i]] for an index [i]. *)
Definition get_index (v : value) (i : N) : option value :=
  match v with
  | Undefined | Null => None
  | Array items => Some (default Undefined (items !! N.to_nat i))
  | Str s => Some (match s !! N.to_nat i with
                   | Some c => Str [c]
                   | None => Undefined
                   end)
  | Object props =>
      Some (default Undefined (props !! NumberToString (Num false i)))
  | Bool _ | Number _ => Some Undefined
  end.
End ToString.

(** [v.length] *)
Definition get_length (v : value) : option value :=
  match v with
  | Undefined | Null => None
  | Array items => Some (Number (Num false (N.of_nat (length items))))
  | Str s => Some (Number (Num false (N.of_nat (length s))))
  | Object props => Some (default Undefined (props !! lit "length"))
  | Bool _ | Number _ => Some Undefined
  end.

(** [a === b] on primitives; an array or object out of [JSON.parse] is
    identical to nothing else. *)
Definition strict_equal (a b : value) : bool :=
  match a, b with
  | Undefined, Undefined | Null, Null => true
  | Bool x, Bool y => eqb x y
  | Number (Num _ 0), Number (Num _ 0) => true
  | Number (Num s m), Number (Num s' m') => eqb s s' && (m =? m')
  | Str x, Str y => bool_decide (x = y)
  | _, _ => false
  end.

(** [a[i]] on an array of strings. *)
Definition index (a : list jsstring) (i : nat) : value :=
  match a !! i with
  | Some s => Str s
  | None => Undefined
  end.

(** [s.split(sep)] for a separator of one code unit: never empty, and
    [''.split('/')] is [['']]. *)
Fixpoint split (sep : N) (s : jsstring) : list jsstring :=
  match s with
  | [] => [[]]
  | c :: s' =>
      if c =? sep then [] :: split sep s'
      else match split sep s' with
           | [] => [[c]]
           | h :: t => (c :: h) :: t
           end
  end.

(** [parts.filter(Boolean)] on an array of strings. *)
Definition filter_Boolean (parts : list jsstring) : list jsstring :=
  List.filter (fun p => truthy (Str p)) parts.

(** *** parseInt(string), no radix given *)

(** WhiteSpace and LineTerminator code units. *)
Definition is_white_space (c : N) : bool :=
  bool_decide (c ∈ [9; 10; 11; 12; 13; 32; 160; 5760; 8232; 8233; 8239;
                    8287; 12288; 65279])
  || ((8192 <=? c) && (c <=? 8202)).

Fixpoint trim_start (s : jsstring) : jsstring :=
  match s with
  | c :: s' => if is_white_space c then trim_start s' else s
  | [] => []
  end.

Definition digit_value (c : N) : option N :=
  if (48 <=? c) && (c <=? 57) then Some (c - 48)
  else if (97 <=? c) && (c <=? 122) then Some (c - 87)
  else if (65 <=? c) && (c <=? 90) then Some (c - 55)
  else None.

Definition radix_digit (R c : N) : option N :=
  match digit_value c with
  | Some d => if d <? R then Some d else None
  | None => None
  end.

(** The digits of the longest prefix made of radix-[R] digits. *)
Fixpoint digits_prefix (R : N) (s : jsstring) : list N :=
  match s with
  | c :: s' =>
      match radix_digit R c with
      | Some d => d :: digits_prefix R s'
      | None => []
      end
  | [] => []
  end.

Definition mathInt (R : N) (ds : list N) : N :=
  fold_left (fun acc d => acc * R + d) ds 0.

(** [parseInt(s)] up to its last step: [NaN], or the sign and the
    mathematical integer of the digits.  The engine returns the double
    nearest to that integer: the integer itself up to 2^53, zero exactly
    when the integer is, and [Infinity] for the longest numerals.  What is
    proved below of the value of a numeral is proved up to 2^53. *)
Definition parseInt (s : jsstring) : number :=
  let trimmed := trim_start s in
  let '(negative, unsigned) :=
    match trimmed with
    | c :: rest =>
        if c =? 45 then (true, rest)
        else if c =? 43 then (false, rest)
        else (false, trimmed)
    | [] => (false, [])
    end in
  let '(R, digits) :=
    match unsigned with
    | c0 :: x :: rest =>
        if (c0 =? 48) && ((x =? 120) || (x =? 88)) then (16, rest)
        else (10, unsigned)
    | _ => (10, unsigned)
    end in
  match digits_prefix R digits with
  | [] => NaN
  | ds => Num negative (mathInt R ds)
  end.

(** The claim's words: a string with no decimal digit in it. *)
Definition is_decimal_digit (c : N) : bool := (48 <=? c) && (c <=? 57).

Definition without_digits (s : jsstring) : Prop :=
  Forall (fun c => is_decimal_digit c = false) s.

End JS.

Import JS.

(** ** Regular expressions

  The two video patterns use literal characters, sequence, alternation, a
  group and [$], with the flag [i] and neither [u] nor [m].  The matcher is
  the backtracking matcher of the language definition, in continuation
  style, on the input that remains. *)

Module Regex.

Inductive regex :=
| Empty
| Chr (c : N)
| Seq (r1 r2 : regex)
| Alt (r1 r2 : regex)
| Group (r : regex)
| Eos.

(** The literal characters of [w] in sequence. *)
Fixpoint word (w : jsstring) : regex :=
  match w with
  | [] => Empty
  | c :: w' => Seq (Chr c) (word w')
  end.

Definition ascii_upper (c : N) : N :=
  if (97 <=? c) && (c <=? 122) then c - 32 else c.

Section Matcher.
Context `{Engine}.

(** Canonicalize under [i] without [u]: the upper case of the code unit,
    except that a unit from 128 on is never mapped below 128. *)
Definition Canonicalize (ch : N) : N :=
  if ch <? 128 then ascii_upper ch
  else let cu := toUpperCase_high ch in
       if cu <? 128 then ch else cu.

Fixpoint m (r : regex) (x : jsstring) (c : jsstring -> bool) : bool :=
  match r with
  | Empty => c x
  | Chr ch =>
      match x with
      | [] => false
      | y :: x' => if Canonicalize y =? Canonicalize ch then c x' else false
      end
  | Seq r1 r2 => m r1 x (fun y => m r2 y c)
  | Alt r1 r2 => m r1 x c || m r2 x c
  | Group r1 => m r1 x c
  | Eos => match x with [] => c x | _ :: _ => false end
  end.

(** [re.test(s)] for a pattern without [g] or [y]: a match is tried at
    every index from 0 to the length. *)
Fixpoint search (r : regex) (s : jsstring) : bool :=
  m r s (fun _ => true)
  || match s with
     | [] => false
     | _ :: s' => search r s'
     end.

Definition test (r : regex) (v : value) : bool := search r (ToString v).
End Matcher.

(** [/\.(mp4|mov|webm)$/i], the dashboard's pattern. *)
Definition dashboard_video_re : regex :=
  Seq (Seq (Chr 46)
           (Group (Alt (word (lit "mp4"))
                       (Alt (word (lit "mov")) (word (lit "webm"))))))
      Eos.

(** [/\.mp4$|\.mov$|\.webm$/i], the pattern of gallery and slideshow. *)
Definition gallery_video_re : regex :=
  Alt (Seq (word (lit ".mp4")) Eos)
      (Alt (Seq (word (lit ".mov")) Eos)
           (Seq (word (lit ".webm")) Eos)).

(** The claim's words: a name ending in [ext], letters compared without
    regard to ASCII case. *)
Definition ascii_lower (c : N) : N :=
  if (65 <=? c) && (c <=? 90) then c + 32 else c.

(** A word of pattern characters below 128, none an upper-case letter. *)
Definition plain (w : jsstring) : Prop :=
  Forall (fun ch => ch < 128 /\ ascii_lower ch = ch) w.

Definition ends_with_ci (ext name : jsstring) : Prop :=
  exists stem e, name = stem ++ e /\ map ascii_lower e = ext.

Definition video_name (name : jsstring) : Prop :=
  ends_with_ci (lit ".mp4") name
  \/ ends_with_ci (lit ".mov") name
  \/ ends_with_ci (lit ".webm") name.

End Regex.

Import Regex.

(** ** fetch

    A request as [fetch(url, options)] sends it, and what the two awaits
    that follow ([await fetch(...)], [await res.json()]) come back with. *)

Module Http.

Record File := {
  file_name : jsstring;
  file_type : jsstring;
  file_bits : list N
}.

(** A camera frame encoded by [canvas.toBlob]. *)
Record Blob := {
  blob_type : jsstring;
  blob_bits : list N
}.

(** [new File([blob], name, { type })] *)
Definition new_File (blob : Blob) (name type : jsstring) : File :=
  {| file_name := name; file_type := type; file_bits := blob_bits blob |}.

Inductive form_entry :=
| Field (s : jsstring)
| FileEntry (f : File).

(** [Json v] is the text [JSON.stringify(v)]. *)
Inductive body :=
| NoBody
| FormData (entries : list (jsstring * form_entry))
| Json (v : value).

Inductive method := GET | POST.

Record request := {
  req_method : method;
  req_url : jsstring;
  req_headers : list (jsstring * jsstring);
  req_body : body
}.

(** [res.ok], and the value [res.json()] resolves to, [None] when it
    rejects (the body is not JSON). *)
Record response := {
  ok : bool;
  json : option value
}.

(** [Rejected]: [fetch] itself throws (no connection). *)
Inductive outcome :=
| Rejected
| Resolved (res : response).

(** [await fetch(...)] inside a [try]: [None] is the exception. *)
Definition awaited (o : outcome) : option response :=
  match o with
  | Rejected => None
  | Resolved res => Some res
  end.

(** The one build-time setting the front ends read. *)
Class Build := { VITE_API_BASE_URL : value }.

Section Api.
Context `{Engine} `{Build}.

(** [import.meta.env.VITE_API_BASE_URL || 'http://localhost:5000/api'] *)
Definition API_BASE : value :=
  or VITE_API_BASE_URL (Str (lit "http://localhost:5000/api")).

(** [`${API_BASE}<path>`] *)
Definition api (path : jsstring) : jsstring := ToString API_BASE ++ path.

(** [fetch(url)] with no options. *)
Definition fetch_get (url : jsstring) : request :=
  {| req_method := GET; req_url := url; req_headers := []; req_body := NoBody |}.
End Api.

(** The claim's words for a registration: a POST to [url] whose multipart
    body holds exactly the fields event_id, phone and selfie. *)
Definition registration (url event_id phone : jsstring) (selfie : File)
    (r : request) : Prop :=
  req_method r = POST
  /\ req_url r = url
  /\ req_body r = FormData [(lit "event_id", Field event_id);
                            (lit "phone", Field phone);
                            (lit "selfie", FileEntry selfie)].

(** [headers[name]] of a request. *)
Definition header (name : jsstring) (r : request) : option jsstring :=
  snd <$> List.find (fun h => bool_decide (fst h = name)) (req_headers r).

End Http.

Import Http.

(** ** Microsite: src/microsite/src/App.jsx

    [getGalleryToken], [getRegisterEvent], [Gallery] and the root [App] are
    the same, line for line, in the earlier microsite kept as
    src/unnamed/part_001. *)

Module Microsite.

(** [window.location]: the path, and the name-value pairs that
    [new URLSearchParams(window.location.search)] holds, in order. *)
Record Location := {
  pathname : jsstring;
  searchParams : list (jsstring * jsstring)
}.

(** [params.get(name)]: the first value under the name, or [null]. *)
Definition URLSearchParams_get (params : list (jsstring * jsstring))
    (name : jsstring) : value :=
  match List.find (fun p => bool_decide (fst p = name)) params with
  | Some p => Str (snd p)
  | None => Null
  end.

Definition getGalleryToken (loc : Location) : value :=
  let parts := filter_Boolean (split 47 (pathname loc)) in
  if strict_equal (index parts 0) (Str (lit "gallery"))
     && truthy (index parts 1)
  then index parts 1
  else Null.

Definition getRegisterEvent (loc : Location) : value :=
  URLSearchParams_get (searchParams loc) (lit "event").

(** What the root component returns. *)
Inductive page :=
| GalleryPage (token : value)
| RegisterPage (eventId : value)
| LandingPage.

Definition App (loc : Location) : page :=
  let galleryToken := getGalleryToken loc in
  let registerEvent := getRegisterEvent loc in
  if truthy galleryToken then GalleryPage galleryToken
  else if truthy registerEvent then RegisterPage registerEvent
  else LandingPage.

(** The claim's words for the address: the non-empty segments of the path,
    an 'event' parameter being present, and the value of the first one. *)
Definition segments (loc : Location) : list jsstring :=
  List.filter (fun p => negb (bool_decide (p = [])))
              (split 47 (pathname loc)).

Definition gallery_path (loc : Location) (token : jsstring) : Prop :=
  exists rest, segments loc = lit "gallery" :: token :: rest.

Definition event_present (loc : Location) : Prop :=
  exists v, (lit "event", v) ∈ searchParams loc.

Definition first_event (loc : Location) (v : jsstring) : Prop :=
  exists before after,
    searchParams loc = before ++ (lit "event", v) :: after
    /\ Forall (fun p => fst p <> lit "event") before.

(** C9 as the claim words it: the gallery for a gallery path, otherwise the
    registration exactly when an 'event' parameter is present, otherwise
    the landing page. *)
Definition routes_on_presence : Prop :=
  forall loc,
    (forall token, gallery_path loc token -> App loc = GalleryPage (Str token))
    /\ ((forall token, ~ gallery_path loc token) ->
        ((exists eventId, App loc = RegisterPage eventId)
         <-> event_present loc)
        /\ (App loc = LandingPage <-> ~ event_present loc)).

(** An address with an 'event' parameter that is empty: [/?event=]. *)
Definition empty_event_location : Location :=
  {| pathname := lit "/"; searchParams := [(lit "event", [])] |}.

(** *** Gallery *)

Record gallery_state := {
  media : value;
  loading : bool;
  error : value
}.

Definition setMedia (v : value) (st : gallery_state) : gallery_state :=
  {| media := v; loading := loading st; error := error st |}.
Definition setLoading (b : bool) (st : gallery_state) : gallery_state :=
  {| media := media st; loading := b; error := error st |}.
Definition setError (v : value) (st : gallery_state) : gallery_state :=
  {| media := media st; loading := loading st; error := v |}.

(** [useState([])], [useState(true)], [useState('')] *)
Definition gallery_init : gallery_state :=
  {| media := Array []; loading := true; error := Str [] |}.

(** 'Erro de conexão'; the ã is U+00E3. *)
Definition Erro_de_conexao : jsstring :=
  lit "Erro de conex" ++ [227] ++ lit "o".

Definition Erro_ao_carregar_galeria : jsstring :=
  lit "Erro ao carregar galeria".

(** One media cell: [<video>] or [<img>], with its [key] and [src]. *)
Inductive element :=
| Video (key : value) (src : jsstring)
| Img (key : value) (src : jsstring).

Definition is_video (e : element) : bool :=
  match e with
  | Video _ _ => true
  | Img _ _ => false
  end.

Definition is_photo (e : element) : bool := negb (is_video e).

(** What [Gallery] returns.  [ErrorText v] is the paragraph [<p>{v}</p>],
    whatever [v] is; [Crash] is an exception thrown inside [Gallery]
    ([media.map] on what is no array, a property of a [null] item). *)
Inductive gallery_view :=
| Carregando
| ErrorText (text : value)
| MediaGrid (cells : list element)
| Crash.

(** Whether React draws what [Gallery] returned: not when [Gallery] threw,
    and not a paragraph whose child React does not accept.  Otherwise the
    page is left empty. *)
Definition draws (v : gallery_view) : bool :=
  match v with
  | Carregando | MediaGrid _ => true
  | ErrorText text => valid_child text
  | Crash => false
  end.

Section Gallery.
Context `{Engine} `{Build}.

(** The request of [fetchMedia]. *)
Definition fetchMedia_request (token : value) : request :=
  fetch_get (api (lit "/gallery/" ++ ToString token)).

(** The body of the [try] in [fetchMedia]; [None] is an exception. *)
Definition fetchMedia_try (o : outcome) (st : gallery_state)
    : option gallery_state :=
  res ← awaited o;
  data ← json res;
  if ok res then
    data_media ← get data (lit "media");
    Some (setMedia (or data_media (Array [])) st)
  else
    data_error ← get data (lit "error");
    Some (setError (or data_error (Str Erro_ao_carregar_galeria)) st).

(** [fetchMedia] from the moment its [fetch] settles: [try], [catch],
    [finally]. *)
Definition fetchMedia (o : outcome) (st : gallery_state) : gallery_state :=
  setLoading false
    (match fetchMedia_try o st with
     | Some st' => st'
     | None => setError (Str Erro_de_conexao) st
     end).

(** The callback of [media.map]. *)
Definition media_cell (item : value) : option element :=
  item_url ← get item (lit "url");
  let fileUrl := ToString API_BASE ++ ToString item_url in
  item_filename ← get item (lit "filename");
  let isVideo := test gallery_video_re item_filename in
  item_upload_id ← get item (lit "upload_id");
  Some (if isVideo then Video item_upload_id fileUrl
        else Img item_upload_id fileUrl).

Definition Gallery (st : gallery_state) : gallery_view :=
  if loading st then Carregando
  else if truthy (error st) then ErrorText (error st)
  else match media st with
       | Array items =>
           match mapM media_cell items with
           | Some cells => MediaGrid cells
           | None => Crash
           end
       | _ => Crash
       end.

(** The component from mount to the settled fetch: the request it sends
    and what it then shows. *)
Definition Gallery_mount (token : value) : gallery_state * list request :=
  (gallery_init, [fetchMedia_request token]).

Definition Gallery_settled (o : outcome) : gallery_view :=
  Gallery (fetchMedia o gallery_init).
End Gallery.

(** The claim's words for a response: its 'error' string, when present. *)
Definition response_error (res : response) : option jsstring :=
  match json res with
  | Some data =>
      match get data (lit "error") with
      | Some (Str e) => Some e
      | _ => None
      end
  | None => None
  end.

(** C3 as the claim words it: a response that is not OK shows its 'error'
    string when it has one and 'Erro ao carregar galeria' otherwise; only
    a fetch that throws shows 'Erro de conexão'. *)
Definition error_shown_as_worded : Prop :=
  forall (E : Engine) (B : Build) (o : outcome),
    match o with
    | Rejected => Gallery_settled o = ErrorText (Str Erro_de_conexao)
    | Resolved res =>
        ok res = false ->
        Gallery_settled o
        = ErrorText (Str (default Erro_ao_carregar_galeria
                                  (response_error res)))
    end.

(** A response that is not OK and whose body is not JSON, as a proxy or
    the framework's own error page sends it. *)
Definition not_json_response : response := {| ok := false; json := None |}.

(** A response that is not OK with the body [{ "error": "" }]. *)
Definition empty_error_response : response :=
  {| ok := false; json := Some (Object (<[lit "error" := Str []]> ∅)) |}.

End Microsite.

Import Microsite.

(** ** Microsite, the single form: [Register] of src/unnamed/part_001 *)

Module RegisterForm.

(** The component's state, and with it the list the file input itself
    holds ([e.target.files]), which the [required] check reads. *)
Record state := {
  phone : jsstring;
  selfie : option File;
  message : value;
  submitting : bool;
  files : list File
}.

Definition init : state :=
  {| phone := []; selfie := None; message := Str []; submitting := false;
     files := [] |}.

Definition setPhone (s : jsstring) (st : state) : state :=
  {| phone := s; selfie := selfie st; message := message st;
     submitting := submitting st; files := files st |}.
Definition setMessage (v : value) (st : state) : state :=
  {| phone := phone st; selfie := selfie st; message := v;
     submitting := submitting st; files := files st |}.
Definition setSubmitting (b : bool) (st : state) : state :=
  {| phone := phone st; selfie := selfie st; message := message st;
     submitting := b; files := files st |}.

(** [onChange] of the file input: [setSelfie(e.target.files[0])]. *)
Definition chooseFiles (fs : list File) (st : state) : state :=
  {| phone := phone st; selfie := head fs; message := message st;
     submitting := submitting st; files := fs |}.

Definition Por_favor_selecione : jsstring :=
  lit "Por favor, selecione uma selfie.".

Definition Erro_ao_realizar_cadastro : jsstring :=
  lit "Erro ao realizar cadastro".

Section Register.
Context `{Engine} `{Build}.
Variable eventId : value.

Definition register_request (f : File) (st : state) : request :=
  {| req_method := POST;
     req_url := api (lit "/register");
     req_headers := [];
     req_body :=
       FormData [(lit "event_id", Field (ToString eventId));
                 (lit "phone", Field (phone st));
                 (lit "selfie", FileEntry f)] |}.

(** [handleSubmit] up to its [await fetch]. *)
Definition handleSubmit (st : state) : state * list request :=
  match selfie st with
  | None => (setMessage (Str Por_favor_selecione) st, [])
  | Some f =>
      let st := setSubmitting true st in
      (st, [register_request f st])
  end.

Definition handleSubmit_try (o : outcome) (st : state) : option state :=
  res ← awaited o;
  data ← json res;
  if ok res then
    data_message ← get data (lit "message");
    Some (setMessage data_message st)
  else
    data_error ← get data (lit "error");
    Some (setMessage (or data_error (Str Erro_ao_realizar_cadastro)) st).

(** [handleSubmit] from the moment the fetch settles. *)
Definition handleSubmit_settled (o : outcome) (st : state) : state :=
  setSubmitting false
    (match handleSubmit_try o st with
     | Some st' => st'
     | None => setMessage (Str Erro_de_conexao) st
     end).

(** What the visitor and the network do to the mounted form. *)
Inductive event :=
| TypePhone (s : jsstring)
| ChooseFiles (fs : list File)
| ClickEnviar
| Settled (o : outcome).

(** Both inputs carry [required]: the browser fires [onSubmit] only with
    a phone typed in and a file chosen. *)
Definition required_filled (st : state) : bool :=
  negb (bool_decide (phone st = [])) && negb (bool_decide (files st = [])).

(** The button is [disabled] while [submitting], which is also exactly
    while a request is under way. *)
Definition step (st : state) (ev : event) : state * list request :=
  match ev with
  | TypePhone s => (setPhone s st, [])
  | ChooseFiles fs => (chooseFiles fs st, [])
  | ClickEnviar =>
      if submitting st then (st, [])
      else if required_filled st then handleSubmit st
      else (st, [])
  | Settled o =>
      if submitting st then (handleSubmit_settled o st, []) else (st, [])
  end.

Fixpoint run (st : state) (evs : list event) : state * list request :=
  match evs with
  | [] => (st, [])
  | ev :: evs' =>
      let '(st1, sent1) := step st ev in
      let '(st2, sent2) := run st1 evs' in
      (st2, sent1 ++ sent2)
  end.
End Register.

(** [{message && <p>...{message}</p>}] *)
Definition shown_message (st : state) : option value :=
  if truthy (message st) then Some (message st) else None.

End RegisterForm.

(** ** Microsite, the flow in steps: [Register] of src/microsite/src/App.jsx *)

Module RegisterSteps.

Inductive step_name := phone_step | camera_step | done_step.

(** [streamRef.current] is kept as whether a camera stream is held;
    [videoRef.current] is the [<video>] element, mounted exactly while the
    camera step is on screen. *)
Record state := {
  step : step_name;
  phone : jsstring;
  message : value;
  submitting : bool;
  useFrontCamera : bool;
  streamRef : bool;
  eventInfo : value;
  loadingEvent : bool;
  eventError : value
}.

Definition init : state :=
  {| step := phone_step; phone := []; message := Str [];
     submitting := false; useFrontCamera := true; streamRef := false;
     eventInfo := Null; loadingEvent := true; eventError := Str [] |}.

Definition setStep (s : step_name) (st : state) : state :=
  {| step := s; phone := phone st; message := message st;
     submitting := submitting st; useFrontCamera := useFrontCamera st;
     streamRef := streamRef st; eventInfo := eventInfo st;
     loadingEvent := loadingEvent st; eventError := eventError st |}.
Definition setPhone (s : jsstring) (st : state) : state :=
  {| step := step st; phone := s; message := message st;
     submitting := submitting st; useFrontCamera := useFrontCamera st;
     streamRef := streamRef st; eventInfo := eventInfo st;
     loadingEvent := loadingEvent st; eventError := eventError st |}.
Definition setMessage (v : value) (st : state) : state :=
  {| step := step st; phone := phone st; message := v;
     submitting := submitting st; useFrontCamera := useFrontCamera st;
     streamRef := streamRef st; eventInfo := eventInfo st;
     loadingEvent := loadingEvent st; eventError := eventError st |}.
Definition setSubmitting (b : bool) (st : state) : state :=
  {| step := step st; phone := phone st; message := message st;
     submitting := b; useFrontCamera := useFrontCamera st;
     streamRef := streamRef st; eventInfo := eventInfo st;
     loadingEvent := loadingEvent st; eventError := eventError st |}.
Definition setUseFrontCamera (b : bool) (st : state) : state :=
  {| step := step st; phone := phone st; message := message st;
     submitting := submitting st; useFrontCamera := b;
     streamRef := streamRef st; eventInfo := eventInfo st;
     loadingEvent := loadingEvent st; eventError := eventError st |}.
Definition setStreamRef (b : bool) (st : state) : state :=
  {| step := step st; phone := phone st; message := message st;
     submitting := submitting st; useFrontCamera := useFrontCamera st;
     streamRef := b; eventInfo := eventInfo st;
     loadingEvent := loadingEvent st; eventError := eventError st |}.
Definition setEventInfo (v : value) (st : state) : state :=
  {| step := step st; phone := phone st; message := message st;
     submitting := submitting st; useFrontCamera := useFrontCamera st;
     streamRef := streamRef st; eventInfo := v;
     loadingEvent := loadingEvent st; eventError := eventError st |}.
Definition setLoadingEvent (b : bool) (st : state) : state :=
  {| step := step st; phone := phone st; message := message st;
     submitting := submitting st; useFrontCamera := useFrontCamera st;
     streamRef := streamRef st; eventInfo := eventInfo st;
     loadingEvent := b; eventError := eventError st |}.
Definition setEventError (v : value) (st : state) : state :=
  {| step := step st; phone := phone st; message := message st;
     submitting := submitting st; useFrontCamera := useFrontCamera st;
     streamRef := streamRef st; eventInfo := eventInfo st;
     loadingEvent := loadingEvent st; eventError := v |}.

(** Past the phone step there is a phone, and a registration is under
    way in the camera step only. *)
Definition steps_inv (st : state) : Prop :=
  (step st <> phone_step -> phone st <> [])
  /\ (submitting st = true -> step st = camera_step).

Definition videoRef_current (st : state) : bool :=
  match step st with camera_step => true | _ => false end.

(** 'Não foi possível acessar a câmera. Verifique as permissões.' *)
Definition Nao_foi_possivel : jsstring :=
  lit "N" ++ [227] ++ lit "o foi poss" ++ [237] ++ lit "vel acessar a c"
  ++ [226] ++ lit "mera. Verifique as permiss" ++ [245] ++ lit "es.".

(** 'Evento não encontrado' *)
Definition Evento_nao_encontrado : jsstring :=
  lit "Evento n" ++ [227] ++ lit "o encontrado".

(** 'Erro de conexão ao carregar evento' *)
Definition Erro_ao_carregar_evento : jsstring :=
  lit "Erro de conex" ++ [227] ++ lit "o ao carregar evento".

Definition Erro_ao_capturar : jsstring := lit "Erro ao capturar selfie".

Section Register.
Context `{Engine} `{Build}.
Variable eventId : value.

(** The request of [fetchEvent], sent on mount. *)
Definition fetchEvent_request : request :=
  fetch_get (api (lit "/public/events/" ++ ToString eventId)).

Definition fetchEvent_try (o : outcome) (st : state) : option state :=
  res ← awaited o;
  data ← json res;
  if ok res then Some (setEventInfo data st)
  else
    data_error ← get data (lit "error");
    Some (setEventError (or data_error (Str Evento_nao_encontrado)) st).

Definition fetchEvent_settled (o : outcome) (st : state) : state :=
  setLoadingEvent false
    (match fetchEvent_try o st with
     | Some st' => st'
     | None => setEventError (Str Erro_ao_carregar_evento) st
     end).

(** [startCamera(front)], run to the settling of [getUserMedia] at once;
    [granted] is whether it resolves. *)
Definition startCamera (granted : bool) (st : state) : state :=
  let st := setStreamRef false st in
  if granted then setStreamRef true st
  else setMessage (Str Nao_foi_possivel) st.

Definition handlePhoneSubmit (granted : bool) (st : state) : state :=
  if negb (truthy (Str (phone st))) then st
  else startCamera granted (setStep camera_step st).

Definition handleToggleCamera (granted : bool) (st : state) : state :=
  let newFront := negb (useFrontCamera st) in
  startCamera granted (setUseFrontCamera newFront st).

Definition register_request (blob : Blob) (st : state) : request :=
  {| req_method := POST;
     req_url := api (lit "/register");
     req_headers := [];
     req_body :=
       FormData [(lit "event_id", Field (ToString eventId));
                 (lit "phone", Field (phone st));
                 (lit "selfie",
                  FileEntry (new_File blob (lit "selfie.jpg")
                                      (lit "image/jpeg")))] |}.

(** [handleCapture] up to the [await fetch] in its [toBlob] callback, the
    callback being run with the click; [blob] is what [toBlob] hands over,
    [None] for [null]. *)
Definition handleCapture (blob : option Blob) (st : state)
    : state * list request :=
  if negb (videoRef_current st) then (st, [])
  else match blob with
       | None => (setMessage (Str Erro_ao_capturar) st, [])
       | Some b =>
           let st := setSubmitting true st in
           (st, [register_request b st])
       end.

Definition handleCapture_try (o : outcome) (st : state) : option state :=
  res ← awaited o;
  data ← json res;
  if ok res then
    data_message ← get data (lit "message");
    Some (setMessage data_message st)
  else
    data_error ← get data (lit "error");
    Some (setMessage
            (or data_error (Str RegisterForm.Erro_ao_realizar_cadastro)) st).

Definition handleCapture_settled (o : outcome) (st : state) : state :=
  setStreamRef false
    (setStep done_step
       (setSubmitting false
          (match handleCapture_try o st with
           | Some st' => st'
           | None => setMessage (Str Erro_de_conexao) st
           end))).

(** What the visitor, the camera and the network do to the mounted
    component.  The phone form is on screen in the phone step only, the two
    camera buttons in the camera step only; the phone input is [required],
    and the capture button is [disabled] while [submitting].  A fetch
    settles only while it is under way: the one of the mount effect while
    [loadingEvent], the registration while [submitting]. *)
Inductive event :=
| EventSettled (o : outcome)
| TypePhone (s : jsstring)
| ClickContinuar (granted : bool)
| ClickToggle (granted : bool)
| ClickCapturar (blob : option Blob)
| RegisterSettled (o : outcome).

Definition on (st : state) (ev : event) : state * list request :=
  match ev, step st with
  | EventSettled o, _ =>
      if loadingEvent st then (fetchEvent_settled o st, []) else (st, [])
  | TypePhone s, phone_step => (setPhone s st, [])
  | ClickContinuar granted, phone_step =>
      if bool_decide (phone st = []) then (st, [])
      else (handlePhoneSubmit granted st, [])
  | ClickToggle granted, camera_step => (handleToggleCamera granted st, [])
  | ClickCapturar blob, camera_step =>
      if submitting st then (st, []) else handleCapture blob st
  | RegisterSettled o, _ =>
      if submitting st then (handleCapture_settled o st, []) else (st, [])
  | _, _ => (st, [])
  end.

Fixpoint run (st : state) (evs : list event) : state * list request :=
  match evs with
  | [] => (st, [])
  | ev :: evs' =>
      let '(st1, sent1) := on st ev in
      let '(st2, sent2) := run st1 evs' in
      (st2, sent1 ++ sent2)
  end.

(** Mounting: the initial state and the request of the mount effect. *)
Definition mount : state * list request := (init, [fetchEvent_request]).
End Register.

End RegisterSteps.

(** ** Slideshow: src/unnamed/part_002 *)

Module Slideshow.

Record state := {
  media : value;
  current : N;
  error : value
}.

Definition init : state :=
  {| media := Array []; current := 0; error := Str [] |}.

Definition setMedia (v : value) (st : state) : state :=
  {| media := v; current := current st; error := error st |}.
Definition setCurrent (i : N) (st : state) : state :=
  {| media := media st; current := i; error := error st |}.
Definition setError (v : value) (st : state) : state :=
  {| media := media st; current := current st; error := v |}.

Definition Nenhum_evento : jsstring := lit "Nenhum evento especificado".

(** 'Erro ao carregar mídia' *)
Definition Erro_ao_carregar_midia : jsstring :=
  lit "Erro ao carregar m" ++ [237] ++ lit "dia".

(** [setInterval(callback, delay)], the callback being the updater handed
    to [setCurrent]. *)
Record timer := {
  delay : N;
  callback : N -> N
}.

(** What [App] returns.  [ErrorText v] is the paragraph [<p>{v}</p>],
    whatever [v] is; [Crash] is an exception thrown inside [App] (a
    property of a [null] item). *)
Inductive view :=
| ErrorText (text : value)
| Informe_o_parametro
| Nenhuma_midia
| Slide (cell : element) (position : jsstring)
| Crash.

Section App.
Context `{Engine} `{Build}.
Variable eventId : value.

(** The first effect: [fetchMedia] up to its [await fetch]. *)
Definition mount : state * list request :=
  if negb (truthy eventId) then (setError (Str Nenhum_evento) init, [])
  else (init, [fetch_get (api (lit "/slideshow/" ++ ToString eventId))]).

Definition fetchMedia_try (o : outcome) (st : state) : option state :=
  res ← awaited o;
  data ← json res;
  if ok res then
    data_media ← get data (lit "media");
    Some (setMedia (or data_media (Array [])) st)
  else
    data_error ← get data (lit "error");
    Some (setError (or data_error (Str Erro_ao_carregar_midia)) st).

Definition fetchMedia_settled (o : outcome) (st : state) : state :=
  match fetchMedia_try o st with
  | Some st' => st'
  | None => setError (Str Erro_de_conexao) st
  end.

(** The second effect, run for the current [media]: the interval it sets,
    if any. *)
Definition advance_timer (media : value) : option timer :=
  match get_length media with
  | Some len =>
      if greater_than len 1
      then Some {| delay := 5000;
                   callback := fun prev =>
                     match ToNumber len with
                     | Num _ n => (prev + 1) mod n
                     | NaN => prev
                     end |}
      else None
  | None => None
  end.

Definition current_cell (st : state) : option element :=
  currentItem ← get_index (media st) (current st);
  item_url ← get currentItem (lit "url");
  let fileUrl := ToString API_BASE ++ ToString item_url in
  item_filename ← get currentItem (lit "filename");
  let isVideo := test gallery_video_re item_filename in
  item_upload_id ← get currentItem (lit "upload_id");
  Some (if isVideo then Video item_upload_id fileUrl
        else Img item_upload_id fileUrl).

Definition App (st : state) : view :=
  if truthy (error st) then ErrorText (error st)
  else if negb (truthy eventId) then Informe_o_parametro
  else match get_length (media st) with
       | None => Crash
       | Some len =>
           if strict_equal len (Number (Num false 0)) then Nenhuma_midia
           else match current_cell st with
                | Some cell =>
                    Slide cell
                      (NumberToString (Num false (current st + 1))
                       ++ lit " / " ++ ToString len)
                | None => Crash
                end
       end.

(** Whether React draws what [App] returned: not when [App] threw, and
    not a paragraph whose child React does not accept. *)
Definition draws (v : view) : bool :=
  match v with
  | ErrorText text => valid_child text
  | Informe_o_parametro | Nenhuma_midia | Slide _ _ => true
  | Crash => false
  end.

(** Five seconds pass.  The interval is there only while the application
    is mounted: the effect that sets it runs once React has drawn the
    render it belongs to, and at the first render that throws React
    unmounts the application, which clears the interval and leaves the
    state as it is. *)
Definition tick (st : state) : state :=
  if draws (App st) then
    match advance_timer (media st) with
    | Some t => setCurrent (callback t (current st)) st
    | None => st
    end
  else st.
End App.

End Slideshow.

(** ** Dashboard: src/dashboard/src/App.jsx

    The earlier dashboard kept as src/unnamed/part_000 has the same state,
    [fetchEvents], [handleLogin], [handleCreateEvent], [logout] and
    expiration field, and no analytics.  The state is embedded whole; of
    what is drawn, only which of the three views is returned.  Left out
    are the checks the browser makes before it fires [onSubmit]
    ([required], [type="url"]) and the unmounting of the application when a
    render throws: both only take behaviours away, and what is proved of
    every session below holds of the fewer sessions the browser allows. *)

Module Dashboard.

Record new_event := {
  name : jsstring;
  phrase : jsstring;
  expiration_days : value;
  logo_url : jsstring
}.

Definition thirty : value := Number (Num false 30).

(** [{ name: '', phrase: '', expiration_days: 30, logo_url: '' }] *)
Definition blank_event : new_event :=
  {| name := []; phrase := []; expiration_days := thirty; logo_url := [] |}.

(** The object [JSON.stringify(newEvent)] is applied to. *)
Definition event_object (e : new_event) : value :=
  Object (<[lit "name" := Str (name e)]>
          (<[lit "phrase" := Str (phrase e)]>
           (<[lit "expiration_days" := expiration_days e]>
            (<[lit "logo_url" := Str (logo_url e)]> ∅)))).

Inductive view_name := events_view | analytics_view.

Record analytics_data := {
  event : value;
  totalUploads : value;
  photos : N;
  videos : N;
  participants : value
}.

(** The component's state, and the browser's [localStorage]. *)
Record world := {
  token : value;
  username : jsstring;
  password : jsstring;
  error : value;
  events : value;
  newEvent : new_event;
  activeView : view_name;
  selectedEvent : value;
  analytics : option analytics_data;
  localStorage : gmap jsstring jsstring
}.

Definition setToken (v : value) (w : world) : world :=
  {| token := v; username := username w; password := password w;
     error := error w; events := events w;
     newEvent := newEvent w; activeView := activeView w;
     selectedEvent := selectedEvent w; analytics := analytics w;
     localStorage := localStorage w |}.
Definition setUsername (s : jsstring) (w : world) : world :=
  {| token := token w; username := s; password := password w;
     error := error w; events := events w;
     newEvent := newEvent w; activeView := activeView w;
     selectedEvent := selectedEvent w; analytics := analytics w;
     localStorage := localStorage w |}.
Definition setPassword (s : jsstring) (w : world) : world :=
  {| token := token w; username := username w; password := s;
     error := error w; events := events w;
     newEvent := newEvent w; activeView := activeView w;
     selectedEvent := selectedEvent w; analytics := analytics w;
     localStorage := localStorage w |}.
Definition setError (v : value) (w : world) : world :=
  {| token := token w; username := username w; password := password w;
     error := v; events := events w;
     newEvent := newEvent w; activeView := activeView w;
     selectedEvent := selectedEvent w; analytics := analytics w;
     localStorage := localStorage w |}.
Definition setEvents (v : value) (w : world) : world :=
  {| token := token w; username := username w; password := password w;
     error := error w; events := v;
     newEvent := newEvent w; activeView := activeView w;
     selectedEvent := selectedEvent w; analytics := analytics w;
     localStorage := localStorage w |}.
Definition setNewEvent (e : new_event) (w : world) : world :=
  {| token := token w; username := username w; password := password w;
     error := error w; events := events w;
     newEvent := e; activeView := activeView w;
     selectedEvent := selectedEvent w; analytics := analytics w;
     localStorage := localStorage w |}.
Definition setActiveView (v : view_name) (w : world) : world :=
  {| token := token w; username := username w; password := password w;
     error := error w; events := events w;
     newEvent := newEvent w; activeView := v;
     selectedEvent := selectedEvent w; analytics := analytics w;
     localStorage := localStorage w |}.
Definition setSelectedEvent (v : value) (w : world) : world :=
  {| token := token w; username := username w; password := password w;
     error := error w; events := events w;
     newEvent := newEvent w; activeView := activeView w;
     selectedEvent := v; analytics := analytics w;
     localStorage := localStorage w |}.
Definition setAnalytics (a : option analytics_data) (w : world) : world :=
  {| token := token w; username := username w; password := password w;
     error := error w; events := events w;
     newEvent := newEvent w; activeView := activeView w;
     selectedEvent := selectedEvent w; analytics := a;
     localStorage := localStorage w |}.
Definition setLocalStorage (ls : gmap jsstring jsstring) (w : world) : world :=
  {| token := token w; username := username w; password := password w;
     error := error w; events := events w;
     newEvent := newEvent w; activeView := activeView w;
     selectedEvent := selectedEvent w; analytics := analytics w;
     localStorage := ls |}.

Definition tp_token : jsstring := lit "tp_token".

(** [localStorage.getItem(key)] *)
Definition getItem (key : jsstring) (ls : gmap jsstring jsstring) : value :=
  match ls !! key with
  | Some s => Str s
  | None => Null
  end.

(** The state of a fresh mount: every [useState] initialiser. *)
Definition mounted (ls : gmap jsstring jsstring) : world :=
  {| token := getItem tp_token ls; username := []; password := [];
     error := Str []; events := Array [];
     newEvent := blank_event; activeView := events_view;
     selectedEvent := Null; analytics := None; localStorage := ls |}.

(** The four [onChange] handlers of the creation form. *)
Definition change_name (s : jsstring) (e : new_event) : new_event :=
  {| name := s; phrase := phrase e; expiration_days := expiration_days e;
     logo_url := logo_url e |}.
Definition change_phrase (s : jsstring) (e : new_event) : new_event :=
  {| name := name e; phrase := s; expiration_days := expiration_days e;
     logo_url := logo_url e |}.
Definition change_expiration (s : jsstring) (e : new_event) : new_event :=
  {| name := name e; phrase := phrase e;
     expiration_days := or (Number (parseInt s)) thirty;
     logo_url := logo_url e |}.
Definition change_logo (s : jsstring) (e : new_event) : new_event :=
  {| name := name e; phrase := phrase e; expiration_days := expiration_days e;
     logo_url := s |}.

(** [{error && <p style={styles.error}>{error}</p>}], in the login form
    and under the creation form: the paragraph's child, when there is a
    paragraph. *)
Definition error_paragraph (w : world) : option value :=
  if truthy (error w) then Some (error w) else None.

(** The updater [(prev) => [...prev, data]].  React runs it in the next
    render; when [prev] is not iterable it throws there and the
    application is unmounted, which is left out here (see above): the list
    is then left as it is. *)
Definition append_event (prev data : value) : value :=
  match spread prev with
  | Some items => Array (items ++ [data])
  | None => prev
  end.

(** 'Credenciais inválidas' *)
Definition Credenciais_invalidas : jsstring :=
  lit "Credenciais inv" ++ [225] ++ lit "lidas".

(** 'Não foi possível criar o evento' *)
Definition Nao_foi_possivel_criar : jsstring :=
  lit "N" ++ [227] ++ lit "o foi poss" ++ [237] ++ lit "vel criar o evento".

(** 'Não foi possível obter os eventos' *)
Definition Nao_foi_possivel_obter : jsstring :=
  lit "N" ++ [227] ++ lit "o foi poss" ++ [237] ++ lit "vel obter os eventos".

Definition Erro_ao_criar_evento : jsstring := lit "Erro ao criar evento".

Section App.
Context `{Engine} `{Build}.

(** [Authorization: `Bearer ${token}`] *)
Definition Authorization (tok : value) : jsstring * jsstring :=
  (lit "Authorization", lit "Bearer " ++ ToString tok).

Definition Content_Type_json : jsstring * jsstring :=
  (lit "Content-Type", lit "application/json").

(** The request of [fetchEvents]. *)
Definition fetchEvents_request (tok : value) : request :=
  {| req_method := GET; req_url := api (lit "/events");
     req_headers := [Authorization tok]; req_body := NoBody |}.

(** The effect on [token]: [if (token) fetchEvents()]. *)
Definition token_effect (w : world) : list request :=
  if truthy (token w) then [fetchEvents_request (token w)] else [].

Definition fetchEvents_settled (o : outcome) (w : world) : world :=
  match awaited o with
  | Some res =>
      if negb (ok res) then setError (Str Nao_foi_possivel_obter) w
      else match json res with
           | Some data => setEvents data w
           | None => setError (Str Nao_foi_possivel_obter) w
           end
  | None => setError (Str Nao_foi_possivel_obter) w
  end.

(** The request of [handleLogin]. *)
Definition login_request (w : world) : request :=
  {| req_method := POST; req_url := api (lit "/login");
     req_headers := [Content_Type_json];
     req_body :=
       Json (Object (<[lit "username" := Str (username w)]>
                     (<[lit "password" := Str (password w)]> ∅))) |}.

(** [handleLogin] up to its [await fetch]. *)
Definition handleLogin (w : world) : world * list request :=
  let w := setError (Str []) w in
  (w, [login_request w]).

(** The rest of [handleLogin], from the moment the fetch settles.  After
    [setToken] React renders again, and the effect on [token] runs if the
    token is no longer the same. *)
Definition handleLogin_try (o : outcome) (w : world)
    : option (world * list request) :=
  res ← awaited o;
  data ← json res;
  if ok res then
    data_token ← get data (lit "token");
    let w' := setLocalStorage
                (<[tp_token := ToString data_token]> (localStorage w)) w in
    let w' := setPassword [] (setToken data_token w') in
    Some (w', if Object_is (token w) data_token then [] else token_effect w')
  else
    data_error ← get data (lit "error");
    Some (setError (or data_error (Str Credenciais_invalidas)) w, []).

Definition handleLogin_settled (o : outcome) (w : world)
    : world * list request :=
  match handleLogin_try o w with
  | Some after => after
  | None => (setError (Str Erro_de_conexao) w, [])
  end.

(** The request of [handleCreateEvent]. *)
Definition create_request (w : world) : request :=
  {| req_method := POST; req_url := api (lit "/events");
     req_headers := [Content_Type_json; Authorization (token w)];
     req_body := Json (event_object (newEvent w)) |}.

(** [handleCreateEvent] up to its [await fetch]. *)
Definition handleCreateEvent (w : world) : world * list request :=
  let w := setError (Str []) w in
  (w, [create_request w]).

Definition handleCreateEvent_try (o : outcome) (w : world) : option world :=
  res ← awaited o;
  data ← json res;
  if ok res then
    Some (setNewEvent blank_event
            (setEvents (append_event (events w) data) w))
  else
    data_error ← get data (lit "error");
    Some (setError (or data_error (Str Nao_foi_possivel_criar)) w).

Definition handleCreateEvent_settled (o : outcome) (w : world) : world :=
  match handleCreateEvent_try o w with
  | Some w' => w'
  | None => setError (Str Erro_ao_criar_evento) w
  end.

Definition logout (w : world) : world :=
  setAnalytics None
    (setSelectedEvent Null
       (setActiveView events_view
          (setEvents (Array [])
             (setToken Null
                (setLocalStorage (delete tp_token (localStorage w)) w))))).

(** The [forEach] of [loadAnalytics] over the uploads: photos and videos
    counted; [None] when reading a [filename] throws. *)
Fixpoint count_uploads (uploads : list value) (photos videos : N)
    : option (N * N) :=
  match uploads with
  | [] => Some (photos, videos)
  | u :: rest =>
      u_filename ← get u (lit "filename");
      if test dashboard_video_re u_filename
      then count_uploads rest photos (videos + 1)
      else count_uploads rest (photos + 1) videos
  end.

Definition events_request (tok : value) (path : jsstring) : request :=
  {| req_method := GET; req_url := api (lit "/events/" ++ path);
     req_headers := [Authorization tok]; req_body := NoBody |}.

(** What [loadAnalytics] computes once both fetches came back. *)
Definition analytics_of (evtData uploadsData : value)
    : option analytics_data :=
  uploads_length ← get_length uploadsData;
  let totalUploads := or uploads_length (Number (Num false 0)) in
  counts ← match uploadsData with
           | Array items => count_uploads items 0 0
           | _ => None
           end;
  evt_participants ← get evtData (lit "participants");
  participantsCount ←
    (if truthy evt_participants then get_length evt_participants
     else Some (Number (Num false 0)));
  Some {| event := evtData; totalUploads := totalUploads;
          photos := fst counts; videos := snd counts;
          participants := participantsCount |}.

(** [loadAnalytics(eventId)], run to its end with the outcomes of its two
    fetches, nothing else happening meanwhile.  The second request leaves
    only if the first came back with a JSON body; both carry the token of
    the render the click happened in.  [DashboardAsync] below takes it
    apart at its awaits. *)
Definition loadAnalytics (eventId : value) (o1 o2 : outcome) (w : world)
    : world * list request :=
  let tok := token w in
  let w := setActiveView analytics_view
             (setSelectedEvent eventId (setAnalytics None w)) in
  let req1 := events_request tok (ToString eventId) in
  let req2 := events_request tok (ToString eventId ++ lit "/uploads") in
  match awaited o1 ≫= json with
  | None => (setAnalytics None w, [req1])
  | Some evtData =>
      (setAnalytics
         (uploadsData ← awaited o2 ≫= json; analytics_of evtData uploadsData)
         w,
       [req1; req2])
  end.

(** What the administrator, the browser and the network do.  The login
    form is on screen exactly while the token is falsy; the list of events
    with its creation form while it is truthy and the view is 'events'; the
    analytics otherwise, with its two buttons once there are analytics. *)
Inductive action :=
| Reload
| TypeUsername (s : jsstring)
| TypePassword (s : jsstring)
| ClickEntrar
| LoginSettled (o : outcome)
| FetchEventsSettled (o : outcome)
| TypeName (s : jsstring)
| TypePhrase (s : jsstring)
| TypeExpiration (s : jsstring)
| TypeLogo (s : jsstring)
| ClickCriar
| CreateEventSettled (o : outcome)
| ClickVer (eventId : value) (o1 o2 : outcome)
| ClickVoltar
| ClickSair.

Inductive screen := login_screen | events_screen | analytics_screen.

Definition on_screen (w : world) : screen :=
  if negb (truthy (token w)) then login_screen
  else match activeView w with
       | events_view => events_screen
       | analytics_view => analytics_screen
       end.

Definition step (w : world) (a : action) : world * list request :=
  match a, on_screen w with
  | Reload, _ =>
      let w' := mounted (localStorage w) in (w', token_effect w')
  | LoginSettled o, _ => handleLogin_settled o w
  | FetchEventsSettled o, _ => (fetchEvents_settled o w, [])
  | CreateEventSettled o, _ => (handleCreateEvent_settled o w, [])
  | TypeUsername s, login_screen => (setUsername s w, [])
  | TypePassword s, login_screen => (setPassword s w, [])
  | ClickEntrar, login_screen => handleLogin w
  | TypeName s, events_screen =>
      (setNewEvent (change_name s (newEvent w)) w, [])
  | TypePhrase s, events_screen =>
      (setNewEvent (change_phrase s (newEvent w)) w, [])
  | TypeExpiration s, events_screen =>
      (setNewEvent (change_expiration s (newEvent w)) w, [])
  | TypeLogo s, events_screen =>
      (setNewEvent (change_logo s (newEvent w)) w, [])
  | ClickCriar, events_screen => handleCreateEvent w
  | ClickVer eventId o1 o2, events_screen => loadAnalytics eventId o1 o2 w
  | ClickSair, events_screen => (logout w, [])
  | ClickVoltar, analytics_screen =>
      match analytics w with
      | Some _ => (setActiveView events_view w, [])
      | None => (w, [])
      end
  | ClickSair, analytics_screen =>
      match analytics w with
      | Some _ => (logout w, [])
      | None => (w, [])
      end
  | _, _ => (w, [])
  end.

(** A session: the page is opened in a browser whose [localStorage] holds
    [ls], then the actions happen in turn.  Every request sent is returned
    with the [localStorage] of the moment. *)
Fixpoint run (w : world) (acts : list action)
    : world * list (request * gmap jsstring jsstring) :=
  match acts with
  | [] => (w, [])
  | a :: acts' =>
      let '(w1, sent1) := step w a in
      let '(w2, sent2) := run w1 acts' in
      (w2, map (fun r => (r, localStorage w1)) sent1 ++ sent2)
  end.

Definition session (ls : gmap jsstring jsstring) (acts : list action)
    : world * list (request * gmap jsstring jsstring) :=
  run (mounted ls) (Reload :: acts).
End App.

Section Words.
Context `{Engine} `{Build}.

(** The claim's words: a request to one of the events endpoints, /events,
    /events/:id or /events/:id/uploads. *)
Definition protected (r : request) : Prop :=
  exists rest, req_url r = api (lit "/events" ++ rest).

(** The claim's words: [t] is a token returned by POST /api/login, in an
    OK response among the actions. *)
Definition returned_by_login (acts : list action) (t : jsstring) : Prop :=
  exists res data tok,
    LoginSettled (Resolved res) ∈ acts
    /\ ok res = true
    /\ json res = Some data
    /\ get data (lit "token") = Some tok
    /\ ToString tok = t.

(** What the browser has under 'tp_token' is what was there when the page
    was opened or a token returned by a login since. *)
Definition stored_from (ls0 : gmap jsstring jsstring) (acts : list action)
    (w : world) : Prop :=
  forall t, localStorage w !! tp_token = Some t ->
    ls0 !! tp_token = Some t \/ returned_by_login acts t.

(** A truthy token in the state is the one under 'tp_token'. *)
Definition token_stored (w : world) : Prop :=
  truthy (token w) = true ->
  localStorage w !! tp_token = Some (ToString (token w)).
End Words.

(** The claim's words: a number that is neither zero nor NaN. *)
Definition nonzero_number (v : value) : Prop :=
  exists s m, v = Number (Num s m) /\ m <> 0.

(** A number the engine holds as it is written here: the integers up to
    2^53 are doubles themselves, whereas a longer numeral is stored as the
    nearest double, and as [Infinity] from 309 digits on. *)
Definition exact (n : number) : Prop :=
  match n with
  | NaN => True
  | Num _ m => m <= 2 ^ 53
  end.

Definition held_exactly (v : value) : Prop :=
  match v with
  | Number n => exact n
  | _ => True
  end.

(** An action that types nothing longer than that into the expiration
    field. *)
Definition typed_exactly (a : action) : Prop :=
  match a with
  | TypeExpiration s => exact (parseInt s)
  | _ => True
  end.

End Dashboard.

(** ** Dashboard: [loadAnalytics] at its two awaits

    [Dashboard.step] runs a click on 'Ver' to its end at once.  Here
    [loadAnalytics] is taken apart where it awaits, so that anything else,
    a login that settles for one, may happen in between.  What it holds
    across an await is its closure: the [token] and the [eventId] of the
    render the click happened in.  A reload of the page drops what is
    under way. *)

Module DashboardAsync.

Import Dashboard.

Inductive stage :=
| awaiting_event
| awaiting_uploads (evtData : value)
| finished.

(** A [loadAnalytics] that was started. *)
Record load := {
  load_token : value;
  load_event : value;
  load_stage : stage
}.

Definition at_stage (s : stage) (l : load) : load :=
  {| load_token := load_token l; load_event := load_event l;
     load_stage := s |}.

(** The application and the calls of [loadAnalytics] so far, in the order
    of their clicks. *)
Record page := {
  app : world;
  loads : list load
}.

(** An action of [Dashboard.step] (a click on 'Ver' whose two fetches
    settle before anything else among them), a click on 'Ver', or the
    fetch a call of [loadAnalytics] awaits settling. *)
Inductive action :=
| Plain (a : Dashboard.action)
| Ver (eventId : value)
| EventFetched (i : nat) (o : outcome)
| UploadsFetched (i : nat) (o : outcome).

Section App.
Context `{Engine} `{Build}.

(** [loadAnalytics(eventId)] up to its first [await]. *)
Definition loadAnalytics_start (eventId : value) (p : page)
    : page * list request :=
  let w := app p in
  ({| app := setActiveView analytics_view
               (setSelectedEvent eventId (setAnalytics None w));
      loads := loads p ++ [{| load_token := token w; load_event := eventId;
                              load_stage := awaiting_event |}] |},
   [events_request (token w) (ToString eventId)]).

(** From the first fetch settling to the second [await], or to the
    [catch]. *)
Definition loadAnalytics_event (i : nat) (l : load) (o : outcome) (p : page)
    : page * list request :=
  match awaited o ≫= json with
  | Some evtData =>
      ({| app := app p;
          loads := <[i := at_stage (awaiting_uploads evtData) l]> (loads p) |},
       [events_request (load_token l)
          (ToString (load_event l) ++ lit "/uploads")])
  | None =>
      ({| app := setAnalytics None (app p);
          loads := <[i := at_stage finished l]> (loads p) |}, [])
  end.

(** From the second fetch settling to the end. *)
Definition loadAnalytics_uploads (i : nat) (l : load) (evtData : value)
    (o : outcome) (p : page) : page :=
  {| app := setAnalytics
              (uploadsData ← awaited o ≫= json;
               analytics_of evtData uploadsData) (app p);
     loads := <[i := at_stage finished l]> (loads p) |}.

(** 'Ver' is a button of the list of events. *)
Definition step (p : page) (a : action) : page * list request :=
  match a with
  | Plain a' =>
      let '(w', sent) := Dashboard.step (app p) a' in
      ({| app := w';
          loads := match a' with Reload => [] | _ => loads p end |}, sent)
  | Ver eventId =>
      match on_screen (app p) with
      | events_screen => loadAnalytics_start eventId p
      | _ => (p, [])
      end
  | EventFetched i o =>
      match loads p !! i with
      | Some l =>
          match load_stage l with
          | awaiting_event => loadAnalytics_event i l o p
          | _ => (p, [])
          end
      | None => (p, [])
      end
  | UploadsFetched i o =>
      match loads p !! i with
      | Some l =>
          match load_stage l with
          | awaiting_uploads evtData =>
              (loadAnalytics_uploads i l evtData o p, [])
          | _ => (p, [])
          end
      | None => (p, [])
      end
  end.

(** Every request sent is returned with the [localStorage] of the
    moment. *)
Fixpoint run (p : page) (acts : list action)
    : page * list (request * gmap jsstring jsstring) :=
  match acts with
  | [] => (p, [])
  | a :: acts' =>
      let '(p1, sent1) := step p a in
      let '(p2, sent2) := run p1 acts' in
      (p2, map (fun r => (r, localStorage (app p1))) sent1 ++ sent2)
  end.

(** The page is opened in a browser whose [localStorage] holds [ls]. *)
Definition session (ls : gmap jsstring jsstring) (acts : list action)
    : page * list (request * gmap jsstring jsstring) :=
  run {| app := mounted ls; loads := [] |} (Plain Reload :: acts).
End App.

Section Words.
Context `{Engine} `{Build}.

(** The claim's words: [t] is a token returned by POST /api/login, in an
    OK response among the actions. *)
Definition returned_by_login (acts : list action) (t : jsstring) : Prop :=
  exists res data tok,
    Plain (LoginSettled (Resolved res)) ∈ acts
    /\ ok res = true
    /\ json res = Some data
    /\ get data (lit "token") = Some tok
    /\ ToString tok = t.


Definition typed_exactly (a : action) : Prop :=
  match a with
  | Plain a' => Dashboard.typed_exactly a'
  | _ => True
  end.

(** What the browser has under 'tp_token' is what was there when the page
    was opened or a token returned by a login since. *)
Definition stored_from (ls0 : gmap jsstring jsstring) (acts : list action)
    (p : page) : Prop :=
  forall t, localStorage (app p) !! tp_token = Some t ->
    ls0 !! tp_token = Some t \/ returned_by_login acts t.



End Words.


End DashboardAsync.

(** ** encodeURIComponent

    [Encode] of the language definition with the unreserved set of
    [encodeURIComponent]: letters, digits and [- _ . ! ~ * ' ( )] stay,
    every other code point becomes the [%XX] of its UTF-8 octets, and a
    surrogate without its pair throws. *)

Module Uri.

Definition is_unreserved (c : N) : bool :=
  ((65 <=? c) && (c <=? 90)) || ((97 <=? c) && (c <=? 122))
  || ((48 <=? c) && (c <=? 57))
  || bool_decide (c ∈ [45; 95; 46; 33; 126; 42; 39; 40; 41]).

Definition is_high_surrogate (c : N) : bool := (55296 <=? c) && (c <=? 56319).
Definition is_low_surrogate (c : N) : bool := (56320 <=? c) && (c <=? 57343).

(** An upper-case hexadecimal digit. *)
Definition hex_digit (d : N) : N := if d <? 10 then 48 + d else 55 + d.

Definition percent (octet : N) : jsstring :=
  [37; hex_digit (octet / 16); hex_digit (octet mod 16)].

(** The UTF-8 octets of a code point. *)
Definition utf8 (cp : N) : list N :=
  if cp <? 128 then [cp]
  else if cp <? 2048 then [192 + cp / 64; 128 + cp mod 64]
  else if cp <? 65536 then
    [224 + cp / 4096; 128 + (cp / 64) mod 64; 128 + cp mod 64]
  else [240 + cp / 262144; 128 + (cp / 4096) mod 64;
        128 + (cp / 64) mod 64; 128 + cp mod 64].

Definition escape (cp : N) : jsstring := concat (map percent (utf8 cp)).

(** The code point of a surrogate pair. *)
Definition pair_code_point (hi lo : N) : N :=
  65536 + (hi - 55296) * 1024 + (lo - 56320).

(** [None] is the URIError. *)
Fixpoint encodeURIComponent (s : jsstring) : option jsstring :=
  match s with
  | [] => Some []
  | c :: rest =>
      if is_unreserved c then
        encoded ← encodeURIComponent rest; Some (c :: encoded)
      else if is_low_surrogate c then None
      else if is_high_surrogate c then
        match rest with
        | d :: rest' =>
            if is_low_surrogate d then
              encoded ← encodeURIComponent rest';
              Some (escape (pair_code_point c d) ++ encoded)
            else None
        | [] => None
        end
      else
        encoded ← encodeURIComponent rest; Some (escape c ++ encoded)
  end.

(** A code unit that is a surrogate, and one that may stand in a query
    without ending or splitting it: unreserved, or the percent sign. *)
Definition is_surrogate (c : N) : bool :=
  is_high_surrogate c || is_low_surrogate c.

Definition query_safe (c : N) : bool :=
  is_unreserved c || (c =? 37).

End Uri.

(** ** Microsite: the two buttons of the gallery

    [handleDownloadAll] and [handleShareWhatsApp] of [Gallery], the same in
    src/microsite/src/App.jsx and src/unnamed/part_001. *)

Module GalleryActions.

(** An [<a>] made and clicked: its [href] and its [download]. *)
Record link := {
  href : jsstring;
  download : jsstring
}.

Definition cell_src (e : element) : jsstring :=
  match e with
  | Video _ src => src
  | Img _ src => src
  end.

(** 'Confira minhas fotos e vídeos do evento: ' *)
Definition Confira : jsstring :=
  lit "Confira minhas fotos e v" ++ [237] ++ lit "deos do evento: ".

Section Actions.
Context `{Engine} `{Build}.

(** The callback of [media.forEach]. *)
Definition download_item (item : value) : option link :=
  item_url ← get item (lit "url");
  let link_href := ToString API_BASE ++ ToString item_url in
  item_filename ← get item (lit "filename");
  Some {| href := link_href; download := ToString item_filename |}.

(** The links clicked one after the other, and whether the loop ended by
    an exception: the clicks before it have happened. *)
Fixpoint click_each (items : list value) : list link * bool :=
  match items with
  | [] => ([], false)
  | item :: rest =>
      match download_item item with
      | Some l => let '(ls, threw) := click_each rest in (l :: ls, threw)
      | None => ([], true)
      end
  end.

(** [handleDownloadAll]; [media.forEach] is a function for an array
    only. *)
Definition handleDownloadAll (st : gallery_state) : list link * bool :=
  match media st with
  | Array items => click_each items
  | _ => ([], true)
  end.

(** [`${window.location.origin}/gallery/${token}`] *)
Definition share_link (origin : jsstring) (token : value) : jsstring :=
  origin ++ lit "/gallery/" ++ ToString token.

(** [handleShareWhatsApp]: the address handed to [window.open], [None]
    when [encodeURIComponent] throws. *)
Definition handleShareWhatsApp (origin : jsstring) (token : value)
    : option jsstring :=
  let link := share_link origin token in
  let text := Confira ++ link in
  encoded ← Uri.encodeURIComponent text;
  Some (lit "https://wa.me/?text=" ++ encoded).
End Actions.

End GalleryActions.

(** ** Microsite, the flow in steps: what [Register] returns *)

Module RegisterScreens.

Import RegisterSteps.

(** 'Perfeito! Cadastro realizado. Você receberá em minutos seu vídeo ou
    foto por WhatsApp ou SMS.' *)
Definition Perfeito : jsstring :=
  lit "Perfeito! Cadastro realizado. Voc" ++ [234] ++ lit " receber"
  ++ [225] ++ lit " em minutos seu v" ++ [237]
  ++ lit "deo ou foto por WhatsApp ou SMS.".

(** [v?.k] *)
Definition optional_get (v : value) (k : jsstring) : value :=
  default Undefined (get v k).

(** What stands above the phone form: the loading line, the paragraph
    with the event's error, or the logo, the title and the value of
    [eventInfo?.phrase && ...], a paragraph when truthy.  The values are
    kept as they are handed to React. *)
Inductive heading :=
| Carregando_evento
| EventErrorText (text : value)
| EventHeading (logo title phrase : value).

Inductive screen :=
| PhoneScreen (above : heading) (phone_value : jsstring)
| CameraScreen (disabled : bool) (label : jsstring) (message : value)
| DoneScreen (text : value).

Definition Register (st : state) : screen :=
  match step st with
  | phone_step =>
      PhoneScreen
        (if loadingEvent st then Carregando_evento
         else if truthy (eventError st) then EventErrorText (eventError st)
         else EventHeading
                (if truthy (optional_get (eventInfo st) (lit "logo_url"))
                 then optional_get (eventInfo st) (lit "logo_url")
                 else Str (lit "/logo_commemorative.png"))
                (or (optional_get (eventInfo st) (lit "name"))
                    (Str (lit "Cadastro")))
                (optional_get (eventInfo st) (lit "phrase")))
        (phone st)
  | camera_step =>
      CameraScreen (submitting st)
        (if submitting st then lit "Enviando..."
         else lit "Capturar e Enviar")
        (message st)
  | done_step =>
      DoneScreen (if truthy (message st) then message st else Str Perfeito)
  end.

(** Whether React draws what [Register] returned: every value placed as
    a child has to be one React accepts (the logo is an attribute, which
    takes any value). *)
Definition draws (s : screen) : bool :=
  match s with
  | PhoneScreen Carregando_evento _ => true
  | PhoneScreen (EventErrorText text) _ => valid_child text
  | PhoneScreen (EventHeading _ title phrase) _ =>
      valid_child title && valid_child phrase
  | CameraScreen _ _ message => valid_child message
  | DoneScreen text => valid_child text
  end.

End RegisterScreens.

(** ** The earlier dashboard: src/unnamed/part_000

    The same component without the analytics: no [activeView], no
    [selectedEvent], no [analytics], no [loadAnalytics].  As for the later
    one, the browser's own checks and the unmounting are left out.
    The actions are those of the later dashboard; the two that belong to
    the analytics find nothing to click. *)

Module Dashboard0.

Import Dashboard.

Record world := {
  token : value;
  username : jsstring;
  password : jsstring;
  error : value;
  events : value;
  newEvent : new_event;
  localStorage : gmap jsstring jsstring
}.

Definition setToken (v : value) (w : world) : world :=
  {| token := v; username := username w; password := password w;
     error := error w; events := events w; newEvent := newEvent w;
     localStorage := localStorage w |}.
Definition setUsername (s : jsstring) (w : world) : world :=
  {| token := token w; username := s; password := password w;
     error := error w; events := events w; newEvent := newEvent w;
     localStorage := localStorage w |}.
Definition setPassword (s : jsstring) (w : world) : world :=
  {| token := token w; username := username w; password := s;
     error := error w; events := events w; newEvent := newEvent w;
     localStorage := localStorage w |}.
Definition setError (v : value) (w : world) : world :=
  {| token := token w; username := username w; password := password w;
     error := v; events := events w; newEvent := newEvent w;
     localStorage := localStorage w |}.
Definition setEvents (v : value) (w : world) : world :=
  {| token := token w; username := username w; password := password w;
     error := error w; events := v; newEvent := newEvent w;
     localStorage := localStorage w |}.
Definition setNewEvent (e : new_event) (w : world) : world :=
  {| token := token w; username := username w; password := password w;
     error := error w; events := events w; newEvent := e;
     localStorage := localStorage w |}.
Definition setLocalStorage (ls : gmap jsstring jsstring) (w : world) : world :=
  {| token := token w; username := username w; password := password w;
     error := error w; events := events w; newEvent := newEvent w;
     localStorage := ls |}.

Definition mounted (ls : gmap jsstring jsstring) : world :=
  {| token := getItem tp_token ls; username := []; password := [];
     error := Str []; events := Array [];
     newEvent := blank_event; localStorage := ls |}.

Section App.
Context `{Engine} `{Build}.

Definition token_effect (w : world) : list request :=
  if truthy (token w) then [fetchEvents_request (token w)] else [].

Definition fetchEvents_settled (o : outcome) (w : world) : world :=
  match awaited o with
  | Some res =>
      if negb (ok res) then setError (Str Nao_foi_possivel_obter) w
      else match json res with
           | Some data => setEvents data w
           | None => setError (Str Nao_foi_possivel_obter) w
           end
  | None => setError (Str Nao_foi_possivel_obter) w
  end.

Definition login_request (w : world) : request :=
  {| req_method := POST; req_url := api (lit "/login");
     req_headers := [Content_Type_json];
     req_body :=
       Json (Object (<[lit "username" := Str (username w)]>
                     (<[lit "password" := Str (password w)]> ∅))) |}.

Definition handleLogin (w : world) : world * list request :=
  let w := setError (Str []) w in
  (w, [login_request w]).

Definition handleLogin_try (o : outcome) (w : world)
    : option (world * list request) :=
  res ← awaited o;
  data ← json res;
  if ok res then
    data_token ← get data (lit "token");
    let w' := setLocalStorage
                (<[tp_token := ToString data_token]> (localStorage w)) w in
    let w' := setPassword [] (setToken data_token w') in
    Some (w', if Object_is (token w) data_token then [] else token_effect w')
  else
    data_error ← get data (lit "error");
    Some (setError (or data_error (Str Credenciais_invalidas)) w, []).

Definition handleLogin_settled (o : outcome) (w : world)
    : world * list request :=
  match handleLogin_try o w with
  | Some after => after
  | None => (setError (Str Erro_de_conexao) w, [])
  end.

Definition create_request (w : world) : request :=
  {| req_method := POST; req_url := api (lit "/events");
     req_headers := [Content_Type_json; Authorization (token w)];
     req_body := Json (event_object (newEvent w)) |}.

Definition handleCreateEvent (w : world) : world * list request :=
  let w := setError (Str []) w in
  (w, [create_request w]).

Definition handleCreateEvent_try (o : outcome) (w : world) : option world :=
  res ← awaited o;
  data ← json res;
  if ok res then
    Some (setNewEvent blank_event
            (setEvents (append_event (events w) data) w))
  else
    data_error ← get data (lit "error");
    Some (setError (or data_error (Str Nao_foi_possivel_criar)) w).

Definition handleCreateEvent_settled (o : outcome) (w : world) : world :=
  match handleCreateEvent_try o w with
  | Some w' => w'
  | None => setError (Str Erro_ao_criar_evento) w
  end.

Definition logout (w : world) : world :=
  setEvents (Array [])
    (setToken Null (setLocalStorage (delete tp_token (localStorage w)) w)).

(** The login form is on screen exactly while the token is falsy, the
    events with the creation form and the logout button otherwise. *)
Definition step (w : world) (a : action) : world * list request :=
  match a, truthy (token w) with
  | Reload, _ =>
      let w' := mounted (localStorage w) in (w', token_effect w')
  | LoginSettled o, _ => handleLogin_settled o w
  | FetchEventsSettled o, _ => (fetchEvents_settled o w, [])
  | CreateEventSettled o, _ => (handleCreateEvent_settled o w, [])
  | TypeUsername s, false => (setUsername s w, [])
  | TypePassword s, false => (setPassword s w, [])
  | ClickEntrar, false => handleLogin w
  | TypeName s, true => (setNewEvent (change_name s (newEvent w)) w, [])
  | TypePhrase s, true => (setNewEvent (change_phrase s (newEvent w)) w, [])
  | TypeExpiration s, true =>
      (setNewEvent (change_expiration s (newEvent w)) w, [])
  | TypeLogo s, true => (setNewEvent (change_logo s (newEvent w)) w, [])
  | ClickCriar, true => handleCreateEvent w
  | ClickSair, true => (logout w, [])
  | _, _ => (w, [])
  end.

Fixpoint run (w : world) (acts : list action)
    : world * list (request * gmap jsstring jsstring) :=
  match acts with
  | [] => (w, [])
  | a :: acts' =>
      let '(w1, sent1) := step w a in
      let '(w2, sent2) := run w1 acts' in
      (w2, map (fun r => (r, localStorage w1)) sent1 ++ sent2)
  end.

Definition session (ls : gmap jsstring jsstring) (acts : list action)
    : world * list (request * gmap jsstring jsstring) :=
  run (mounted ls) (Reload :: acts).
End App.

(** The later dashboard's world seen as an earlier one. *)
Definition forget (w : Dashboard.world) : world :=
  {| token := Dashboard.token w; username := Dashboard.username w;
     password := Dashboard.password w; error := Dashboard.error w;
     events := Dashboard.events w; newEvent := Dashboard.newEvent w;
     localStorage := Dashboard.localStorage w |}.

(** An action of the earlier dashboard: not a click on 'Ver'. *)
Definition no_analytics (a : action) : Prop :=
  match a with
  | ClickVer _ _ _ => False
  | _ => True
  end.

End Dashboard0.

(** ** Words for the registration flows *)

Module RegisterWords.

(** Two states of the multi-step registration that differ at most in what
    the mount effect sets: the event's details, its error and whether it is
    still loading. *)
Definition same_flow (a b : RegisterSteps.state) : Prop :=
  RegisterSteps.step a = RegisterSteps.step b
  /\ RegisterSteps.phone a = RegisterSteps.phone b
  /\ RegisterSteps.message a = RegisterSteps.message b
  /\ RegisterSteps.submitting a = RegisterSteps.submitting b
  /\ RegisterSteps.useFrontCamera a = RegisterSteps.useFrontCamera b
  /\ RegisterSteps.streamRef a = RegisterSteps.streamRef b.

(** The settlings among the events of the single form. *)
Definition is_settled (ev : RegisterForm.event) : bool :=
  match ev with RegisterForm.Settled _ => true | _ => false end.

Definition settlings (evs : list RegisterForm.event) : nat :=
  length (filter (fun ev => is_settled ev = true) evs).

(** A request is under way exactly while [submitting]. *)
Definition under_way (st : RegisterForm.state) : nat :=
  if RegisterForm.submitting st then 1 else 0.

End RegisterWords.

(** ** Sample data

    An engine, a build and a few values to run the components on. *)

Module Samples.

Definition decimal (n : N) : jsstring :=
  lit (NilZero.string_of_uint (N.to_uint n)).

(** Integers printed in decimal, strings read by [parseInt], and no
    upper-case mapping from 128 on. *)
Definition engine : Engine :=
  {| NumberToString := fun n =>
       match n with
       | NaN => lit "NaN"
       | Num s m => (if s && negb (m =? 0) then lit "-" else []) ++ decimal m
       end;
     StringToNumber := parseInt;
     toUpperCase_high := fun c => c |}.

(** No [VITE_API_BASE_URL] set: the API is at the default address. *)
Definition build : Build := {| VITE_API_BASE_URL := Undefined |}.

(** [{ upload_id, filename, url: '/uploads/' + filename }] *)
Definition upload (id : N) (filename : string) : value :=
  Object (<[lit "upload_id" := Number (Num false id)]>
          (<[lit "filename" := Str (lit filename)]>
           (<[lit "url" := Str (lit "/uploads/" ++ lit filename)]> ∅))).

Definition three_uploads : list value :=
  [upload 1 "a.jpg"; upload 2 "b.MP4"; upload 3 "c.webm"].

(** [{ media: [...] }] *)
Definition media_body (items : list value) : value :=
  Object (<[lit "media" := Array items]> ∅).

(** An administrator logs in on a fresh browser, is given the token
    'tok123', and creates an event. *)
Definition login_ok : outcome :=
  Resolved {| ok := true;
              json := Some (Object (<[lit "token" := Str (lit "tok123")]> ∅)) |}.

Definition admin_session : list Dashboard.action :=
  [Dashboard.TypeUsername (lit "admin");
   Dashboard.TypePassword (lit "secret");
   Dashboard.ClickEntrar;
   Dashboard.LoginSettled login_ok;
   Dashboard.TypeName (lit "Formatura");
   Dashboard.TypeExpiration (lit "0");
   Dashboard.ClickCriar].

End Samples.

(** * Properties *)

(** ** The slideshow's advance step *)

Section SlideshowFacts.
Context `{Engine} `{Build}.
Import Slideshow.

Lemma fetched_media (data : value) (items : list value) (st : state) :
  get data (lit "media") = Some (Array items) ->
  fetchMedia_settled (Resolved {| ok := true; json := Some data |}) st
  = setMedia (Array items) st.
Proof.
  intros Hm. unfold fetchMedia_settled, fetchMedia_try. simpl.
  rewrite Hm. reflexivity.
Qed.

(** The slide is built from the current item as a cell of the gallery
    is. *)
Lemma current_cell_item (items : list value) (st : state) (item : value) :
  media st = Array items ->
  items !! N.to_nat (current st) = Some item ->
  current_cell st = media_cell item.
Proof.
  intros Hm Hi. unfold current_cell, media_cell. rewrite Hm.
  cbn [get_index]. rewrite Hi. reflexivity.
Qed.

(** With the parameter given, no error and a list whose items can all be
    drawn, the slide of the current item is returned. *)
Lemma slide_returned (eventId : value) (items : list value)
    (cells : list element) (st : state) :
  truthy eventId = true ->
  truthy (error st) = false ->
  media st = Array items ->
  mapM media_cell items = Some cells ->
  current st < N.of_nat (length items) ->
  exists cell,
    cells !! N.to_nat (current st) = Some cell
    /\ App eventId st
       = Slide cell
           (NumberToString (Num false (current st + 1))
            ++ lit " / "
            ++ NumberToString (Num false (N.of_nat (length items)))).
Proof.
  intros Hev Herr Hm Hcells Hlt.
  assert (Hi : (N.to_nat (current st) < length items)%nat) by lia.
  apply lookup_lt_is_Some_2 in Hi as [item Hitem].
  apply mapM_Some in Hcells.
  destruct (Forall2_lookup_l _ _ _ _ _ Hcells Hitem)
    as (cell & Hcell & Hdraw).
  exists cell. split; [exact Hcell|].
  assert (Hcur : current_cell st = Some cell)
    by (rewrite (current_cell_item items st item Hm Hitem); exact Hdraw).
  assert (Hnz : strict_equal (Number (Num false (N.of_nat (length items))))
                  (Number (Num false 0)) = false).
  { simpl. destruct (N.of_nat (length items)); [lia|reflexivity]. }
  unfold App. rewrite Herr, Hev, Hm, Hcur.
  cbn [negb get_length ToString]. rewrite Hnz. reflexivity.
Qed.

Lemma tick_array (eventId : value) (items : list value)
    (cells : list element) (st : state) :
  truthy eventId = true ->
  truthy (error st) = false ->
  media st = Array items ->
  mapM media_cell items = Some cells ->
  current st < N.of_nat (length items) ->
  tick eventId st
  = setCurrent ((current st + 1) mod N.of_nat (length items)) st.
Proof.
  intros Hev Herr Hm Hcells Hi. unfold tick.
  destruct (slide_returned eventId items cells st Hev Herr Hm Hcells Hi)
    as (cell & _ & ->).
  cbn [draws]. unfold advance_timer. rewrite Hm. simpl.
  unfold greater_than. simpl.
  destruct (1 <? N.of_nat (length items)) eqn:Hn; simpl; [reflexivity|].
  apply N.ltb_ge in Hn.
  assert (N.of_nat (length items) = 1) as -> by lia.
  assert (current st = 0) as Hc by lia.
  rewrite Hc. destruct st; simpl in *; subst; reflexivity.
Qed.

Lemma ticks_error (eventId : value) (st : state) (k : nat) :
  error (Nat.iter k (tick eventId) st) = error st.
Proof.
  induction k as [|k IH]; [reflexivity|].
  rewrite Nat.iter_succ. unfold tick at 1.
  destruct (draws _); [|exact IH].
  destruct (advance_timer _); simpl; exact IH.
Qed.

Lemma ticks_array (eventId : value) (items : list value)
    (cells : list element) (st : state) (k : nat) :
  truthy eventId = true ->
  truthy (error st) = false ->
  media st = Array items ->
  mapM media_cell items = Some cells ->
  current st = 0 ->
  0 < N.of_nat (length items) ->
  media (Nat.iter k (tick eventId) st) = Array items
  /\ current (Nat.iter k (tick eventId) st)
     = N.of_nat k mod N.of_nat (length items).
Proof.
  intros Hev Herr Hm Hcells Hc Hn. induction k as [|k [IHm IHc]].
  - simpl. split; [assumption|]. rewrite Hc. symmetry.
    apply N.Div0.mod_0_l.
  - rewrite Nat.iter_succ, (tick_array eventId items cells);
      [|assumption|rewrite ticks_error; assumption|assumption|assumption|].
    + simpl. split; [assumption|]. rewrite IHc.
      rewrite N.Div0.add_mod_idemp_l. f_equal. lia.
    + rewrite IHc. apply N.mod_lt. lia.
Qed.

(** C6: for a fetched media list of length n >= 1 whose items can all be
    drawn, the interval set by the slideshow has a delay of 5000 ms and its
    step maps the index i to (i + 1) mod n; five seconds take every index
    below n to (i + 1) mod n (with one item no interval is set and the
    index stays 0, which is that value); so from the fetch on the index
    stays below n, is 0 again after n steps, and every item of the list
    comes to be the one on screen. *)
Theorem slideshow_advance (eventId data : value) (items : list value)
    (cells : list element) :
  let n := N.of_nat (length items) in
  let st0 :=
    fetchMedia_settled (Resolved {| ok := true; json := Some data |}) init in
  truthy eventId = true ->
  get data (lit "media") = Some (Array items) ->
  mapM media_cell items = Some cells ->
  1 <= n ->
  (forall t, advance_timer (media st0) = Some t ->
     delay t = 5000 /\ forall i, callback t i = (i + 1) mod n)
  /\ (1 < n -> is_Some (advance_timer (media st0)))
  /\ (forall i, i < n ->
        current (tick eventId (setCurrent i st0)) = (i + 1) mod n
        /\ media (tick eventId (setCurrent i st0)) = media st0)
  /\ (forall k, current (Nat.iter k (tick eventId) st0) < n)
  /\ current (Nat.iter (length items) (tick eventId) st0) = 0
  /\ (forall j item, items !! j = Some item ->
        exists k cell position,
          current (Nat.iter k (tick eventId) st0) = N.of_nat j
          /\ media_cell item = Some cell
          /\ App eventId (Nat.iter k (tick eventId) st0)
             = Slide cell position).
Proof.
  intros n st0 Hev Hdata Hcells Hn.
  assert (Hst0 : st0 = setMedia (Array items) init)
    by (apply fetched_media; assumption).
  assert (Hm0 : media st0 = Array items) by (rewrite Hst0; reflexivity).
  assert (Hc0 : current st0 = 0) by (rewrite Hst0; reflexivity).
  assert (He0 : truthy (error st0) = false) by (rewrite Hst0; reflexivity).
  assert (Hpos : 0 < N.of_nat (length items)) by (fold n; lia).
  split_and!.
  - intros t Ht. rewrite Hm0 in Ht. unfold advance_timer in Ht.
    simpl in Ht. destruct (greater_than _ _); [|discriminate].
    injection Ht as <-. split; reflexivity.
  - intros Hgt. rewrite Hm0. unfold advance_timer, greater_than. simpl.
    fold n. destruct (N.ltb_spec 1 n); [eauto|lia].
  - intros i Hi.
    rewrite (tick_array eventId items cells (setCurrent i st0));
      [split; reflexivity|assumption..].
  - intros k.
    destruct (ticks_array eventId items cells st0 k Hev He0 Hm0 Hcells
                Hc0 Hpos) as [_ ->].
    apply N.mod_lt. lia.
  - destruct (ticks_array eventId items cells st0 (length items) Hev He0
                Hm0 Hcells Hc0 Hpos) as [_ ->].
    apply N.Div0.mod_same.
  - intros j item Hj.
    destruct (ticks_array eventId items cells st0 j Hev He0 Hm0 Hcells
                Hc0 Hpos) as [Hm Hc].
    assert (Hlt : (j < length items)%nat) by (eapply lookup_lt_Some; eauto).
    assert (Hcj : current (Nat.iter j (tick eventId) st0) = N.of_nat j).
    { rewrite Hc. apply N.mod_small. lia. }
    assert (Herr : truthy (error (Nat.iter j (tick eventId) st0)) = false)
      by (rewrite ticks_error; exact He0).
    destruct (slide_returned eventId items cells _ Hev Herr Hm Hcells)
      as (cell & Hcell & Hview); [rewrite Hcj; lia|].
    rewrite Hcj, Nat2N.id in Hcell.
    pose proof Hcells as Hall. apply mapM_Some in Hall.
    destruct (Forall2_lookup_l _ _ _ _ _ Hall Hj) as (cell' & Hcell' & Hdraw).
    assert (cell' = cell) by congruence. subst cell'.
    exists j, cell. eexists. split_and!; [exact Hcj|exact Hdraw|exact Hview].
Qed.

End SlideshowFacts.

(** The three sample uploads go round: the interval is set, and after
    three steps the first is on screen again. *)
Lemma slideshow_advance_witness :
  let data := Samples.media_body Samples.three_uploads in
  let st0 :=
    Slideshow.fetchMedia_settled
      (Resolved {| ok := true; json := Some data |}) Slideshow.init in
  truthy (Str (lit "e1")) = true
  /\ get data (lit "media") = Some (Array Samples.three_uploads)
  /\ is_Some (mapM (@media_cell Samples.engine Samples.build)
                Samples.three_uploads)
  /\ 1 <= 3
  /\ Slideshow.current
       (Nat.iter 3 (@Slideshow.tick Samples.engine Samples.build
                      (Str (lit "e1"))) st0) = 0.
Proof.
  destruct (mapM (@media_cell Samples.engine Samples.build)
              Samples.three_uploads) as [cells|] eqn:Hcells;
    [|vm_compute in Hcells; discriminate].
  split; [reflexivity|]. split; [reflexivity|].
  split; [eexists; reflexivity|]. split; [lia|].
  apply (@slideshow_advance Samples.engine Samples.build (Str (lit "e1"))
           (Samples.media_body Samples.three_uploads) Samples.three_uploads
           cells);
    [reflexivity | reflexivity | exact Hcells | simpl; lia].
Defined.

(** ** The two video patterns *)

Section RegexFacts.
Context `{Engine}.

(** A pattern character below 128 that is no upper-case letter matches
    exactly the code units whose ASCII lower case it is. *)
Lemma Canonicalize_plain (x ch : N) :
  ch < 128 -> ascii_lower ch = ch ->
  (Canonicalize x =? Canonicalize ch) = (ascii_lower x =? ch).
Proof.
  unfold Canonicalize, ascii_upper, ascii_lower. intros Hch Hlow.
  repeat match goal with
         | |- context [N.ltb ?a ?b] => destruct (N.ltb_spec a b)
         | |- context [N.leb ?a ?b] => destruct (N.leb_spec a b)
         | H : context [N.leb ?a ?b] |- _ => destruct (N.leb_spec a b)
         end; simpl in *;
    try lia;
    match goal with
    | |- (?a =? ?b) = (?c =? ?d) =>
        destruct (N.eqb_spec a b); destruct (N.eqb_spec c d);
        try reflexivity; lia
    end.
Qed.

Lemma m_word (w x : jsstring) (c : jsstring -> bool) :
  plain w ->
  m (word w) x c = true
  <-> exists e rest, x = e ++ rest /\ map ascii_lower e = w /\ c rest = true.
Proof.
  intros Hw. revert x c. induction Hw as [|ch w [Hch Hlow] Hw IH]; intros x c.
  - simpl. split.
    + intros Hc. exists [], x. auto.
    + intros (e & rest & -> & He & Hc). destruct e; [assumption|discriminate].
  - simpl. destruct x as [|y x'].
    + split; [discriminate|]. intros (e & rest & He & Hmap & _).
      destruct e; [discriminate|discriminate].
    + rewrite Canonicalize_plain by assumption.
      destruct (N.eqb_spec (ascii_lower y) ch) as [Hy|Hy].
      * rewrite IH. split.
        -- intros (e & rest & -> & He & Hc). exists (y :: e), rest.
           simpl. rewrite Hy, He. auto.
        -- intros (e & rest & He & Hmap & Hc).
           destruct e as [|y' e]; [discriminate|].
           simpl in *. injection He as -> ->. injection Hmap as _ Hmap.
           eauto.
      * split; [discriminate|]. intros (e & rest & He & Hmap & _).
        destruct e as [|y' e]; [discriminate|].
        simpl in *. injection He as -> ->. injection Hmap as Hy' _.
        contradiction.
Qed.

(** A word followed by [$]: the whole remaining input is the word. *)
Lemma m_word_Eos (w x : jsstring) :
  plain w ->
  m (word w) x (fun y => m Eos y (fun _ => true)) = true
  <-> map ascii_lower x = w.
Proof.
  intros Hw. rewrite m_word by assumption. split.
  - intros (e & rest & -> & He & Hc). destruct rest; [|discriminate].
    rewrite app_nil_r. assumption.
  - intros Hx. exists x, []. rewrite app_nil_r. auto.
Qed.

Lemma search_spec (r : regex) (s : jsstring) :
  search r s = true
  <-> exists stem x, s = stem ++ x /\ m r x (fun _ => true) = true.
Proof.
  induction s as [|a s IH]; simpl.
  - rewrite orb_false_r. split.
    + intros Hm. exists [], []. auto.
    + intros (stem & x & Hs & Hm). symmetry in Hs.
      apply app_eq_nil in Hs as [-> ->]. assumption.
  - rewrite orb_true_iff, IH. split.
    + intros [Hm | (stem & x & -> & Hm)].
      * exists [], (a :: s). auto.
      * exists (a :: stem), x. auto.
    + intros (stem & x & Hs & Hm). destruct stem as [|b stem].
      * left. simpl in Hs. subst x. assumption.
      * right. simpl in Hs. injection Hs as -> ->. eauto.
Qed.

Lemma plain_mp4 : plain (lit ".mp4").
Proof. repeat constructor. Qed.
Lemma plain_mov : plain (lit ".mov").
Proof. repeat constructor. Qed.
Lemma plain_webm : plain (lit ".webm").
Proof. repeat constructor. Qed.

(** The gallery's pattern at one index. *)
Lemma m_gallery (x : jsstring) :
  m gallery_video_re x (fun _ => true) = true
  <-> map ascii_lower x = lit ".mp4"
      \/ map ascii_lower x = lit ".mov"
      \/ map ascii_lower x = lit ".webm".
Proof.
  unfold gallery_video_re.
  change (m (Alt ?a (Alt ?b ?c)) x ?k) with (m a x k || (m b x k || m c x k)).
  change (m (Seq ?a Eos) x ?k) with (m a x (fun y => m Eos y k)).
  rewrite !orb_true_iff.
  rewrite (m_word_Eos _ _ plain_mp4), (m_word_Eos _ _ plain_mov),
    (m_word_Eos _ _ plain_webm).
  reflexivity.
Qed.

(** A leading character factored out of a group of alternatives. *)
Lemma m_factor (d : N) (A B C : regex) (x : jsstring) (k : jsstring -> bool) :
  m (Seq (Seq (Chr d) (Group (Alt A (Alt B C)))) Eos) x k
  = m (Alt (Seq (Seq (Chr d) A) Eos)
           (Alt (Seq (Seq (Chr d) B) Eos) (Seq (Seq (Chr d) C) Eos))) x k.
Proof.
  destruct x as [|y x]; simpl; [reflexivity|].
  destruct (Canonicalize y =? Canonicalize d); reflexivity.
Qed.

(** The dashboard's pattern at one index: the same inputs. *)
Lemma m_dashboard (x : jsstring) :
  m dashboard_video_re x (fun _ => true)
  = m gallery_video_re x (fun _ => true).
Proof.
  exact (m_factor 46 (word (lit "mp4")) (word (lit "mov"))
           (word (lit "webm")) x (fun _ => true)).
Qed.

Lemma search_dashboard (s : jsstring) :
  search dashboard_video_re s = search gallery_video_re s.
Proof.
  induction s as [|a s IH].
  - change (search ?r []) with (m r [] (fun _ => true) || false).
    rewrite m_dashboard. reflexivity.
  - change (search ?r (a :: s))
      with (m r (a :: s) (fun _ => true) || search r s).
    rewrite m_dashboard, IH. reflexivity.
Qed.

Lemma search_video_name (name : jsstring) :
  search gallery_video_re name = true <-> video_name name.
Proof.
  rewrite search_spec. unfold video_name, ends_with_ci. split.
  - intros (stem & x & -> & Hm). apply m_gallery in Hm.
    destruct Hm as [Hx | [Hx | Hx]]; eauto 10.
  - intros [(stem & e & -> & He) | [(stem & e & -> & He)
                                   | (stem & e & -> & He)]];
      exists stem, e; split; try reflexivity; apply m_gallery; auto.
Qed.

End RegexFacts.

Section VideoFacts.
Context `{Engine} `{Build}.

(** The cell the gallery draws for an upload, by the dashboard's pattern. *)
Lemma media_cell_dashboard (u : value) (cell : element) :
  media_cell u = Some cell ->
  exists filename,
    get u (lit "filename") = Some filename
    /\ is_video cell = test dashboard_video_re filename.
Proof.
  unfold media_cell. intros Hcell.
  destruct (get u (lit "url")) as [url|]; [|discriminate]. simpl in Hcell.
  destruct (get u (lit "filename")) as [f|]; [|discriminate]. simpl in Hcell.
  destruct (get u (lit "upload_id")) as [i|]; [|discriminate].
  simpl in Hcell. injection Hcell as <-. exists f. split; [reflexivity|].
  unfold test. rewrite search_dashboard.
  destruct (search gallery_video_re _); reflexivity.
Qed.

Lemma count_uploads_cells (uploads : list value) (cells : list element)
    (photos videos : N) :
  mapM media_cell uploads = Some cells ->
  Dashboard.count_uploads uploads photos videos
  = Some (photos + N.of_nat (length (List.filter is_photo cells)),
          videos + N.of_nat (length (List.filter is_video cells))).
Proof.
  revert cells photos videos.
  induction uploads as [|u uploads IH]; intros cells photos videos Hcells.
  - injection Hcells as <-. simpl. rewrite !N.add_0_r. reflexivity.
  - simpl in Hcells.
    destruct (media_cell u) as [cell|] eqn:Hu; [|discriminate].
    simpl in Hcells.
    destruct (mapM media_cell uploads) as [cells'|]; [|discriminate].
    injection Hcells as <-.
    destruct (media_cell_dashboard u cell Hu) as (f & Hf & Hv).
    cbn [Dashboard.count_uploads]. rewrite Hf. simpl. rewrite <- Hv.
    unfold is_photo at 1. destruct (is_video cell); simpl.
    + rewrite (IH cells') by reflexivity. f_equal. f_equal. lia.
    + rewrite (IH cells') by reflexivity. f_equal. f_equal. lia.
Qed.

(** C8: the dashboard's pattern and the pattern of gallery and slideshow
    accept the same names, those that end in .mp4, .mov or .webm whatever
    the case of the letters; so an upload is counted as a video by the
    dashboard exactly when the gallery draws a video for it, and as a photo
    exactly when the gallery draws an image; over a whole list the two
    counts are the numbers of videos and images drawn; and the slideshow
    draws for the item on screen the cell the gallery draws for it. *)
Theorem video_patterns_agree :
  (forall v, test dashboard_video_re v = test gallery_video_re v)
  /\ (forall name,
        test dashboard_video_re (Str name) = true <-> video_name name)
  /\ (forall name,
        test gallery_video_re (Str name) = true <-> video_name name)
  /\ (forall u cell rest photos videos,
        media_cell u = Some cell ->
        Dashboard.count_uploads (u :: rest) photos videos
        = if is_video cell
          then Dashboard.count_uploads rest photos (videos + 1)
          else Dashboard.count_uploads rest (photos + 1) videos)
  /\ (forall uploads cells,
        mapM media_cell uploads = Some cells ->
        Dashboard.count_uploads uploads 0 0
        = Some (N.of_nat (length (List.filter is_photo cells)),
                N.of_nat (length (List.filter is_video cells))))
  /\ (forall st item,
        get_index (Slideshow.media st) (Slideshow.current st) = Some item ->
        Slideshow.current_cell st = media_cell item).
Proof.
  split_and!.
  - intros v. apply search_dashboard.
  - intros name. unfold test. simpl. rewrite search_dashboard.
    apply search_video_name.
  - intros name. apply search_video_name.
  - intros u cell rest photos videos Hu.
    destruct (media_cell_dashboard u cell Hu) as (f & Hf & Hv).
    cbn [Dashboard.count_uploads]. rewrite Hf. simpl. rewrite <- Hv.
    reflexivity.
  - intros uploads cells Hcells.
    apply (count_uploads_cells uploads cells 0 0 Hcells).
  - intros st item Hitem. unfold Slideshow.current_cell.
    rewrite Hitem. reflexivity.
Qed.

End VideoFacts.

(** Of the three sample uploads the dashboard counts one photo and two
    videos, as the gallery draws them. *)
Lemma video_patterns_agree_witness :
  (exists cells,
     mapM (@media_cell Samples.engine Samples.build) Samples.three_uploads
     = Some cells
     /\ map is_video cells = [false; true; true])
  /\ @Dashboard.count_uploads Samples.engine Samples.three_uploads 0 0
     = Some (1, 2).
Proof.
  split.
  - eexists. split; vm_compute; reflexivity.
  - destruct (@video_patterns_agree Samples.engine Samples.build)
      as (_ & _ & _ & _ & Hcount & _).
    rewrite (Hcount Samples.three_uploads _ eq_refl).
    vm_compute. reflexivity.
Defined.

(** ** The microsite's routing *)

Section RoutingFacts.

Lemma find_first (name : jsstring) (params : list (jsstring * jsstring)) :
  match List.find (fun p => bool_decide (fst p = name)) params with
  | Some p =>
      exists before after,
        params = before ++ (name, snd p) :: after
        /\ Forall (fun q => fst q <> name) before
  | None => Forall (fun q => fst q <> name) params
  end.
Proof.
  induction params as [|[k v] params IH]; simpl; [constructor|].
  case_bool_decide as Hk; simpl in Hk.
  - subst k. exists [], params. split; [reflexivity|constructor].
  - destruct (List.find _ params) as [p|].
    + destruct IH as (before & after & -> & Hb).
      exists ((k, v) :: before), after. split; [reflexivity|].
      constructor; assumption.
    + constructor; assumption.
Qed.

Lemma first_unique (name : jsstring) (b1 b2 a1 a2 : list (jsstring * jsstring))
    (v1 v2 : jsstring) :
  b1 ++ (name, v1) :: a1 = b2 ++ (name, v2) :: a2 ->
  Forall (fun q => fst q <> name) b1 ->
  Forall (fun q => fst q <> name) b2 ->
  v1 = v2.
Proof.
  revert b2. induction b1 as [|x b1 IH]; intros [|y b2] Heq H1 H2;
    simpl in Heq.
  - congruence.
  - injection Heq as <- _. inversion H2 as [|? ? Hy]. simpl in Hy. congruence.
  - injection Heq as -> _. inversion H1 as [|? ? Hx]. simpl in Hx. congruence.
  - injection Heq as _ Heq. inversion H1; inversion H2; subst. eauto.
Qed.

(** [getRegisterEvent]: the value of the first 'event' parameter, or
    [null] when there is none. *)
Lemma getRegisterEvent_spec (loc : Location) :
  (exists v, first_event loc v /\ getRegisterEvent loc = Str v)
  \/ (~ event_present loc /\ getRegisterEvent loc = Null).
Proof.
  unfold getRegisterEvent, URLSearchParams_get, first_event, event_present.
  pose proof (find_first (lit "event") (searchParams loc)) as Hf.
  destruct (List.find _ (searchParams loc)) as [p|].
  - left. exists (snd p). split; [exact Hf|reflexivity].
  - right. split; [|reflexivity]. intros (v & Hv).
    rewrite Forall_forall in Hf. apply (Hf _ Hv). reflexivity.
Qed.

Lemma filter_Boolean_segments (loc : Location) :
  filter_Boolean (split 47 (pathname loc)) = segments loc.
Proof. reflexivity. Qed.

Lemma segments_nonempty (loc : Location) (p : jsstring) :
  In p (segments loc) -> p <> [].
Proof.
  unfold segments. intros Hin. apply List.filter_In in Hin as [_ Hp].
  apply negb_true_iff in Hp. apply bool_decide_eq_false in Hp. exact Hp.
Qed.

(** [getGalleryToken]: the second non-empty segment when the first is
    'gallery', [null] otherwise. *)
Lemma getGalleryToken_spec (loc : Location) :
  (exists token, gallery_path loc token /\ token <> []
                 /\ getGalleryToken loc = Str token)
  \/ ((forall token, ~ gallery_path loc token) /\ getGalleryToken loc = Null).
Proof.
  unfold getGalleryToken, gallery_path.
  rewrite filter_Boolean_segments.
  pose proof (segments_nonempty loc) as Hne.
  destruct (segments loc) as [|p0 [|p1 rest]]; unfold index; simpl.
  - right. split; [|reflexivity]. intros token (rest & Hs). discriminate.
  - right. split.
    + intros token (rest & Hs). discriminate.
    + rewrite andb_false_r. reflexivity.
  - assert (Hp1 : p1 <> []) by (apply Hne; simpl; auto).
    case_bool_decide as Hp0; simpl.
    + case_bool_decide; [contradiction|]. simpl. left. exists p1.
      subst p0. eauto.
    + right. split; [|reflexivity].
      intros token (rest' & Hs). congruence.
Qed.

Lemma truthy_Str (s : jsstring) : truthy (Str s) = true <-> s <> [].
Proof.
  simpl. rewrite negb_true_iff, bool_decide_eq_false. reflexivity.
Qed.

(** C9, amended: the gallery is rendered exactly for a path whose first
    non-empty segment is 'gallery' and that has a second non-empty segment,
    which is the token; otherwise the registration is rendered exactly when
    the first 'event' parameter has a non-empty value, which is the event
    identifier; otherwise the landing page.  A gallery path takes
    precedence over any 'event' parameter. *)
Theorem routes_on_value (loc : Location) :
  (forall token,
     gallery_path loc token -> App loc = GalleryPage (Str token))
  /\ (forall v, App loc = GalleryPage v ->
        exists token, gallery_path loc token /\ v = Str token)
  /\ ((forall token, ~ gallery_path loc token) ->
      (forall eventId,
         App loc = RegisterPage eventId
         <-> exists v, first_event loc v /\ v <> [] /\ eventId = Str v)
      /\ (App loc = LandingPage
          <-> ~ exists v, first_event loc v /\ v <> [])).
Proof.
  unfold App.
  destruct (getGalleryToken_spec loc)
    as [(token & Hpath & Hne & ->) | (Hno & ->)].
  - apply truthy_Str in Hne as Ht. rewrite Ht. split_and!.
    + intros token' (rest' & Hs'). destruct Hpath as (rest & Hs).
      congruence.
    + intros v Hv. injection Hv as <-. eauto.
    + intros Hno. destruct (Hno token Hpath).
  - simpl. split_and!.
    + intros token Hpath. destruct (Hno token Hpath).
    + intros v Hv.
      destruct (truthy (getRegisterEvent loc)); discriminate.
    + intros _.
      destruct (getRegisterEvent_spec loc) as [(v & Hv & ->) | (Habs & ->)].
      * destruct (decide (v = [])) as [-> | Hvne].
        -- simpl. split.
           ++ intros eventId. split; [discriminate|].
              intros (v' & (b' & a' & He' & Hb') & Hne' & _).
              destruct Hv as (b & a & He & Hb).
              rewrite He in He'.
              pose proof (first_unique _ _ _ _ _ _ _ He' Hb Hb').
              congruence.
           ++ split; [|reflexivity]. intros _ (v' & Hv' & Hne').
              destruct Hv as (b & a & He & Hb).
              destruct Hv' as (b' & a' & He' & Hb').
              rewrite He in He'.
              pose proof (first_unique _ _ _ _ _ _ _ He' Hb Hb').
              congruence.
        -- apply truthy_Str in Hvne as Ht. rewrite Ht. split.
           ++ intros eventId. split.
              ** intros Heq. injection Heq as <-. eauto.
              ** intros (v' & Hv' & _ & ->).
                 destruct Hv as (b & a & He & Hb).
                 destruct Hv' as (b' & a' & He' & Hb').
                 rewrite He in He'.
                 pose proof (first_unique _ _ _ _ _ _ _ He' Hb Hb').
                 congruence.
           ++ split; [discriminate|]. intros Hn. destruct Hn. eauto.
      * simpl. split.
        -- intros eventId. split; [discriminate|].
           intros (v & (b & a & He & _) & _). destruct Habs.
           exists v. rewrite He. apply elem_of_app. right. left.
        -- split; [|reflexivity]. intros _ (v & (b & a & He & _) & _).
           destruct Habs. exists v. rewrite He. apply elem_of_app.
           right. left.
Qed.

(** With a gallery path and an 'event' parameter both there, the gallery
    is rendered. *)
Lemma routes_on_value_witness :
  let loc := {| pathname := lit "/gallery/abc";
                searchParams := [(lit "event", lit "e1")] |} in
  gallery_path loc (lit "abc")
  /\ App loc = GalleryPage (Str (lit "abc")).
Proof.
  assert (Hp : gallery_path
                 {| pathname := lit "/gallery/abc";
                    searchParams := [(lit "event", lit "e1")] |}
                 (lit "abc")) by (exists []; reflexivity).
  split; [exact Hp|].
  apply (routes_on_value
           {| pathname := lit "/gallery/abc";
              searchParams := [(lit "event", lit "e1")] |}).
  exact Hp.
Defined.

(** C9 as worded fails on [/?event=]: the parameter is present, and the
    landing page is rendered. *)
Lemma routes_on_presence_fails : ~ routes_on_presence.
Proof.
  intros Hclaim.
  destruct (Hclaim empty_event_location) as [_ Hreg].
  assert (Hno : forall token, ~ gallery_path empty_event_location token).
  { intros token (rest & Hs). vm_compute in Hs. discriminate. }
  destruct (Hreg Hno) as [_ [Hland _]].
  apply Hland.
  - reflexivity.
  - exists []. left.
Qed.

End RoutingFacts.

(** ** The gallery *)

Section GalleryFacts.
Context `{Engine} `{Build}.

(** [mapM] keeps the cells in the order of the items, one for one. *)
Lemma mapM_cells (items : list value) (cells : list element) :
  mapM media_cell items = Some cells ->
  length cells = length items
  /\ forall i item, items !! i = Some item ->
       exists cell, cells !! i = Some cell /\ media_cell item = Some cell.
Proof.
  intros Hm. apply mapM_Some in Hm. split.
  - symmetry. eapply Forall2_length; eauto.
  - intros i item Hi.
    destruct (Forall2_lookup_l _ _ _ _ _ Hm Hi) as (cell & Hc & Hcell).
    eauto.
Qed.

(** C1: after a successful response whose body holds an array under
    'media', the gallery's media list is that array and the grid has one
    cell for each item, in order; when the body holds nothing (or something
    falsy) under 'media' the media list is the empty list and the grid is
    empty; and when the body cannot be read the media list stays the empty
    list.  Nothing is added or dropped. *)
Theorem gallery_media_exact (res : response) :
  ok res = true ->
  let st := fetchMedia (Resolved res) gallery_init in
  (forall data items,
     json res = Some data ->
     get data (lit "media") = Some (Array items) ->
     st = {| media := Array items; loading := false; error := Str [] |}
     /\ Gallery st = match mapM media_cell items with
                     | Some cells => MediaGrid cells
                     | None => Crash
                     end
     /\ forall cells, mapM media_cell items = Some cells ->
          length cells = length items
          /\ forall i item, items !! i = Some item ->
               exists cell,
                 cells !! i = Some cell /\ media_cell item = Some cell)
  /\ (forall data v,
        json res = Some data ->
        get data (lit "media") = Some v ->
        truthy v = false ->
        st = {| media := Array []; loading := false; error := Str [] |}
        /\ Gallery st = MediaGrid [])
  /\ (json res ≫= (fun data => get data (lit "media")) = None ->
      media st = Array []).
Proof.
  intros Hok st. subst st. unfold fetchMedia, fetchMedia_try. simpl.
  split_and!.
  - intros data items -> Hm. simpl. rewrite Hok, Hm. simpl.
    split_and!; [reflexivity|reflexivity|apply mapM_cells].
  - intros data v -> Hm Hv. simpl. rewrite Hok, Hm. simpl.
    unfold or. rewrite Hv. split; reflexivity.
  - intros Hnone. destruct (json res) as [data|]; simpl in *.
    + rewrite Hok, Hnone. reflexivity.
    + reflexivity.
Qed.

(** C3, amended: when the fetch throws the gallery shows 'Erro de conexão';
    when the response is not OK and its body is JSON other than [null], it
    shows the value under 'error' as it is if that value is truthy (a
    string that is not empty) and 'Erro ao carregar galeria' otherwise; when
    the response is not OK and its body is not JSON, or is [null], it shows
    'Erro de conexão'.  In each of these cases the media list is left
    empty and no grid is rendered. *)
Theorem gallery_error_shown (o : outcome) :
  let st := fetchMedia o gallery_init in
  (o = Rejected -> Gallery st = ErrorText (Str Erro_de_conexao))
  /\ (forall res data e,
        o = Resolved res -> ok res = false ->
        json res = Some data -> get data (lit "error") = Some e ->
        Gallery st
        = ErrorText (if truthy e then e else Str Erro_ao_carregar_galeria))
  /\ (forall res,
        o = Resolved res -> ok res = false ->
        json res ≫= (fun data => get data (lit "error")) = None ->
        Gallery st = ErrorText (Str Erro_de_conexao))
  /\ ((o = Rejected \/ exists res, o = Resolved res /\ ok res = false) ->
      media st = Array []
      /\ exists text, Gallery st = ErrorText text).
Proof.
  intros st. subst st. unfold fetchMedia, fetchMedia_try. split_and!.
  - intros ->. reflexivity.
  - intros res data e -> Hok Hj He. simpl. rewrite Hj. simpl.
    rewrite Hok, He. simpl. unfold Gallery, or. simpl.
    destruct (truthy e) eqn:Hte; simpl; [rewrite Hte|]; reflexivity.
  - intros res -> Hok Hnone. simpl.
    destruct (json res) as [data|]; simpl in *.
    + rewrite Hok, Hnone. reflexivity.
    + reflexivity.
  - intros [-> | (res & -> & Hok)]; simpl.
    + split; [reflexivity|]. eexists. reflexivity.
    + destruct (json res) as [data|]; simpl.
      * rewrite Hok. destruct (get data (lit "error")) as [e|]; simpl.
        -- split; [reflexivity|]. unfold Gallery, or. simpl.
           destruct (truthy e) eqn:Hte; simpl; [rewrite Hte|];
             eexists; reflexivity.
        -- split; [reflexivity|]. eexists. reflexivity.
      * split; [reflexivity|]. eexists. reflexivity.
Qed.

End GalleryFacts.

(** The three sample uploads come back and are drawn, three cells. *)
Lemma gallery_media_exact_witness :
  let res := {| ok := true;
                json := Some (Samples.media_body Samples.three_uploads) |} in
  ok res = true
  /\ media (fetchMedia (Resolved res) gallery_init)
     = Array Samples.three_uploads
  /\ exists cells,
       @Gallery Samples.engine Samples.build
         (fetchMedia (Resolved res) gallery_init) = MediaGrid cells
       /\ length cells = 3%nat.
Proof.
  destruct (@gallery_media_exact Samples.engine Samples.build
              {| ok := true;
                 json := Some (Samples.media_body Samples.three_uploads) |}
              eq_refl) as (Harr & _ & _).
  destruct (Harr (Samples.media_body Samples.three_uploads)
              Samples.three_uploads eq_refl eq_refl) as (Hst & Hview & _).
  split; [reflexivity|]. split; [rewrite Hst; reflexivity|].
  rewrite Hview. eexists. split; vm_compute; reflexivity.
Defined.

(** A 404 with [{ "error": "Galeria não encontrada" }] shows that text. *)
Lemma gallery_error_shown_witness :
  let e := Str (lit "Galeria n" ++ [227] ++ lit "o encontrada") in
  let data := Object (<[lit "error" := e]> ∅) in
  let res := {| ok := false; json := Some data |} in
  ok res = false
  /\ @Gallery Samples.engine Samples.build
       (fetchMedia (Resolved res) gallery_init) = ErrorText e.
Proof.
  split; [reflexivity|].
  destruct (@gallery_error_shown Samples.engine Samples.build
              (Resolved
                 {| ok := false;
                    json := Some
                      (Object (<[lit "error" :=
                                 Str (lit "Galeria n" ++ [227]
                                      ++ lit "o encontrada")]> ∅)) |}))
    as (_ & Hshown & _).
  exact (Hshown _ _ _ eq_refl eq_refl eq_refl eq_refl).
Defined.

(** C3 as worded fails on a response that is not OK and whose body is not
    JSON: [res.json()] throws inside the [try], and the gallery shows 'Erro
    de conexão', not 'Erro ao carregar galeria'. *)
Lemma error_shown_as_worded_fails : ~ error_shown_as_worded.
Proof.
  intros Hclaim.
  specialize (Hclaim Samples.engine Samples.build
                (Resolved not_json_response) eq_refl).
  vm_compute in Hclaim. discriminate.
Qed.

(** Nor does it hold for [{ "error": "" }]: the empty string is there, and
    'Erro ao carregar galeria' is shown. *)
Lemma empty_error_not_verbatim :
  response_error empty_error_response = Some []
  /\ @Gallery_settled Samples.engine Samples.build
       (Resolved empty_error_response)
     = ErrorText (Str Erro_ao_carregar_galeria).
Proof. split; vm_compute; reflexivity. Qed.

(** ** Registration in the microsite *)

Section RegisterFacts.
Context `{Engine} `{Build}.
Variable eventId : value.
Import RegisterSteps (steps_inv).

(** *** The single form *)

(** What one event on the form sends: nothing, or one registration with
    the phone typed in, which is not empty, and the file chosen. *)
Lemma form_step_sends (st : RegisterForm.state) (ev : RegisterForm.event)
    (r : request) :
  r ∈ snd (RegisterForm.step eventId st ev) ->
  ev = RegisterForm.ClickEnviar
  /\ RegisterForm.phone st <> []
  /\ exists f, RegisterForm.selfie st = Some f
       /\ registration (api (lit "/register")) (ToString eventId)
            (RegisterForm.phone st) f r.
Proof.
  destruct ev; simpl; try (intros Hr; inversion Hr; fail).
  - destruct (RegisterForm.submitting st); simpl;
      [intros Hr; inversion Hr|].
    unfold RegisterForm.required_filled.
    case_bool_decide as Hp; simpl; [intros Hr; inversion Hr|].
    case_bool_decide as Hf; simpl; [intros Hr; inversion Hr|].
    unfold RegisterForm.handleSubmit.
    destruct (RegisterForm.selfie st) as [f|]; simpl;
      [|intros Hr; inversion Hr].
    intros Hr. apply list_elem_of_singleton in Hr. subst r.
    split_and!; try done. exists f. split; [reflexivity|].
    repeat split.
  - destruct (RegisterForm.submitting st); simpl; intros Hr; inversion Hr.
Qed.

Lemma form_run_sends (evs : list RegisterForm.event) (st : RegisterForm.state)
    (r : request) :
  r ∈ snd (RegisterForm.run eventId st evs) ->
  exists phone f,
    phone <> []
    /\ registration (api (lit "/register")) (ToString eventId) phone f r.
Proof.
  revert st. induction evs as [|ev evs IH]; intros st; simpl.
  - intros Hr. inversion Hr.
  - destruct (RegisterForm.step eventId st ev) as [st1 sent1] eqn:Hstep.
    destruct (RegisterForm.run eventId st1 evs) as [st2 sent2] eqn:Hrun.
    simpl. intros Hr. apply elem_of_app in Hr as [Hr | Hr].
    + assert (Hr' : r ∈ snd (RegisterForm.step eventId st ev))
        by (rewrite Hstep; exact Hr).
      apply form_step_sends in Hr' as (_ & Hp & f & _ & Hreg). eauto.
    + apply (IH st1). rewrite Hrun. exact Hr.
Qed.

(** *** The flow in steps *)

Lemma fetchEvent_settled_keeps (o : outcome) (st : RegisterSteps.state) :
  let st' := RegisterSteps.fetchEvent_settled o st in
  RegisterSteps.step st' = RegisterSteps.step st
  /\ RegisterSteps.phone st' = RegisterSteps.phone st
  /\ RegisterSteps.submitting st' = RegisterSteps.submitting st.
Proof.
  unfold RegisterSteps.fetchEvent_settled, RegisterSteps.fetchEvent_try.
  destruct o as [|res]; simpl; [auto|].
  destruct (json res) as [data|]; simpl; [|auto].
  destruct (ok res); simpl; [auto|].
  destruct (get data (lit "error")); simpl; auto.
Qed.

Lemma startCamera_keeps (granted : bool) (st : RegisterSteps.state) :
  let st' := RegisterSteps.startCamera granted st in
  RegisterSteps.step st' = RegisterSteps.step st
  /\ RegisterSteps.phone st' = RegisterSteps.phone st
  /\ RegisterSteps.submitting st' = RegisterSteps.submitting st.
Proof. destruct granted; simpl; auto. Qed.

Lemma steps_inv_init : steps_inv RegisterSteps.init.
Proof. split; simpl; [congruence|discriminate]. Qed.

Lemma handleCapture_settled_keeps (o : outcome) (st : RegisterSteps.state) :
  let st' := RegisterSteps.handleCapture_settled o st in
  RegisterSteps.step st' = RegisterSteps.done_step
  /\ RegisterSteps.phone st' = RegisterSteps.phone st
  /\ RegisterSteps.submitting st' = false.
Proof.
  unfold RegisterSteps.handleCapture_settled, RegisterSteps.handleCapture_try.
  destruct o as [|res]; simpl; [auto|].
  destruct (json res) as [data|]; simpl; [|auto].
  destruct (ok res); simpl.
  - destruct (get data (lit "message")); simpl; auto.
  - destruct (get data (lit "error")); simpl; auto.
Qed.

Lemma steps_on_inv (st : RegisterSteps.state) (ev : RegisterSteps.event) :
  steps_inv st -> steps_inv (fst (RegisterSteps.on eventId st ev)).
Proof.
  unfold steps_inv, RegisterSteps.on. intros [Hphone Hsub].
  destruct ev as [o|s|granted|granted|blob|o];
    destruct (RegisterSteps.step st) eqn:Hs; cbn [fst];
    try (split; [rewrite ?Hs; exact Hphone | rewrite ?Hs; exact Hsub]).
  all: try (destruct (RegisterSteps.loadingEvent st); cbn [fst];
            [destruct (fetchEvent_settled_keeps o st) as (E1 & E2 & E3);
             rewrite E1, E2, E3, Hs; split; assumption
            |rewrite Hs; split; assumption]).
  all: try (destruct (RegisterSteps.submitting st) eqn:Hb; cbn [fst];
            [destruct (handleCapture_settled_keeps o st) as (E1 & E2 & E3);
             rewrite E1, E2, E3; split; [intros _|discriminate];
             apply Hphone; specialize (Hsub eq_refl); congruence
            |rewrite Hs, ?Hb; split; assumption]).
  - simpl. rewrite Hs. split; [congruence|].
    intros Hb. specialize (Hsub Hb). discriminate.
  - case_bool_decide as Hp; cbn [fst]; [rewrite Hs; split; assumption|].
    unfold RegisterSteps.handlePhoneSubmit.
    assert (Ht : truthy (Str (RegisterSteps.phone st)) = true).
    { simpl. apply negb_true_iff, bool_decide_eq_false. exact Hp. }
    rewrite Ht. cbn [negb].
    destruct (startCamera_keeps granted
                (RegisterSteps.setStep RegisterSteps.camera_step st))
      as (E1 & E2 & E3).
    rewrite E1, E2, E3. simpl. split; [intros _; exact Hp|reflexivity].
  - unfold RegisterSteps.handleToggleCamera.
    match goal with
    | |- context [RegisterSteps.startCamera ?g ?s] =>
        destruct (startCamera_keeps g s) as (E1 & E2 & E3)
    end.
    rewrite E1, E2, E3. simpl. rewrite Hs. split; assumption.
  - destruct (RegisterSteps.submitting st) eqn:Hb; cbn [fst];
      [rewrite Hs, Hb; split; assumption|].
    unfold RegisterSteps.handleCapture, RegisterSteps.videoRef_current.
    rewrite Hs. cbn [negb]. destruct blob; simpl; rewrite Hs;
      split; auto.
Qed.

(** What one event in the flow sends: nothing, or one registration, in
    the camera step, with the phone of the phone step and the captured
    frame as 'selfie.jpg'. *)
Lemma steps_on_sends (st : RegisterSteps.state) (ev : RegisterSteps.event)
    (r : request) :
  r ∈ snd (RegisterSteps.on eventId st ev) ->
  RegisterSteps.step st = RegisterSteps.camera_step
  /\ exists blob,
       ev = RegisterSteps.ClickCapturar (Some blob)
       /\ registration (api (lit "/register")) (ToString eventId)
            (RegisterSteps.phone st)
            (new_File blob (lit "selfie.jpg") (lit "image/jpeg")) r.
Proof.
  unfold RegisterSteps.on.
  destruct ev as [o|s|granted|granted|blob|o];
    destruct (RegisterSteps.step st) eqn:Hs; simpl;
    try (intros Hr; inversion Hr; fail);
    try (destruct (RegisterSteps.loadingEvent st); simpl;
         intros Hr; inversion Hr; fail);
    try (destruct (RegisterSteps.submitting st); simpl;
         intros Hr; inversion Hr; fail);
    try (case_bool_decide; simpl; intros Hr; inversion Hr; fail).
  destruct (RegisterSteps.submitting st); simpl;
    [intros Hr; inversion Hr|].
  unfold RegisterSteps.handleCapture, RegisterSteps.videoRef_current.
  rewrite Hs. simpl. destruct blob as [b|]; simpl;
    [|intros Hr; inversion Hr].
  intros Hr. apply list_elem_of_singleton in Hr. subst r.
  split; [reflexivity|]. exists b. split; [reflexivity|]. repeat split.
Qed.

Lemma steps_run_sends (evs : list RegisterSteps.event)
    (st : RegisterSteps.state) (r : request) :
  steps_inv st ->
  r ∈ snd (RegisterSteps.run eventId st evs) ->
  exists phone blob,
    phone <> []
    /\ registration (api (lit "/register")) (ToString eventId) phone
         (new_File blob (lit "selfie.jpg") (lit "image/jpeg")) r.
Proof.
  revert st. induction evs as [|ev evs IH]; intros st Hinv; simpl.
  - intros Hr. inversion Hr.
  - pose proof (steps_on_inv st ev Hinv) as Hinv1.
    pose proof (steps_on_sends st ev r) as Hsends.
    destruct (RegisterSteps.on eventId st ev) as [st1 sent1].
    destruct (RegisterSteps.run eventId st1 evs) as [st2 sent2] eqn:Hrun.
    simpl in *. intros Hr. apply elem_of_app in Hr as [Hr | Hr].
    + destruct (Hsends Hr) as (Hcam & blob & _ & Hreg).
      exists (RegisterSteps.phone st), blob. split; [|exact Hreg].
      apply Hinv. congruence.
    + apply (IH st1 Hinv1). rewrite Hrun. exact Hr.
Qed.

Lemma steps_run_inv (evs : list RegisterSteps.event)
    (st : RegisterSteps.state) :
  steps_inv st -> steps_inv (fst (RegisterSteps.run eventId st evs)).
Proof.
  revert st. induction evs as [|ev evs IH]; intros st Hinv; simpl.
  - exact Hinv.
  - pose proof (steps_on_inv st ev Hinv) as Hinv1.
    destruct (RegisterSteps.on eventId st ev) as [st1 sent1].
    specialize (IH st1 Hinv1).
    destruct (RegisterSteps.run eventId st1 evs) as [st2 sent2].
    exact IH.
Qed.

End RegisterFacts.

Section RegisterClaims.
Context `{Engine} `{Build}.

(** C4: with a required input missing no request goes to /register.  In
    the single form, [handleSubmit] without a selfie sets the message 'Por
    favor, selecione uma selfie.', which is then shown, and returns without
    a request; a click with no phone or no selfie sends nothing; and every
    request of a run was sent with a phone and a selfie.  In the flow in
    steps, [handlePhoneSubmit] with an empty phone changes nothing, so the
    step stays the phone step and nothing is sent; a capture that yields no
    image sends nothing; in every run the flow is past the phone step only
    with a phone typed in; and every request of a run was sent with a phone
    and a captured selfie. *)
Theorem no_request_without_input (eventId : value) :
  (forall st,
     RegisterForm.selfie st = None ->
     RegisterForm.handleSubmit eventId st
     = (RegisterForm.setMessage (Str RegisterForm.Por_favor_selecione) st, [])
     /\ RegisterForm.shown_message
          (fst (RegisterForm.handleSubmit eventId st))
        = Some (Str RegisterForm.Por_favor_selecione))
  /\ (forall st,
        RegisterForm.phone st = [] \/ RegisterForm.selfie st = None ->
        snd (RegisterForm.step eventId st RegisterForm.ClickEnviar) = [])
  /\ (forall evs r,
        r ∈ snd (RegisterForm.run eventId RegisterForm.init evs) ->
        exists phone f,
          phone <> []
          /\ registration (api (lit "/register")) (ToString eventId)
               phone f r)
  /\ (forall granted st,
        RegisterSteps.phone st = [] ->
        RegisterSteps.handlePhoneSubmit granted st = st
        /\ RegisterSteps.on eventId st (RegisterSteps.ClickContinuar granted)
           = (st, []))
  /\ (forall st,
        snd (RegisterSteps.on eventId st (RegisterSteps.ClickCapturar None))
        = [])
  /\ (forall evs,
        let st := fst (RegisterSteps.run eventId RegisterSteps.init evs) in
        RegisterSteps.step st <> RegisterSteps.phone_step ->
        RegisterSteps.phone st <> [])
  /\ (forall evs r,
        r ∈ snd (RegisterSteps.run eventId RegisterSteps.init evs) ->
        exists phone blob,
          phone <> []
          /\ registration (api (lit "/register")) (ToString eventId) phone
               (new_File blob (lit "selfie.jpg") (lit "image/jpeg")) r).
Proof.
  split_and!.
  - intros st Hs. unfold RegisterForm.handleSubmit. rewrite Hs.
    split; reflexivity.
  - intros st Hmissing. simpl.
    destruct (RegisterForm.submitting st); [reflexivity|].
    unfold RegisterForm.required_filled, RegisterForm.handleSubmit.
    destruct Hmissing as [Hp | Hs].
    + rewrite Hp. reflexivity.
    + rewrite Hs. destruct (_ && _); reflexivity.
  - intros evs r. apply form_run_sends.
  - intros granted st Hp. unfold RegisterSteps.on,
      RegisterSteps.handlePhoneSubmit. rewrite Hp. simpl.
    split; [reflexivity|]. destruct (RegisterSteps.step st); reflexivity.
  - intros st. unfold RegisterSteps.on.
    destruct (RegisterSteps.step st) eqn:Hs; try reflexivity.
    destruct (RegisterSteps.submitting st); [reflexivity|].
    unfold RegisterSteps.handleCapture, RegisterSteps.videoRef_current.
    rewrite Hs. reflexivity.
  - intros evs.
    apply (steps_run_inv eventId evs RegisterSteps.init steps_inv_init).
  - intros evs r.
    apply (steps_run_sends eventId evs RegisterSteps.init r steps_inv_init).
Qed.

(** C5: on a page that renders the registration, the event identifier is
    the value of the page's first 'event' parameter, and every request
    either version of the component sends after mounting is a POST to
    [`${API_BASE}/register`] whose form holds exactly event_id, phone and
    selfie: that event identifier, the phone as it stands in the form's
    input, and the chosen file (single form) or the captured frame as
    'selfie.jpg' (flow in steps); typing into the phone input is what sets
    that phone.  The one request sent on mounting, by the flow in steps, is
    the GET that fetches the event. *)
Theorem registration_request_shape (loc : Location) (eventId : value) :
  App loc = RegisterPage eventId ->
  exists v,
    first_event loc v /\ eventId = Str v
    /\ (forall st ev r,
          r ∈ snd (RegisterForm.step eventId st ev) ->
          exists f,
            RegisterForm.selfie st = Some f
            /\ registration (api (lit "/register")) v
                 (RegisterForm.phone st) f r)
    /\ (forall st ev r,
          r ∈ snd (RegisterSteps.on eventId st ev) ->
          exists blob,
            ev = RegisterSteps.ClickCapturar (Some blob)
            /\ registration (api (lit "/register")) v
                 (RegisterSteps.phone st)
                 (new_File blob (lit "selfie.jpg") (lit "image/jpeg")) r)
    /\ (forall st s,
          RegisterForm.phone
            (fst (RegisterForm.step eventId st (RegisterForm.TypePhone s)))
          = s)
    /\ (forall st s,
          RegisterSteps.step st = RegisterSteps.phone_step ->
          RegisterSteps.phone
            (fst (RegisterSteps.on eventId st (RegisterSteps.TypePhone s)))
          = s)
    /\ RegisterSteps.mount eventId
       = (RegisterSteps.init, [fetch_get (api (lit "/public/events/" ++ v))]).
Proof.
  unfold App. destruct (truthy (getGalleryToken loc)); [discriminate|].
  destruct (truthy (getRegisterEvent loc)) eqn:Ht; [|discriminate].
  intros Heq. injection Heq as <-.
  destruct (getRegisterEvent_spec loc) as [(v & Hv & Hg) | (_ & Hg)];
    rewrite Hg in *; [|discriminate].
  exists v. split_and!; try done.
  - intros st ev r Hr.
    apply form_step_sends in Hr as (_ & _ & f & Hf & Hreg). eauto.
  - intros st ev r Hr.
    apply steps_on_sends in Hr as (_ & blob & Hev & Hreg). eauto.
  - intros st s Hs. unfold RegisterSteps.on. rewrite Hs. reflexivity.
Qed.

End RegisterClaims.

(** A visitor chooses a selfie and clicks without typing a phone: nothing
    is sent. *)
Lemma no_request_without_input_witness :
  let f := {| file_name := lit "me.jpg"; file_type := lit "image/jpeg";
              file_bits := [255; 216; 255] |} in
  let st := RegisterForm.chooseFiles [f] RegisterForm.init in
  (RegisterForm.phone st = [] \/ RegisterForm.selfie st = None)
  /\ snd (@RegisterForm.step Samples.engine Samples.build (Str (lit "e1")) st
            RegisterForm.ClickEnviar) = [].
Proof.
  assert (Hmissing :
    RegisterForm.phone
      (RegisterForm.chooseFiles
         [{| file_name := lit "me.jpg"; file_type := lit "image/jpeg";
             file_bits := [255; 216; 255] |}] RegisterForm.init) = []
    \/ RegisterForm.selfie
         (RegisterForm.chooseFiles
            [{| file_name := lit "me.jpg"; file_type := lit "image/jpeg";
                file_bits := [255; 216; 255] |}] RegisterForm.init) = None)
    by (left; reflexivity).
  split; [exact Hmissing|].
  destruct (@no_request_without_input Samples.engine Samples.build
              (Str (lit "e1"))) as (_ & Hclick & _).
  exact (Hclick _ Hmissing).
Defined.

(** On [/register?event=e1] a visitor types a phone, goes on to the
    camera and captures a frame: one request is sent, with the three
    fields. *)
Lemma registration_request_shape_witness :
  let loc := {| pathname := lit "/register";
                searchParams := [(lit "event", lit "e1")] |} in
  let blob := {| blob_type := lit "image/jpeg"; blob_bits := [255; 216] |} in
  let evs := [RegisterSteps.TypePhone (lit "11999990000");
              RegisterSteps.ClickContinuar true] in
  let st := fst (@RegisterSteps.run Samples.engine Samples.build
                   (Str (lit "e1")) RegisterSteps.init evs) in
  App loc = RegisterPage (Str (lit "e1"))
  /\ exists r,
       snd (@RegisterSteps.on Samples.engine Samples.build (Str (lit "e1")) st
              (RegisterSteps.ClickCapturar (Some blob))) = [r]
       /\ registration (lit "http://localhost:5000/api/register")
            (lit "e1") (lit "11999990000")
            (new_File blob (lit "selfie.jpg") (lit "image/jpeg")) r.
Proof.
  split; [reflexivity|].
  destruct (@registration_request_shape Samples.engine Samples.build
              {| pathname := lit "/register";
                 searchParams := [(lit "event", lit "e1")] |}
              (Str (lit "e1")) eq_refl)
    as (v & _ & Hv & _ & Hsteps & _).
  injection Hv as <-.
  eexists. split; [vm_compute; reflexivity|].
  match goal with
  | |- registration _ _ _ _ ?r =>
      destruct (Hsteps
                  (fst (@RegisterSteps.run Samples.engine Samples.build
                          (Str (lit "e1")) RegisterSteps.init
                          [RegisterSteps.TypePhone (lit "11999990000");
                           RegisterSteps.ClickContinuar true]))
                  (RegisterSteps.ClickCapturar
                     (Some {| blob_type := lit "image/jpeg";
                              blob_bits := [255; 216] |}))
                  r) as (blob & Hev & Hreg)
  end.
  - vm_compute. left.
  - injection Hev as <-. exact Hreg.
Defined.

(** ** The dashboard *)

Section DashboardFacts.
Context `{Engine} `{Build}.
Import Dashboard.

Lemma on_events_screen (w : world) :
  on_screen w = events_screen -> truthy (token w) = true.
Proof.
  unfold on_screen. destruct (truthy (token w)); [reflexivity|discriminate].
Qed.

Lemma on_analytics_screen (w : world) :
  on_screen w = analytics_screen -> truthy (token w) = true.
Proof.
  unfold on_screen. destruct (truthy (token w)); [reflexivity|discriminate].
Qed.

(** A settled login either stores the returned token and makes it the
    state's, or leaves token, storage and form as they are and sends
    nothing. *)
Lemma handleLogin_settled_cases (o : outcome) (w : world) :
  (exists res data tok,
     o = Resolved res /\ ok res = true /\ json res = Some data
     /\ get data (lit "token") = Some tok
     /\ token (fst (handleLogin_settled o w)) = tok
     /\ localStorage (fst (handleLogin_settled o w))
        = <[tp_token := ToString tok]> (localStorage w)
     /\ newEvent (fst (handleLogin_settled o w)) = newEvent w
     /\ (snd (handleLogin_settled o w) = []
         \/ truthy tok = true
            /\ snd (handleLogin_settled o w) = [fetchEvents_request tok]))
  \/ (token (fst (handleLogin_settled o w)) = token w
      /\ localStorage (fst (handleLogin_settled o w)) = localStorage w
      /\ newEvent (fst (handleLogin_settled o w)) = newEvent w
      /\ snd (handleLogin_settled o w) = []).
Proof.
  unfold handleLogin_settled, handleLogin_try.
  destruct o as [|res]; simpl; [right; auto|].
  destruct (json res) as [data|] eqn:Hj; simpl; [|right; auto].
  destruct (ok res) eqn:Hok; simpl.
  - destruct (get data (lit "token")) as [tok|] eqn:Ht; simpl;
      [|right; auto].
    left. exists res, data, tok. split_and!; try done.
    destruct (Object_is (token w) tok); [left; reflexivity|].
    unfold token_effect. simpl.
    destruct (truthy tok); [right; auto|left; reflexivity].
  - destruct (get data (lit "error")); simpl; right; auto.
Qed.

Lemma fetchEvents_settled_keeps (o : outcome) (w : world) :
  token (fetchEvents_settled o w) = token w
  /\ localStorage (fetchEvents_settled o w) = localStorage w
  /\ newEvent (fetchEvents_settled o w) = newEvent w.
Proof.
  unfold fetchEvents_settled. destruct o as [|res]; simpl; [auto|].
  destruct (ok res); simpl; [|auto]. destruct (json res); auto.
Qed.

Lemma handleCreateEvent_settled_keeps (o : outcome) (w : world) :
  token (handleCreateEvent_settled o w) = token w
  /\ localStorage (handleCreateEvent_settled o w) = localStorage w
  /\ (newEvent (handleCreateEvent_settled o w) = newEvent w
      \/ newEvent (handleCreateEvent_settled o w) = blank_event).
Proof.
  unfold handleCreateEvent_settled, handleCreateEvent_try.
  destruct o as [|res]; simpl; [auto|].
  destruct (json res) as [data|]; simpl; [|auto].
  destruct (ok res); simpl; [auto|].
  destruct (get data (lit "error")); simpl; auto.
Qed.

Lemma loadAnalytics_keeps (eventId : value) (o1 o2 : outcome) (w : world) :
  let w' := fst (loadAnalytics eventId o1 o2 w) in
  token w' = token w /\ localStorage w' = localStorage w
  /\ newEvent w' = newEvent w.
Proof.
  unfold loadAnalytics. destruct (awaited o1 ≫= json); simpl; auto.
Qed.

(** What a step does to the token and to the storage: nothing, a fresh
    mount from the storage, a logout, or a login that stores the token
    returned. *)
Lemma step_token (w : world) (a : action) :
  let w' := fst (step w a) in
  (token w' = token w /\ localStorage w' = localStorage w)
  \/ (token w' = getItem tp_token (localStorage w)
      /\ localStorage w' = localStorage w)
  \/ (token w' = Null
      /\ localStorage w' = delete tp_token (localStorage w))
  \/ (exists res data tok,
        a = LoginSettled (Resolved res) /\ ok res = true
        /\ json res = Some data /\ get data (lit "token") = Some tok
        /\ token w' = tok
        /\ localStorage w' = <[tp_token := ToString tok]> (localStorage w)).
Proof.
  unfold step. destruct a.
  - right; left. destruct (on_screen w); split; reflexivity.
  - left. destruct (on_screen w); split; reflexivity.
  - left. destruct (on_screen w); split; reflexivity.
  - left. destruct (on_screen w); split; reflexivity.
  - assert (Hcases := handleLogin_settled_cases o w).
    destruct (on_screen w); cbn [fst];
      (destruct Hcases
         as [(res & data & tok & -> & ? & ? & ? & ? & ? & _) | (? & ? & _)];
       [right; right; right; exists res, data, tok; auto 10 | left; auto]).
  - destruct (fetchEvents_settled_keeps o w) as (? & ? & _).
    left. destruct (on_screen w); auto.
  - left. destruct (on_screen w); split; reflexivity.
  - left. destruct (on_screen w); split; reflexivity.
  - left. destruct (on_screen w); split; reflexivity.
  - left. destruct (on_screen w); split; reflexivity.
  - left. destruct (on_screen w); split; reflexivity.
  - destruct (handleCreateEvent_settled_keeps o w) as (? & ? & _).
    left. destruct (on_screen w); auto.
  - destruct (loadAnalytics_keeps eventId o1 o2 w) as (? & ? & _).
    left. destruct (on_screen w); auto.
  - left. destruct (on_screen w); try (split; reflexivity).
    destruct (analytics w); split; reflexivity.
  - destruct (on_screen w).
    + left. split; reflexivity.
    + right; right; left. split; reflexivity.
    + destruct (analytics w);
        [right; right; left | left]; split; reflexivity.
Qed.

Lemma step_token_stored (w : world) (a : action) :
  token_stored w -> token_stored (fst (step w a)).
Proof.
  unfold token_stored. intros Hinv.
  destruct (step_token w a)
    as [(-> & ->) | [(-> & ->) | [(-> & ->)
       | (res & data & tok & _ & _ & _ & _ & -> & ->)]]].
  - exact Hinv.
  - unfold getItem. destruct (localStorage w !! tp_token); [|discriminate].
    reflexivity.
  - discriminate.
  - intros _. apply lookup_insert_eq.
Qed.

Lemma step_stored_from (ls0 : gmap jsstring jsstring) (pre : list action)
    (w : world) (a : action) :
  stored_from ls0 pre w -> stored_from ls0 (pre ++ [a]) (fst (step w a)).
Proof.
  unfold stored_from. intros Hinv t.
  assert (Hmono : forall t, returned_by_login pre t ->
                            returned_by_login (pre ++ [a]) t).
  { intros t' (res & data & tok & Hin & Hrest).
    exists res, data, tok. split; [|exact Hrest].
    apply elem_of_app. left. exact Hin. }
  destruct (step_token w a)
    as [(_ & ->) | [(_ & ->) | [(_ & ->)
       | (res & data & tok & -> & Hok & Hj & Ht & _ & ->)]]].
  - intros Ht. destruct (Hinv t Ht); auto.
  - intros Ht. destruct (Hinv t Ht); auto.
  - intros Ht. apply lookup_delete_Some in Ht as [_ Ht].
    destruct (Hinv t Ht); auto.
  - rewrite lookup_insert_eq. intros Heq. injection Heq as <-.
    right. exists res, data, tok. split_and!; try done.
    apply elem_of_app. right. left.
Qed.

(** What a step sends: the login, or one of the three requests with the
    token of the state the step leaves, which is truthy. *)
Lemma step_sends_which (w : world) (a : action) (r : request) :
  r ∈ snd (step w a) ->
  let w' := fst (step w a) in
  r = login_request w'
  \/ (truthy (token w') = true
      /\ (r = fetchEvents_request (token w')
          \/ r = create_request w'
          \/ exists path, r = events_request (token w') path)).
Proof.
  unfold step. destruct a.
  - destruct (on_screen w); cbn [fst snd];
      (unfold token_effect;
       destruct (truthy (token (mounted (localStorage w)))) eqn:Ht;
       intros Hr; [|inversion Hr];
       apply list_elem_of_singleton in Hr; subst r;
       right; split; [first [exact Ht | reflexivity]|left; reflexivity]).
  - destruct (on_screen w); intros Hr; inversion Hr.
  - destruct (on_screen w); intros Hr; inversion Hr.
  - destruct (on_screen w); cbn [snd]; intros Hr; try (inversion Hr; fail).
    apply list_elem_of_singleton in Hr. subst r. left. reflexivity.
  - assert (Hcases := handleLogin_settled_cases o w).
    destruct (on_screen w);
      (destruct Hcases
         as [(res & data & tok & _ & _ & _ & _ & -> & _ & _ & Hs)
            | (_ & _ & _ & ->)];
       [destruct Hs as [-> | [Htok ->]];
        intros Hr; [inversion Hr|];
        apply list_elem_of_singleton in Hr; subst r;
        right; split; [exact Htok|left; reflexivity]
       |intros Hr; inversion Hr]).
  - destruct (on_screen w); intros Hr; inversion Hr.
  - destruct (on_screen w); intros Hr; inversion Hr.
  - destruct (on_screen w); intros Hr; inversion Hr.
  - destruct (on_screen w); intros Hr; inversion Hr.
  - destruct (on_screen w); intros Hr; inversion Hr.
  - destruct (on_screen w) eqn:Hscr; cbn [fst snd]; intros Hr;
      try (inversion Hr; fail).
    apply list_elem_of_singleton in Hr. subst r.
    right. split; [apply on_events_screen; exact Hscr|].
    right; left. reflexivity.
  - destruct (on_screen w); intros Hr; inversion Hr.
  - destruct (on_screen w) eqn:Hscr; cbn [fst snd]; intros Hr;
      try (inversion Hr; fail).
    destruct (loadAnalytics_keeps eventId o1 o2 w) as (-> & _).
    assert (Htok := on_events_screen w Hscr).
    unfold loadAnalytics in Hr.
    destruct (awaited o1 ≫= json); cbn [snd] in Hr;
      repeat (apply elem_of_cons in Hr as [-> | Hr]);
      try (inversion Hr; fail);
      right; (split; [exact Htok|]); right; right; eexists; reflexivity.
  - destruct (on_screen w); try (intros Hr; inversion Hr; fail).
    destruct (analytics w); intros Hr; inversion Hr.
  - destruct (on_screen w); try (intros Hr; inversion Hr; fail).
    destruct (analytics w); intros Hr; inversion Hr.
Qed.

Lemma step_sends (w : world) (a : action) (r : request) :
  r ∈ snd (step w a) ->
  r = login_request (fst (step w a))
  \/ (truthy (token (fst (step w a))) = true
      /\ header (lit "Authorization") r
         = Some (lit "Bearer " ++ ToString (token (fst (step w a))))).
Proof.
  intros Hr. destruct (step_sends_which w a r Hr)
    as [-> | (Htok & [-> | [-> | (path & ->)]])];
    [left; reflexivity | right; split; [exact Htok|reflexivity] ..].
Qed.

(** *** The expiration field *)

Lemma or_parseInt_nonzero (s : jsstring) :
  nonzero_number (or (Number (parseInt s)) thirty).
Proof.
  unfold or, nonzero_number. destruct (parseInt s) as [|sg m]; simpl.
  - exists false, 30. split; [reflexivity|lia].
  - destruct (N.eqb_spec m 0) as [->|Hm]; simpl.
    + exists false, 30. split; [reflexivity|lia].
    + exists sg, m. split; [reflexivity|exact Hm].
Qed.

Lemma thirty_nonzero : nonzero_number thirty.
Proof. exists false, 30. split; [reflexivity|lia]. Qed.

Lemma trim_start_without_digits (s : jsstring) :
  without_digits s -> without_digits (trim_start s).
Proof.
  unfold without_digits. induction 1 as [|c s Hc Hs IH]; simpl.
  - constructor.
  - destruct (is_white_space c); [exact IH|constructor; assumption].
Qed.

Lemma radix_digit_10 (c : N) :
  is_decimal_digit c = false -> radix_digit 10 c = None.
Proof.
  unfold is_decimal_digit, radix_digit, digit_value. intros ->.
  destruct ((97 <=? c) && (c <=? 122)) eqn:Hl.
  - apply andb_true_iff in Hl as [Hl _]. apply N.leb_le in Hl.
    destruct (N.ltb_spec (c - 87) 10); [lia|reflexivity].
  - destruct ((65 <=? c) && (c <=? 90)) eqn:Hu; [|reflexivity].
    apply andb_true_iff in Hu as [Hu _]. apply N.leb_le in Hu.
    destruct (N.ltb_spec (c - 55) 10); [lia|reflexivity].
Qed.

(** A string with no decimal digit in it is no number for [parseInt]. *)
Lemma parseInt_without_digits (s : jsstring) :
  without_digits s -> parseInt s = NaN.
Proof.
  intros Hs. apply trim_start_without_digits in Hs. unfold parseInt.
  assert (Hno : forall u, without_digits u ->
    (let '(R, digits) :=
       match u with
       | c0 :: x :: rest =>
           if (c0 =? 48) && ((x =? 120) || (x =? 88)) then (16, rest)
           else (10, u)
       | _ => (10, u)
       end in
     match digits_prefix R digits with
     | [] => NaN
     | ds => Num false (mathInt R ds)
     end) = NaN
    /\ (let '(R, digits) :=
          match u with
          | c0 :: x :: rest =>
              if (c0 =? 48) && ((x =? 120) || (x =? 88)) then (16, rest)
              else (10, u)
          | _ => (10, u)
          end in
        match digits_prefix R digits with
        | [] => NaN
        | ds => Num true (mathInt R ds)
        end) = NaN).
  { intros u Hu. destruct u as [|c0 u]; [split; reflexivity|].
    inversion Hu as [|? ? Hc0 Hu']; subst.
    assert (H48 : (c0 =? 48) = false).
    { apply N.eqb_neq. intros ->. discriminate. }
    destruct u as [|x rest]; rewrite ?H48; simpl;
      rewrite (radix_digit_10 c0 Hc0); split; reflexivity. }
  destruct (trim_start s) as [|c rest]; [reflexivity|].
  inversion Hs as [|? ? Hc Hrest]; subst.
  destruct (c =? 45); [apply (Hno rest Hrest)|].
  destruct (c =? 43); [apply (Hno rest Hrest)|].
  apply (Hno (c :: rest) Hs).
Qed.

Lemma step_expiration (w : world) (a : action) :
  nonzero_number (expiration_days (newEvent w)) ->
  nonzero_number (expiration_days (newEvent (fst (step w a)))).
Proof.
  intros Hinv. unfold step. destruct a.
  - destruct (on_screen w); apply thirty_nonzero.
  - destruct (on_screen w); exact Hinv.
  - destruct (on_screen w); exact Hinv.
  - destruct (on_screen w); exact Hinv.
  - destruct (handleLogin_settled_cases o w)
      as [(res & data & tok & _ & _ & _ & _ & _ & _ & Hn & _)
         | (_ & _ & Hn & _)];
      destruct (on_screen w); rewrite Hn; exact Hinv.
  - destruct (fetchEvents_settled_keeps o w) as (_ & _ & Hn).
    destruct (on_screen w); cbn [fst]; rewrite Hn; exact Hinv.
  - destruct (on_screen w); exact Hinv.
  - destruct (on_screen w); exact Hinv.
  - destruct (on_screen w); try exact Hinv. apply or_parseInt_nonzero.
  - destruct (on_screen w); exact Hinv.
  - destruct (on_screen w); exact Hinv.
  - destruct (handleCreateEvent_settled_keeps o w) as (_ & _ & [Hn | Hn]);
      destruct (on_screen w); cbn [fst]; rewrite Hn;
      first [exact Hinv | apply thirty_nonzero].
  - destruct (loadAnalytics_keeps eventId o1 o2 w) as (_ & _ & Hn).
    destruct (on_screen w); try exact Hinv. rewrite Hn. exact Hinv.
  - destruct (on_screen w); try exact Hinv.
    destruct (analytics w); exact Hinv.
  - destruct (on_screen w); try exact Hinv.
    destruct (analytics w); exact Hinv.
Qed.

End DashboardFacts.

Section DashboardToken.
Context `{Engine} `{Build}.
Import Dashboard.

Lemma login_not_protected (w : world) : ~ protected (login_request w).
Proof.
  intros (rest & Hurl). simpl in Hurl. unfold api in Hurl.
  apply app_inv_head in Hurl. vm_compute in Hurl. discriminate.
Qed.

Lemma step_exact (w : world) (a : action) :
  typed_exactly a ->
  held_exactly (expiration_days (newEvent w)) ->
  held_exactly (expiration_days (newEvent (fst (step w a)))).
Proof.
  assert (Hthirty : held_exactly thirty) by (vm_compute; discriminate).
  intros Ha Hinv. unfold step. destruct a.
  - destruct (on_screen w); exact Hthirty.
  - destruct (on_screen w); exact Hinv.
  - destruct (on_screen w); exact Hinv.
  - destruct (on_screen w); exact Hinv.
  - destruct (handleLogin_settled_cases o w)
      as [(res & data & tok & _ & _ & _ & _ & _ & _ & Hn & _)
         | (_ & _ & Hn & _)];
      destruct (on_screen w); rewrite Hn; exact Hinv.
  - destruct (fetchEvents_settled_keeps o w) as (_ & _ & Hn).
    destruct (on_screen w); cbn [fst]; rewrite Hn; exact Hinv.
  - destruct (on_screen w); exact Hinv.
  - destruct (on_screen w); exact Hinv.
  - destruct (on_screen w); try exact Hinv. cbn [fst newEvent setNewEvent].
    unfold change_expiration, or. cbn [expiration_days].
    destruct (truthy (Number (parseInt s))); [exact Ha|exact Hthirty].
  - destruct (on_screen w); exact Hinv.
  - destruct (on_screen w); exact Hinv.
  - destruct (handleCreateEvent_settled_keeps o w) as (_ & _ & [Hn | Hn]);
      destruct (on_screen w); cbn [fst]; rewrite Hn;
      first [exact Hinv | exact Hthirty].
  - destruct (loadAnalytics_keeps eventId o1 o2 w) as (_ & _ & Hn).
    destruct (on_screen w); try exact Hinv. rewrite Hn. exact Hinv.
  - destruct (on_screen w); try exact Hinv.
    destruct (analytics w); exact Hinv.
  - destruct (on_screen w); try exact Hinv.
    destruct (analytics w); exact Hinv.
Qed.

End DashboardToken.

(** *** Sessions in which [loadAnalytics] is taken apart *)

Section DashboardAsyncFacts.
Context `{Engine} `{Build}.
Import Dashboard DashboardAsync.

Lemma run_app (xs ys : list action) (p : page) :
  fst (run p (xs ++ ys)) = fst (run (fst (run p xs)) ys)
  /\ snd (run p (xs ++ ys))
     = snd (run p xs) ++ snd (run (fst (run p xs)) ys).
Proof.
  revert p. induction xs as [|a xs IH]; intros p; [split; reflexivity|].
  simpl. destruct (step p a) as [p1 sent1].
  destruct (IH p1) as [IHf IHs].
  destruct (run p1 (xs ++ ys)) as [p2 sent2].
  destruct (run p1 xs) as [p3 sent3]. cbn [fst snd] in *.
  destruct (run p3 ys) as [p4 sent4]. cbn [fst snd] in *.
  subst. split; [reflexivity|]. rewrite app_assoc. reflexivity.
Qed.

(** Opening the page is the first mount, and sends what the effect on the
    token sends. *)
Lemma session_run (ls0 : gmap jsstring jsstring) (acts : list action) :
  fst (session ls0 acts) = fst (run {| app := mounted ls0; loads := [] |} acts)
  /\ snd (session ls0 acts)
     = map (fun r => (r, ls0)) (token_effect (mounted ls0))
       ++ snd (run {| app := mounted ls0; loads := [] |} acts).
Proof.
  unfold session. simpl.
  destruct (run {| app := mounted ls0; loads := [] |} acts) as [p sent].
  split; reflexivity.
Qed.

Lemma session_snoc (ls0 : gmap jsstring jsstring) (pre : list action)
    (a : action) :
  fst (session ls0 (pre ++ [a])) = fst (step (fst (session ls0 pre)) a).
Proof.
  destruct (session_run ls0 (pre ++ [a])) as [-> _].
  destruct (session_run ls0 pre) as [-> _].
  destruct (run_app pre [a] {| app := mounted ls0; loads := [] |}) as [-> _].
  simpl. destruct (step _ a) as [p1 sent1]. reflexivity.
Qed.

(** A request of a run was sent by one of its steps. *)
Lemma run_elem (acts : list action) (p : page) (r : request)
    (ls' : gmap jsstring jsstring) :
  (r, ls') ∈ snd (run p acts) ->
  exists pre a post,
    acts = pre ++ a :: post
    /\ r ∈ snd (step (fst (run p pre)) a)
    /\ ls' = localStorage (app (fst (step (fst (run p pre)) a))).
Proof.
  revert p. induction acts as [|a acts IH]; intros p.
  - intros Hr. inversion Hr.
  - simpl. destruct (step p a) as [p1 sent1] eqn:Hstep.
    destruct (run p1 acts) as [p2 sent2] eqn:Hrun. cbn [snd].
    intros Hr. apply elem_of_app in Hr as [Hr | Hr].
    + apply list_elem_of_fmap in Hr as (r' & Heq & Hr').
      injection Heq as <- ->.
      exists [], a, acts. simpl. rewrite Hstep. auto.
    + destruct (IH p1) as (pre & b & post & -> & Hb & Hls).
      { rewrite Hrun. exact Hr. }
      exists (a :: pre), b, post. simpl. rewrite Hstep.
      destruct (run p1 pre) as [p3 sent3]. auto.
Qed.









(** What a step sends: the login; a request with the token of the state
    the step leaves, which is truthy; or the request for the uploads of a
    [loadAnalytics] under way, with the token it holds. *)
Lemma async_step_sends (p : page) (a : action) (r : request) :
  r ∈ snd (step p a) ->
  let w' := app (fst (step p a)) in
  r = login_request w'
  \/ (truthy (token w') = true
      /\ (r = fetchEvents_request (token w')
          \/ r = create_request w'
          \/ exists path, r = events_request (token w') path))
  \/ (exists i o l,
        a = EventFetched i o /\ loads p !! i = Some l
        /\ r = events_request (load_token l)
                 (ToString (load_event l) ++ lit "/uploads")).
Proof.
  destruct a as [a'|eventId|i o|i o]; simpl.
  - pose proof (step_sends_which (app p) a' r) as Hsends.
    destruct (Dashboard.step (app p) a') as [w' sent]. cbn [fst snd app] in *.
    intros Hr. destruct (Hsends Hr) as [-> | Hc]; auto.
  - destruct (on_screen (app p)) eqn:Hscr;
      try (intros Hr; inversion Hr; fail).
    cbn [snd fst loadAnalytics_start app]. intros Hr.
    apply list_elem_of_singleton in Hr. subst r.
    right; left. split; [exact (on_events_screen (app p) Hscr)|].
    right; right. eexists. reflexivity.
  - destruct (loads p !! i) as [l|] eqn:Hl; [|intros Hr; inversion Hr].
    destruct (load_stage l); try (intros Hr; inversion Hr; fail).
    unfold loadAnalytics_event.
    destruct (awaited o ≫= json); cbn [snd]; intros Hr;
      [|inversion Hr].
    apply list_elem_of_singleton in Hr. subst r.
    right; right. exists i, o, l. auto.
  - destruct (loads p !! i) as [l|]; [|intros Hr; inversion Hr].
    destruct (load_stage l); intros Hr; inversion Hr.
Qed.



(** *** The expiration field *)

Lemma async_step_expiration (p : page) (a : action) :
  DashboardAsync.typed_exactly a ->
  nonzero_number (expiration_days (newEvent (app p)))
  /\ held_exactly (expiration_days (newEvent (app p))) ->
  nonzero_number (expiration_days (newEvent (app (fst (step p a)))))
  /\ held_exactly (expiration_days (newEvent (app (fst (step p a))))).
Proof.
  intros Ha [Hnz Hex]. destruct a as [a'|eventId|i o|i o]; simpl.
  - pose proof (step_expiration (app p) a' Hnz) as Hnz1.
    pose proof (step_exact (app p) a' Ha Hex) as Hex1.
    destruct (Dashboard.step (app p) a') as [w' sent]. auto.
  - destruct (on_screen (app p)); auto.
  - destruct (loads p !! i) as [l|]; [|auto].
    destruct (load_stage l); auto. unfold loadAnalytics_event.
    destruct (awaited o ≫= json); auto.
  - destruct (loads p !! i) as [l|]; [|auto].
    destruct (load_stage l); auto.
Qed.

Lemma session_expiration (ls0 : gmap jsstring jsstring)
    (acts : list action) :
  Forall DashboardAsync.typed_exactly acts ->
  nonzero_number
    (expiration_days (newEvent (app (fst (session ls0 acts)))))
  /\ held_exactly
       (expiration_days (newEvent (app (fst (session ls0 acts))))).
Proof.
  induction acts as [|a acts IH] using rev_ind; intros Hacts.
  - simpl. split; [apply thirty_nonzero|vm_compute; discriminate].
  - apply Forall_app in Hacts as [Hacts Ha].
    inversion Ha as [|? ? Ha' _]; subst.
    rewrite session_snoc. apply async_step_expiration; auto.
Qed.

End DashboardAsyncFacts.




Section DashboardExpiration.
Context `{Engine} `{Build}.
Import Dashboard.

(** C10: typing [s] into the expiration field stores [parseInt(s)] as
    expiration_days when that is a number other than zero, here for
    numerals of value up to 2^53, which the engine holds as they are, and
    30 otherwise; so '0', every string [parseInt] makes nothing of, and
    every string without a digit give 30; in every session in which no
    longer numeral is typed, the form's expiration_days is a number that is
    neither zero nor NaN, and so is the one in the body of every POST to
    /events; and after a successful creation the form is the blank one,
    with 30. *)
Theorem expiration_days_default :
  (forall s e,
     exact (parseInt s) ->
     nonzero_number (Number (parseInt s)) ->
     expiration_days (change_expiration s e) = Number (parseInt s))
  /\ (forall s e,
        ~ nonzero_number (Number (parseInt s)) ->
        expiration_days (change_expiration s e) = thirty)
  /\ (forall e, expiration_days (change_expiration (lit "0") e) = thirty)
  /\ (forall s e,
        parseInt s = NaN ->
        expiration_days (change_expiration s e) = thirty)
  /\ (forall s e,
        without_digits s ->
        expiration_days (change_expiration s e) = thirty)
  /\ (forall ls0 acts,
        Forall DashboardAsync.typed_exactly acts ->
        let e := newEvent (DashboardAsync.app
                             (fst (DashboardAsync.session ls0 acts))) in
        nonzero_number (expiration_days e)
        /\ held_exactly (expiration_days e))
  /\ (forall ls0 acts r ls',
        Forall DashboardAsync.typed_exactly acts ->
        (r, ls') ∈ snd (DashboardAsync.session ls0 acts) ->
        req_method r = POST -> protected r ->
        exists e,
          req_body r = Json (event_object e)
          /\ nonzero_number (expiration_days e)
          /\ held_exactly (expiration_days e))
  /\ (forall res data w,
        ok res = true -> json res = Some data ->
        newEvent (handleCreateEvent_settled (Resolved res) w) = blank_event)
  /\ expiration_days blank_event = thirty.
Proof.
  split_and!.
  - intros s e _ (sg & m & Heq & Hm). injection Heq as Heq.
    simpl. unfold or. rewrite Heq. simpl.
    destruct (N.eqb_spec m 0); [contradiction|reflexivity].
  - intros s e Hnot. simpl. unfold or.
    destruct (parseInt s) as [|sg m]; simpl; [reflexivity|].
    destruct (N.eqb_spec m 0); simpl; [reflexivity|].
    destruct Hnot. exists sg, m. auto.
  - intros e. reflexivity.
  - intros s e Hnan. simpl. rewrite Hnan. reflexivity.
  - intros s e Hs. simpl. rewrite (parseInt_without_digits s Hs).
    reflexivity.
  - intros ls0 acts Hacts. apply session_expiration. exact Hacts.
  - intros ls0 acts r ls' Hacts Hr Hpost Hprot.
    destruct (session_run ls0 acts) as [_ Hsent]. rewrite Hsent in Hr.
    apply elem_of_app in Hr as [Hr | Hr].
    { apply list_elem_of_fmap in Hr as (r' & Heq & Hr').
      injection Heq as <- ->. unfold token_effect in Hr'.
      destruct (truthy _); [|inversion Hr'].
      apply list_elem_of_singleton in Hr'. subst r. discriminate. }
    apply run_elem in Hr as (pre & a & post & -> & Hr & ->).
    destruct (session_run ls0 pre) as [Hp _]. rewrite <- Hp in *.
    apply Forall_app in Hacts as [Hpre Hacts].
    inversion Hacts as [|? ? Ha _]; subst.
    pose proof (session_expiration ls0 (pre ++ [a])) as Hinv.
    rewrite session_snoc in Hinv.
    destruct Hinv as [Hnz Hex];
      [apply Forall_app; split; [exact Hpre|constructor; [exact Ha|constructor]]|].
    destruct (async_step_sends _ a r Hr)
      as [-> | [(_ & [-> | [-> | (path & ->)]]) | (i & o & l & _ & _ & ->)]].
    + destruct (login_not_protected _ Hprot).
    + discriminate.
    + eexists. split_and!; [reflexivity|exact Hnz|exact Hex].
    + discriminate.
    + discriminate.
  - intros res data w Hok Hj.
    unfold handleCreateEvent_settled, handleCreateEvent_try. simpl.
    rewrite Hj. simpl. rewrite Hok. reflexivity.
  - reflexivity.
Qed.

End DashboardExpiration.

(** In the sample session '0' is typed into the expiration field and an
    event is created: the body sent has expiration_days 30. *)
Lemma expiration_days_default_witness :
  let acts := map DashboardAsync.Plain Samples.admin_session in
  let r := @Dashboard.create_request Samples.engine Samples.build
             (DashboardAsync.app
                (fst (@DashboardAsync.session Samples.engine Samples.build ∅
                        acts))) in
  let ls' := <[Dashboard.tp_token := lit "tok123"]> ∅ in
  Forall (@DashboardAsync.typed_exactly) acts
  /\ (r, ls') ∈ snd (@DashboardAsync.session Samples.engine Samples.build ∅
                       acts)
  /\ req_method r = POST
  /\ @Dashboard.protected Samples.engine Samples.build r
  /\ exists e,
       req_body r = Json (Dashboard.event_object e)
       /\ Dashboard.nonzero_number (Dashboard.expiration_days e).
Proof.
  intros acts.
  set (r := @Dashboard.create_request Samples.engine Samples.build
              (DashboardAsync.app
                 (fst (@DashboardAsync.session Samples.engine Samples.build ∅
                         acts)))).
  set (ls' := <[Dashboard.tp_token := lit "tok123"]>
                (∅ : gmap jsstring jsstring)).
  assert (Hacts : Forall (@DashboardAsync.typed_exactly) acts).
  { repeat constructor. vm_compute. discriminate. }
  assert (Hin : (r, ls') ∈ snd (@DashboardAsync.session Samples.engine
                                  Samples.build ∅ acts)).
  { apply list_elem_of_lookup. exists 2%nat. vm_compute. reflexivity. }
  assert (Hprot : @Dashboard.protected Samples.engine Samples.build r)
    by (exists []; reflexivity).
  split_and!; try assumption; try reflexivity.
  destruct (@expiration_days_default Samples.engine Samples.build)
    as (_ & _ & _ & _ & _ & _ & Hbody & _).
  destruct (Hbody ∅ acts r ls' Hacts Hin eq_refl Hprot)
    as (e & Hbodye & Hnz & _).
  exists e. split; assumption.
Defined.

(** * Further properties

    What the rest of the components does: the gallery's buttons, the
    slideshow off its main path, the dashboard's session, the analytics,
    the end of the registration flow, and the earlier dashboard. *)

(** ** The gallery once the fetch has settled *)

Section GallerySettled.
Context `{Engine} `{Build}.

Lemma media_cell_None (item : value) :
  media_cell item = None <-> item = Undefined \/ item = Null.
Proof.
  unfold media_cell. destruct item; simpl; split;
    try (intros Hn; discriminate Hn); try (intros [Hn | Hn]; discriminate Hn);
    auto.
Qed.

Lemma mapM_media_cell_None (items : list value) :
  mapM media_cell items = None
  <-> exists item, item ∈ items /\ (item = Undefined \/ item = Null).
Proof.
  split.
  - induction items as [|item items IH]; simpl; [discriminate|].
    destruct (media_cell item) as [cell|] eqn:Hcell; simpl.
    + destruct (mapM media_cell items) as [cells|]; simpl; [discriminate|].
      intros _. destruct (IH eq_refl) as (bad & Hin & Hbad).
      exists bad. split; [right; exact Hin|exact Hbad].
    + intros _. exists item. split; [left|].
      apply media_cell_None. exact Hcell.
  - intros (item & Hin & Hbad).
    destruct (mapM media_cell items) as [cells|] eqn:Hm; [|reflexivity].
    apply mapM_Some in Hm.
    apply list_elem_of_lookup in Hin as (i & Hi).
    destruct (Forall2_lookup_l _ _ _ _ _ Hm Hi) as (cell & _ & Hcell).
    apply media_cell_None in Hbad. congruence.
Qed.

(** [Gallery] itself throws exactly when an OK response holds under
    'media' something truthy that is no array, or an array with an item
    that is [null] or [undefined]. *)
Lemma gallery_throws (o : outcome) :
  Gallery_settled o <> Carregando
  /\ (Gallery_settled o = Crash
      <-> exists res data m,
            o = Resolved res /\ ok res = true /\ json res = Some data
            /\ get data (lit "media") = Some m /\ truthy m = true
            /\ match m with
               | Array items =>
                   exists item,
                     item ∈ items /\ (item = Undefined \/ item = Null)
               | _ => True
               end).
Proof.
  unfold Gallery_settled, fetchMedia, fetchMedia_try.
  destruct o as [|res]; simpl.
  { split; [discriminate|]. split; [discriminate|].
    intros (res & ? & ? & Habs & _). discriminate. }
  set (shape := fun m : value =>
         match m with
         | Array items =>
             exists item, item ∈ items /\ (item = Undefined \/ item = Null)
         | _ => True
         end).
  assert (Hnorm :
    (exists res' data m,
       Resolved res = Resolved res' /\ ok res' = true /\ json res' = Some data
       /\ get data (lit "media") = Some m /\ truthy m = true /\ shape m)
    <-> ok res = true
        /\ exists data m,
             json res = Some data /\ get data (lit "media") = Some m
             /\ truthy m = true /\ shape m).
  { split.
    - intros (res' & data & m & Heq & Hok & Hrest).
      injection Heq as Heq. subst res'. eauto.
    - intros (Hok & data & m & Hrest). exists res, data, m. auto. }
  match goal with
  | |- ?A /\ (?B <-> _) =>
      cut (A /\ (B <-> ok res = true
                       /\ exists data m,
                            json res = Some data
                            /\ get data (lit "media") = Some m
                            /\ truthy m = true /\ shape m))
  end.
  { intros [H1 H2]. split; [exact H1|].
    etransitivity; [exact H2|]. symmetry. exact Hnorm. }
  clear Hnorm.
  destruct (json res) as [data|] eqn:Hj; simpl.
  2:{ split; [discriminate|]. split; [discriminate|].
      intros (_ & data & m & Hj' & _). discriminate. }
  destruct (ok res) eqn:Hok; simpl.
  - destruct (get data (lit "media")) as [m|] eqn:Hm; simpl.
    2:{ split; [discriminate|]. split; [discriminate|].
        intros (_ & data' & m & Hj' & Hm' & _).
        injection Hj' as <-. congruence. }
    assert (Hone : forall Q : value -> Prop,
              (true = true /\ exists data' m',
                 Some data = Some data' /\ get data' (lit "media") = Some m'
                 /\ truthy m' = true /\ Q m')
              <-> truthy m = true /\ Q m).
    { intros Q. split.
      - intros (_ & data' & m' & Hd & Hm' & Ht & HQ).
        injection Hd as <-. rewrite Hm in Hm'. injection Hm' as <-. auto.
      - intros (Ht & HQ). split; [reflexivity|]. exists data, m. auto. }
    match goal with
    | |- ?A /\ (?B <-> _) =>
        cut (A /\ (B <-> truthy m = true /\ shape m))
    end.
    { intros [H1 H2]. split; [exact H1|].
      etransitivity; [exact H2|]. symmetry. exact (Hone shape). }
    clear Hone. unfold shape, Gallery, or. simpl.
    destruct (truthy m) eqn:Ht; simpl.
    + destruct m as [| |b|n|s|items|props]; simpl;
        try (split; [discriminate|]; split; auto; fail).
      destruct (mapM media_cell items) as [cells|] eqn:Hcells.
      * split; [discriminate|]. split; [discriminate|].
        intros (_ & Hbad). apply mapM_media_cell_None in Hbad. congruence.
      * split; [discriminate|]. split; [intros _|reflexivity].
        split; [reflexivity|]. apply mapM_media_cell_None. exact Hcells.
    + split; [discriminate|]. split; [discriminate|].
      intros (Habs & _). discriminate.
  - assert (Hshown : forall st : gallery_state,
              loading st = false -> truthy (error st) = true ->
              Gallery st <> Carregando /\ Gallery st <> Crash).
    { intros st Hl He. unfold Gallery. rewrite Hl, He.
      split; discriminate. }
    destruct (get data (lit "error")) as [e|]; simpl.
    + destruct (Hshown (setLoading false
                          (setError (or e (Str Erro_ao_carregar_galeria))
                             gallery_init))) as [H1 H2];
        [reflexivity| |].
      * unfold or. simpl. destruct (truthy e) eqn:Hte; [exact Hte|reflexivity].
      * split; [exact H1|]. split; [intros Hc; destruct (H2 Hc)|].
        intros (Habs & _). discriminate.
    + split; [discriminate|]. split; [discriminate|].
      intros (Habs & _). discriminate.
Qed.

(** What is no grid and no loading line is a paragraph with the error, and
    its child is not accepted only when it is the truthy value under
    'error' of a response that is not OK. *)
Lemma gallery_error_child (o : outcome) (e : value) :
  Gallery_settled o = ErrorText e -> valid_child e = false ->
  exists res data,
    o = Resolved res /\ ok res = false /\ json res = Some data
    /\ get data (lit "error") = Some e /\ truthy e = true.
Proof.
  unfold Gallery_settled, fetchMedia, fetchMedia_try.
  destruct o as [|res]; simpl.
  { intros Heq. injection Heq as <-. discriminate. }
  destruct (json res) as [data|] eqn:Hj; simpl.
  2:{ intros Heq. injection Heq as <-. discriminate. }
  destruct (ok res) eqn:Hok; simpl.
  - destruct (get data (lit "media")) as [m|]; simpl.
    + unfold Gallery. simpl.
      destruct (or m (Array [])); try discriminate.
      destruct (mapM media_cell items); discriminate.
    + intros Heq. injection Heq as <-. discriminate.
  - destruct (get data (lit "error")) as [e'|] eqn:He; simpl.
    + unfold Gallery, or. simpl.
      destruct (truthy e') eqn:Ht; simpl; rewrite ?Ht.
      * intros Heq. injection Heq as <-. intros _.
        exists res, data. auto.
      * intros Heq. injection Heq as <-. discriminate.
    + intros Heq. injection Heq as <-. discriminate.
Qed.

(** X1: once the fetch has settled the gallery no longer returns
    'Carregando...', whatever came back; and the page is left empty, an
    exception having been thrown, exactly when an OK response holds under
    'media' something truthy that is no array, or an array with an item
    that is [null] or [undefined], or a response that is not OK holds under
    'error' an object, or an array with an object in it. *)
Theorem gallery_settles (o : outcome) :
  Gallery_settled o <> Carregando
  /\ (draws (Gallery_settled o) = false
      <-> (exists res data m,
             o = Resolved res /\ ok res = true /\ json res = Some data
             /\ get data (lit "media") = Some m /\ truthy m = true
             /\ match m with
                | Array items =>
                    exists item,
                      item ∈ items /\ (item = Undefined \/ item = Null)
                | _ => True
                end)
          \/ (exists res data e,
                o = Resolved res /\ ok res = false /\ json res = Some data
                /\ get data (lit "error") = Some e
                /\ valid_child e = false)).
Proof.
  destruct (gallery_throws o) as [Hsettled Hthrows].
  split; [exact Hsettled|]. split.
  - intros Hdraws.
    destruct (Gallery_settled o) as [|e|cells|] eqn:Hview;
      try discriminate Hdraws.
    + right. simpl in Hdraws.
      destruct (gallery_error_child o e Hview Hdraws)
        as (res & data & -> & Hok & Hj & He & _).
      exists res, data, e. auto.
    + left. apply Hthrows. reflexivity.
  - intros [Hmedia | (res & data & e & -> & Hok & Hj & He & Hchild)].
    + apply Hthrows in Hmedia. rewrite Hmedia. reflexivity.
    + assert (Ht : truthy e = true)
        by (destruct e; try discriminate Hchild; reflexivity).
      unfold Gallery_settled, fetchMedia, fetchMedia_try. simpl.
      rewrite Hj. simpl. rewrite Hok, He. simpl.
      unfold Gallery, or. simpl. rewrite Ht. simpl. rewrite Ht.
      exact Hchild.
Qed.


End GallerySettled.

(** ** The gallery token and the link that shares it *)

Section TokenFacts.

Lemma split_no_sep (sep : N) (s p : jsstring) :
  p ∈ split sep s -> sep ∉ p.
Proof.
  revert p. induction s as [|c s IH]; intros p; simpl.
  - intros Hp. apply list_elem_of_singleton in Hp. subst p.
    apply not_elem_of_nil.
  - destruct (N.eqb_spec c sep) as [->|Hc].
    + intros Hp. apply elem_of_cons in Hp as [-> | Hp];
        [apply not_elem_of_nil|auto].
    + destruct (split sep s) as [|h t] eqn:Hs.
      * intros Hp. apply list_elem_of_singleton in Hp. subst p.
        intros Hin. apply list_elem_of_singleton in Hin. congruence.
      * intros Hp. apply elem_of_cons in Hp as [-> | Hp].
        -- intros Hin. apply elem_of_cons in Hin as [Heq | Hin];
             [congruence|]. apply (IH h); [left|exact Hin].
        -- apply IH. right. exact Hp.
Qed.

Lemma split_app (sep : N) (p s : jsstring) :
  sep ∉ p -> split sep (p ++ sep :: s) = p :: split sep s.
Proof.
  induction p as [|c p IH]; intros Hp; simpl.
  - rewrite N.eqb_refl. reflexivity.
  - apply not_elem_of_cons in Hp as [Hc Hp].
    destruct (N.eqb_spec c sep) as [Heq|_]; [congruence|].
    rewrite (IH Hp). reflexivity.
Qed.

Lemma split_single (sep : N) (p : jsstring) :
  sep ∉ p -> split sep p = [p].
Proof.
  induction p as [|c p IH]; intros Hp; simpl; [reflexivity|].
  apply not_elem_of_cons in Hp as [Hc Hp].
  destruct (N.eqb_spec c sep) as [Heq|_]; [congruence|].
  rewrite (IH Hp). reflexivity.
Qed.

Lemma token_shape (loc : Location) (token : jsstring) :
  getGalleryToken loc = Str token -> token <> [] /\ 47 ∉ token.
Proof.
  intros Hg.
  destruct (getGalleryToken_spec loc)
    as [(token' & (rest & Hsegs) & Hne & Hg') | (_ & Hg')];
    rewrite Hg' in Hg; [|discriminate].
  injection Hg as ->. split; [exact Hne|].
  apply (split_no_sep 47 (pathname loc)).
  assert (Hin : In token (segments loc)) by (rewrite Hsegs; simpl; auto).
  unfold segments in Hin. apply List.filter_In in Hin as [Hin _].
  apply list_elem_of_In. exact Hin.
Qed.

(** X2: the token [getGalleryToken] returns is the second non-empty
    segment of a path whose first is 'gallery'; it is never empty and holds
    no '/', so that [`${API_BASE}/gallery/${token}`] names one path
    segment. *)
Theorem gallery_token_is_a_segment (loc : Location) (token : jsstring) :
  getGalleryToken loc = Str token ->
  token <> [] /\ (47 ∉ token)
  /\ exists rest, segments loc = lit "gallery" :: token :: rest.
Proof.
  intros Hg. destruct (token_shape loc token Hg) as [Hne Hslash].
  split_and!; [exact Hne|exact Hslash|].
  destruct (getGalleryToken_spec loc)
    as [(token' & Hpath & _ & Hg') | (_ & Hg')];
    rewrite Hg' in Hg; [|discriminate].
  injection Hg as ->. exact Hpath.
Qed.

(** X3: the link [handleShareWhatsApp] shares leads back to the same
    gallery: its path, whatever the origin and whatever query is added,
    is routed to the gallery with the token it was built from. *)
Theorem share_link_routes_back `{Engine} (loc : Location) (token : jsstring)
    (origin : jsstring) (params : list (jsstring * jsstring)) :
  App loc = GalleryPage (Str token) ->
  exists path,
    GalleryActions.share_link origin (Str token) = origin ++ path
    /\ App {| pathname := path; searchParams := params |}
       = GalleryPage (Str token).
Proof.
  unfold App at 1. intros Happ.
  assert (Hg : getGalleryToken loc = Str token).
  { destruct (truthy (getGalleryToken loc)); [congruence|].
    destruct (truthy (getRegisterEvent loc)); discriminate. }
  destruct (token_shape loc token Hg) as [Hne Hslash].
  exists (lit "/gallery/" ++ token). split; [reflexivity|].
  unfold App, getGalleryToken. cbn [pathname].
  assert (Hsplit : split 47 (lit "/gallery/" ++ token)
                   = [[]; lit "gallery"; token]).
  { change (lit "/gallery/" ++ token)
      with ([] ++ 47 :: (lit "gallery" ++ 47 :: token)).
    rewrite split_app by apply not_elem_of_nil.
    rewrite split_app by (vm_compute; intros Hin; inversion Hin as [|? ? ? Hin2];
      repeat (inversion Hin2 as [|? ? ? Hin3]; clear Hin2; rename Hin3 into Hin2)).
    rewrite (split_single 47 token Hslash). reflexivity. }
  rewrite Hsplit. unfold filter_Boolean. simpl List.filter.
  assert (Ht : truthy (Str token) = true) by (apply truthy_Str; exact Hne).
  assert (Hb : negb (bool_decide (token = [])) = true) by exact Ht.
  rewrite Hb. unfold index. simpl. rewrite ?Hb, ?Ht. simpl.
  rewrite ?Hb, ?Ht. reflexivity.
Qed.

End TokenFacts.

(** [/gallery/abc/] gives the token 'abc'. *)
Lemma gallery_token_is_a_segment_witness :
  let loc := {| pathname := lit "/gallery/abc/"; searchParams := [] |} in
  getGalleryToken loc = Str (lit "abc")
  /\ lit "abc" <> [] /\ 47 ∉ lit "abc".
Proof.
  split; [reflexivity|].
  destruct (gallery_token_is_a_segment
              {| pathname := lit "/gallery/abc/"; searchParams := [] |}
              (lit "abc") eq_refl) as (Hne & Hslash & _).
  split; [exact Hne|exact Hslash].
Defined.

(** From [/gallery/abc/] the link shared is [<origin>/gallery/abc]. *)
Lemma share_link_routes_back_witness :
  let loc := {| pathname := lit "/gallery/abc/"; searchParams := [] |} in
  App loc = GalleryPage (Str (lit "abc"))
  /\ exists path,
       @GalleryActions.share_link Samples.engine
         (lit "https://fotos.example") (Str (lit "abc"))
       = lit "https://fotos.example" ++ path
       /\ App {| pathname := path; searchParams := [] |}
          = GalleryPage (Str (lit "abc")).
Proof.
  split; [reflexivity|].
  apply (@share_link_routes_back Samples.engine
           {| pathname := lit "/gallery/abc/"; searchParams := [] |}).
  reflexivity.
Defined.

(** ** The gallery's two buttons *)

Section GalleryButtons.
Context `{Engine} `{Build}.
Import GalleryActions.

Lemma click_each_cells (items : list value) (cells : list element) :
  mapM media_cell items = Some cells ->
  exists links,
    click_each items = (links, false)
    /\ map href links = map cell_src cells.
Proof.
  intros Hm. apply mapM_Some in Hm.
  induction Hm as [|item cell items cells Hcell _ IH].
  - exists []. auto.
  - destruct IH as (links & Hc & Hmap).
    cbn [click_each]. rewrite Hc. unfold media_cell in Hcell.
    unfold download_item.
    destruct (get item (lit "url")) as [u|]; simpl in *; [|discriminate].
    destruct (get item (lit "filename")) as [f|]; simpl in *; [|discriminate].
    destruct (get item (lit "upload_id")) as [i|]; simpl in *;
      [|discriminate].
    injection Hcell as <-. eexists. split; [reflexivity|].
    simpl. rewrite Hmap.
    destruct (test gallery_video_re f); reflexivity.
Qed.

(** X4: whenever the gallery shows its grid, 'Baixar tudo' clicks one link
    for each cell of the grid, in the grid's order, each with the address
    its cell shows, and ends without an exception. *)
Theorem download_all_matches_grid (st : gallery_state)
    (cells : list element) :
  Gallery st = MediaGrid cells ->
  exists links,
    handleDownloadAll st = (links, false)
    /\ map href links = map cell_src cells
    /\ length links = length cells.
Proof.
  unfold Gallery, handleDownloadAll.
  destruct (loading st); [discriminate|].
  destruct (truthy (error st)); [discriminate|].
  destruct (media st) as [| |b|n|s|items|props]; try discriminate.
  destruct (mapM media_cell items) as [cells'|] eqn:Hcells; [|discriminate].
  intros Heq. injection Heq as <-.
  destruct (click_each_cells items cells' Hcells) as (links & Hc & Hmap).
  exists links. split_and!; [exact Hc|exact Hmap|].
  rewrite <- (length_map href), Hmap, length_map. reflexivity.
Qed.

End GalleryButtons.

(** The three sample uploads are on screen, and three links are
    clicked. *)
Lemma download_all_matches_grid_witness :
  let st := fetchMedia
              (Resolved {| ok := true;
                           json := Some (Samples.media_body
                                           Samples.three_uploads) |})
              gallery_init in
  exists cells links,
    @Gallery Samples.engine Samples.build st = MediaGrid cells
    /\ @GalleryActions.handleDownloadAll Samples.engine Samples.build st
       = (links, false)
    /\ length links = 3%nat.
Proof.
  set (st := fetchMedia
               (Resolved {| ok := true;
                            json := Some (Samples.media_body
                                            Samples.three_uploads) |})
               gallery_init).
  assert (Hview : exists cells,
            @Gallery Samples.engine Samples.build st = MediaGrid cells
            /\ length cells = 3%nat)
    by (eexists; split; vm_compute; reflexivity).
  destruct Hview as (cells & Hview & Hlen).
  destruct (@download_all_matches_grid Samples.engine Samples.build
              st cells Hview) as (links & Hd & _ & Hl).
  exists cells, links. split_and!; [exact Hview|exact Hd|congruence].
Defined.

Section ShareFacts.
Import Uri.

Lemma hex_digit_unreserved (d : N) :
  d < 16 -> is_unreserved (hex_digit d) = true.
Proof.
  intros Hd. unfold hex_digit, is_unreserved.
  destruct (N.ltb_spec d 10).
  - assert (Hr : ((48 <=? 48 + d) && (48 + d <=? 57)) = true).
    { apply andb_true_iff. split; apply N.leb_le; lia. }
    rewrite Hr. rewrite orb_true_r. reflexivity.
  - assert (Hr : ((65 <=? 55 + d) && (55 + d <=? 90)) = true).
    { apply andb_true_iff. split; apply N.leb_le; lia. }
    rewrite Hr. reflexivity.
Qed.

Lemma percent_safe (octet : N) :
  octet < 256 -> Forall (fun c => query_safe c = true) (percent octet).
Proof.
  intros Ho. unfold percent. repeat constructor.
  - unfold query_safe. rewrite hex_digit_unreserved; [reflexivity|].
    apply N.Div0.div_lt_upper_bound. lia.
  - unfold query_safe. rewrite hex_digit_unreserved; [reflexivity|].
    apply N.mod_lt. lia.
Qed.

Lemma escape_safe (cp : N) :
  cp < 1114112 -> Forall (fun c => query_safe c = true) (escape cp).
Proof.
  intros Hcp. unfold escape, utf8.
  assert (H64 : forall x, 128 + x mod 64 < 256).
  { intros x. pose proof (N.mod_lt x 64). lia. }
  destruct (N.ltb_spec cp 128); [|destruct (N.ltb_spec cp 2048);
    [|destruct (N.ltb_spec cp 65536)]]; cbn [map concat];
    repeat (apply Forall_app; split); try apply Forall_nil_2;
    try apply percent_safe; auto.
  - lia.
  - assert (cp / 64 < 32) by (apply N.Div0.div_lt_upper_bound; lia). lia.
  - assert (cp / 4096 < 16) by (apply N.Div0.div_lt_upper_bound; lia). lia.
  - assert (cp / 262144 < 5) by (apply N.Div0.div_lt_upper_bound; lia). lia.
Qed.

Lemma pair_code_point_bound (hi lo : N) :
  is_high_surrogate hi = true -> is_low_surrogate lo = true ->
  pair_code_point hi lo < 1114112.
Proof.
  unfold is_high_surrogate, is_low_surrogate, pair_code_point.
  intros Hhi Hlo.
  apply andb_true_iff in Hhi as [H1 H2]. apply andb_true_iff in Hlo as [H3 H4].
  apply N.leb_le in H1, H2, H3, H4. lia.
Qed.

Lemma encode_safe_upto (n : nat) (s e : jsstring) :
  (length s <= n)%nat ->
  Forall (fun c => c < 65536) s ->
  encodeURIComponent s = Some e ->
  Forall (fun c => query_safe c = true) e.
Proof.
  revert s e. induction n as [|n IH]; intros s e Hlen Hs.
  - destruct s; [|simpl in Hlen; lia].
    intros Heq. injection Heq as <-. constructor.
  - destruct s as [|c rest]; [intros Heq; injection Heq as <-; constructor|].
    inversion Hs as [|? ? Hc Hrest]; subst. simpl in Hlen.
    cbn [encodeURIComponent].
    destruct (is_unreserved c) eqn:Hu.
    { destruct (encodeURIComponent rest) as [e'|] eqn:He; simpl;
        [|discriminate].
      intros Heq. injection Heq as <-. constructor.
      - unfold query_safe. rewrite Hu. reflexivity.
      - apply (IH rest e'); [lia|exact Hrest|exact He]. }
    destruct (is_low_surrogate c); [discriminate|].
    destruct (is_high_surrogate c) eqn:Hhi.
    { destruct rest as [|d rest']; [discriminate|].
      destruct (is_low_surrogate d) eqn:Hlo; [|discriminate].
      destruct (encodeURIComponent rest') as [e'|] eqn:He; simpl;
        [|discriminate].
      intros Heq. injection Heq as <-. apply Forall_app. split.
      - apply escape_safe, pair_code_point_bound; assumption.
      - inversion Hrest; subst. simpl in Hlen.
        apply (IH rest' e'); [lia|assumption|exact He]. }
    destruct (encodeURIComponent rest) as [e'|] eqn:He; simpl;
      [|discriminate].
    intros Heq. injection Heq as <-. apply Forall_app. split.
    + apply escape_safe. lia.
    + apply (IH rest e'); [lia|exact Hrest|exact He].
Qed.

Lemma encode_total (s : jsstring) :
  Forall (fun c => is_surrogate c = false) s ->
  is_Some (encodeURIComponent s).
Proof.
  induction 1 as [|c rest Hc _ IH]; [eexists; reflexivity|].
  cbn [encodeURIComponent]. unfold is_surrogate in Hc.
  apply orb_false_iff in Hc as [-> ->]. destruct IH as [e' ->]. simpl.
  destruct (is_unreserved c); eexists; reflexivity.
Qed.

(** X5: the address [handleShareWhatsApp] opens is 'https://wa.me/?text='
    followed only by unreserved characters and percent escapes, so no '&',
    '#' or space cuts the text short; and it is opened whenever neither the
    origin nor the token holds a surrogate. *)
Theorem share_address_is_one_parameter `{Engine} (origin : jsstring)
    (token : value) :
  Forall (fun c => c < 65536) origin ->
  Forall (fun c => c < 65536) (ToString token) ->
  (forall address,
     GalleryActions.handleShareWhatsApp origin token = Some address ->
     exists encoded,
       address = lit "https://wa.me/?text=" ++ encoded
       /\ Forall (fun c => query_safe c = true) encoded
       /\ (38 ∉ encoded) /\ (35 ∉ encoded) /\ (32 ∉ encoded))
  /\ (Forall (fun c => is_surrogate c = false) origin ->
      Forall (fun c => is_surrogate c = false) (ToString token) ->
      is_Some (GalleryActions.handleShareWhatsApp origin token)).
Proof.
  intros Ho Ht. unfold GalleryActions.handleShareWhatsApp,
    GalleryActions.share_link. split.
  - intros address.
    destruct (encodeURIComponent _) as [encoded|] eqn:He; simpl;
      [|discriminate].
    intros Heq. injection Heq as <-. exists encoded.
    assert (Hsafe : Forall (fun c => query_safe c = true) encoded).
    { eapply (encode_safe_upto _ _ encoded); [apply le_n| |exact He].
      repeat (apply Forall_app; split); try assumption;
        apply Forall_forall; intros c Hc; vm_compute in Hc;
        repeat (apply elem_of_cons in Hc as [-> | Hc]; [lia|]);
        inversion Hc. }
    split_and!; [reflexivity|exact Hsafe|..];
      intros Hin; rewrite Forall_forall in Hsafe;
      specialize (Hsafe _ Hin); vm_compute in Hsafe; discriminate.
  - intros Hso Hst.
    destruct (encode_total
                (GalleryActions.Confira
                 ++ origin ++ lit "/gallery/" ++ ToString token))
      as [encoded He].
    + repeat (apply Forall_app; split); try assumption;
        apply Forall_forall; intros c Hc; vm_compute in Hc;
        repeat (apply elem_of_cons in Hc as [-> | Hc]; [reflexivity|]);
        inversion Hc.
    + rewrite He. eexists. reflexivity.
Qed.

End ShareFacts.

(** For the token 'abc' the address is opened and holds no '&'. *)
Lemma share_address_is_one_parameter_witness :
  let origin := lit "https://fotos.example" in
  let token := Str (lit "abc") in
  Forall (fun c => c < 65536) origin
  /\ Forall (fun c => c < 65536) (@ToString Samples.engine token)
  /\ exists address encoded,
       @GalleryActions.handleShareWhatsApp Samples.engine origin token
       = Some address
       /\ address = lit "https://wa.me/?text=" ++ encoded
       /\ 38 ∉ encoded.
Proof.
  assert (Ho : Forall (fun c => c < 65536) (lit "https://fotos.example"))
    by (apply Forall_forall; intros c Hc; vm_compute in Hc;
        repeat (apply elem_of_cons in Hc as [-> | Hc]; [lia|]);
        inversion Hc).
  assert (Ht : Forall (fun c => c < 65536)
                 (@ToString Samples.engine (Str (lit "abc"))))
    by (apply Forall_forall; intros c Hc; vm_compute in Hc;
        repeat (apply elem_of_cons in Hc as [-> | Hc]; [lia|]);
        inversion Hc).
  split; [exact Ho|]. split; [exact Ht|].
  destruct (@share_address_is_one_parameter Samples.engine
              (lit "https://fotos.example") (Str (lit "abc")) Ho Ht)
    as [Hshape _].
  destruct (Hshape _ eq_refl) as (encoded & Ha & _ & Hamp & _).
  eexists _, encoded. split; [reflexivity|]. split; [exact Ha|exact Hamp].
Defined.

(** ** The slideshow off its main path *)

Section SlideshowEdges.
Context `{Engine} `{Build}.
Import Slideshow.

Lemma ticks_media (eventId : value) (st : state) (k : nat) :
  media (Nat.iter k (tick eventId) st) = media st.
Proof.
  induction k as [|k IH]; [reflexivity|].
  rewrite Nat.iter_succ. unfold tick at 1.
  destruct (draws _); [|exact IH].
  destruct (advance_timer _); simpl; exact IH.
Qed.

(** X6: without a truthy 'event' parameter the slideshow sends no request;
    before its effect has run it asks for the parameter, and from then on,
    whatever the interval does, it shows 'Nenhum evento especificado'. *)
Theorem slideshow_without_event (eventId : value) :
  truthy eventId = false ->
  snd (mount eventId) = []
  /\ App eventId init = Informe_o_parametro
  /\ forall k,
       App eventId (Nat.iter k (tick eventId) (fst (mount eventId)))
       = ErrorText (Str Nenhum_evento).
Proof.
  intros Hev. unfold mount. rewrite Hev. simpl. split_and!.
  - reflexivity.
  - unfold App. simpl. rewrite Hev. reflexivity.
  - intros k. unfold App. rewrite ticks_error. reflexivity.
Qed.

(** X7: when its fetch throws, or the body cannot be read or is [null],
    the slideshow shows 'Erro de conexão'; for a response that is not OK it
    returns a paragraph with the value under 'error' when that is truthy,
    and 'Erro ao carregar mídia' otherwise.  A string is shown as it is,
    whereas an object, or an array with an object in it, makes React throw
    and the page stay empty.  The error once set is what the slideshow
    returns, before anything else, and no lapse of time removes it. *)
Theorem slideshow_error_shown (eventId : value) (o : outcome) (k : nat) :
  let st := Nat.iter k (tick eventId) (fetchMedia_settled o init) in
  ((o = Rejected
    \/ exists res, o = Resolved res
         /\ (json res = None \/ json res = Some Null)) ->
   App eventId st = ErrorText (Str Erro_de_conexao)
   /\ draws (App eventId st) = true)
  /\ (forall res data e,
        o = Resolved res -> ok res = false ->
        json res = Some data -> get data (lit "error") = Some e ->
        App eventId st
        = ErrorText (if truthy e then e else Str Erro_ao_carregar_midia)
        /\ (forall s, e = Str s ->
            App eventId st
            = ErrorText (Str (if bool_decide (s = [])
                              then Erro_ao_carregar_midia else s))
            /\ draws (App eventId st) = true)
        /\ (valid_child e = false -> draws (App eventId st) = false)).
Proof.
  intros st. subst st. unfold App. rewrite ticks_error.
  unfold fetchMedia_settled, fetchMedia_try. split_and!.
  - intros [-> | (res & -> & [Hj | Hj])]; simpl; rewrite ?Hj; simpl;
      try (split; reflexivity).
    destruct (ok res); split; reflexivity.
  - intros res data e -> Hok Hj He. simpl. rewrite Hj. simpl.
    rewrite Hok, He. simpl. unfold or. split_and!.
    + destruct (truthy e) eqn:Hte; simpl; [rewrite Hte|]; reflexivity.
    + intros s ->. simpl. case_bool_decide; simpl.
      * split; reflexivity.
      * case_bool_decide; [contradiction|]. split; reflexivity.
    + intros Hchild.
      assert (Hte : truthy e = true)
        by (destruct e; try discriminate Hchild; reflexivity).
      rewrite Hte. simpl. rewrite Hte. exact Hchild.
Qed.

(** X8: for a fetched list of at most one item, or a body with nothing
    under 'media', the slideshow sets no interval and its state never
    changes; with no item it shows 'Nenhuma mídia encontrada para este
    evento.'. *)
Theorem slideshow_short_list (eventId data m : value) :
  let st0 :=
    fetchMedia_settled (Resolved {| ok := true; json := Some data |}) init in
  get data (lit "media") = Some m ->
  (truthy m = false
   \/ exists items, m = Array items /\ (length items <= 1)%nat) ->
  advance_timer (media st0) = None
  /\ (forall k, Nat.iter k (tick eventId) st0 = st0)
  /\ (truthy eventId = true ->
      (truthy m = false \/ m = Array []) ->
      App eventId st0 = Nenhuma_midia).
Proof.
  intros st0 Hm Hshort. subst st0.
  unfold fetchMedia_settled, fetchMedia_try. simpl. rewrite Hm. simpl.
  assert (Hmedia : exists items,
            or m (Array []) = Array items /\ (length items <= 1)%nat
            /\ ((truthy m = false \/ m = Array []) -> items = [])).
  { destruct Hshort as [Hf | (items & -> & Hlen)].
    - exists []. unfold or. rewrite Hf. split_and!; auto.
    - exists items. split_and!; [reflexivity|exact Hlen|].
      intros [Hf | Heq]; [discriminate|congruence]. }
  destruct Hmedia as (items & -> & Hlen & Hempty).
  assert (Hnone : advance_timer (Array items) = None).
  { unfold advance_timer, greater_than. simpl.
    destruct (N.ltb_spec 1 (N.of_nat (length items))); [lia|reflexivity]. }
  split_and!.
  - exact Hnone.
  - intros k. induction k as [|k IH]; [reflexivity|].
    rewrite Nat.iter_succ, IH. unfold tick.
    destruct (draws _); [|reflexivity].
    cbn [media setMedia]. rewrite Hnone. reflexivity.
  - intros Hev Hno. rewrite (Hempty Hno). unfold App. simpl.
    rewrite Hev. reflexivity.
Qed.

(** X9: with a fetched list of n >= 1 items that can all be drawn, after k
    ticks the slideshow shows the cell of item k mod n, with the counter
    'k mod n + 1 / n'. *)
Theorem slideshow_position (eventId data : value) (items : list value)
    (cells : list element) (k : nat) :
  let n := N.of_nat (length items) in
  let st0 :=
    fetchMedia_settled (Resolved {| ok := true; json := Some data |}) init in
  get data (lit "media") = Some (Array items) ->
  mapM media_cell items = Some cells ->
  1 <= n ->
  truthy eventId = true ->
  exists cell,
    cells !! N.to_nat (N.of_nat k mod n) = Some cell
    /\ App eventId (Nat.iter k (tick eventId) st0)
       = Slide cell
           (NumberToString (Num false (N.of_nat k mod n + 1))
            ++ lit " / " ++ NumberToString (Num false n)).
Proof.
  intros n st0 Hdata Hcells Hn Hev.
  assert (Hst0 : st0 = setMedia (Array items) init)
    by (apply fetched_media; assumption).
  assert (Hpos : 0 < N.of_nat (length items)) by (fold n; lia).
  assert (He0 : truthy (error st0) = false) by (rewrite Hst0; reflexivity).
  destruct (ticks_array eventId items cells st0 k) as [Hm Hc];
    [exact Hev | exact He0 | rewrite Hst0; reflexivity | exact Hcells
    | rewrite Hst0; reflexivity | exact Hpos |].
  fold n in Hc.
  assert (Hlt : N.of_nat k mod n < n) by (apply N.mod_lt; lia).
  assert (Herr : truthy (error (Nat.iter k (tick eventId) st0)) = false)
    by (rewrite ticks_error; exact He0).
  destruct (slide_returned eventId items cells _ Hev Herr Hm Hcells)
    as (cell & Hcell & Hview); [rewrite Hc; exact Hlt|].
  rewrite Hc in Hcell, Hview. exists cell. split; [exact Hcell|].
  exact Hview.
Qed.

End SlideshowEdges.

(** The slideshow opened without [?event=...]. *)
Lemma slideshow_without_event_witness :
  truthy Null = false
  /\ snd (@Slideshow.mount Samples.engine Samples.build Null) = [].
Proof.
  split; [reflexivity|].
  apply (@slideshow_without_event Samples.engine Samples.build Null).
  reflexivity.
Defined.

(** A 404 with [{ "error": "Evento não encontrado" }], two ticks later. *)
Lemma slideshow_error_shown_witness :
  let e := Str RegisterSteps.Evento_nao_encontrado in
  let res := {| ok := false;
                json := Some (Object (<[lit "error" := e]> ∅)) |} in
  ok res = false
  /\ @Slideshow.App Samples.engine Samples.build (Str (lit "e1"))
       (Nat.iter 2 (@Slideshow.tick Samples.engine Samples.build
                      (Str (lit "e1")))
          (Slideshow.fetchMedia_settled (Resolved res) Slideshow.init))
     = Slideshow.ErrorText e.
Proof.
  split; [reflexivity|].
  destruct (@slideshow_error_shown Samples.engine Samples.build
              (Str (lit "e1"))
              (Resolved
                 {| ok := false;
                    json := Some
                      (Object (<[lit "error" :=
                                 Str RegisterSteps.Evento_nao_encontrado]>
                                 ∅)) |}) 2)
    as (_ & Hshown).
  destruct (Hshown _ _ _ eq_refl eq_refl eq_refl eq_refl) as (Hview & _).
  exact Hview.
Defined.

(** A body [{ "media": [] }]. *)
Lemma slideshow_short_list_witness :
  let data := Samples.media_body [] in
  get data (lit "media") = Some (Array [])
  /\ @Slideshow.App Samples.engine Samples.build (Str (lit "e1"))
       (Slideshow.fetchMedia_settled
          (Resolved {| ok := true; json := Some data |}) Slideshow.init)
     = Slideshow.Nenhuma_midia.
Proof.
  split; [reflexivity|].
  destruct (@slideshow_short_list Samples.engine Samples.build
              (Str (lit "e1")) (Samples.media_body []) (Array []) eq_refl)
    as (_ & _ & Hview).
  - right. exists []. split; [reflexivity|]. simpl. lia.
  - apply Hview; [reflexivity|right; reflexivity].
Defined.

(** The three sample uploads, four ticks on: the second is on screen. *)
Lemma slideshow_position_witness :
  let data := Samples.media_body Samples.three_uploads in
  exists cells cell,
    mapM (@media_cell Samples.engine Samples.build) Samples.three_uploads
    = Some cells
    /\ cells !! 1%nat = Some cell
    /\ @Slideshow.App Samples.engine Samples.build (Str (lit "e1"))
         (Nat.iter 4 (@Slideshow.tick Samples.engine Samples.build
                        (Str (lit "e1")))
            (Slideshow.fetchMedia_settled
               (Resolved {| ok := true; json := Some data |})
               Slideshow.init))
       = Slideshow.Slide cell (lit "2 / 3").
Proof.
  assert (Hcells : exists cells,
            mapM (@media_cell Samples.engine Samples.build)
              Samples.three_uploads = Some cells)
    by (eexists; vm_compute; reflexivity).
  destruct Hcells as (cells & Hcells).
  destruct (@slideshow_position Samples.engine Samples.build
              (Str (lit "e1")) (Samples.media_body Samples.three_uploads)
              Samples.three_uploads cells 4 eq_refl Hcells)
    as (cell & Hcell & Hview); [simpl; lia|reflexivity|].
  exists cells, cell. split_and!; [exact Hcells|exact Hcell|exact Hview].
Defined.

(** ** The dashboard's session *)

Section DashboardSession.
Context `{Engine} `{Build}.
Import Dashboard.

(** Logged out: no truthy token in the state, nothing under 'tp_token'. *)
Lemma logged_out_step (w : world) (a : action) :
  truthy (token w) = false -> localStorage w !! tp_token = None ->
  (forall o, a <> LoginSettled o) ->
  truthy (token (fst (step w a))) = false
  /\ localStorage (fst (step w a)) !! tp_token = None.
Proof.
  intros Htok Hls Hnot.
  destruct (step_token w a)
    as [(-> & ->) | [(-> & ->) | [(-> & ->)
       | (res & data & tok & -> & _)]]].
  - auto.
  - unfold getItem. rewrite Hls. auto.
  - split; [reflexivity|apply lookup_delete_eq].
  - destruct (Hnot (Resolved res)). reflexivity.
Qed.

Lemma logged_out_run (acts : list action) (w : world) :
  truthy (token w) = false -> localStorage w !! tp_token = None ->
  Forall (fun a => forall o, a <> LoginSettled o) acts ->
  truthy (token (fst (run w acts))) = false
  /\ forall r ls', (r, ls') ∈ snd (run w acts) -> ~ protected r.
Proof.
  revert w. induction acts as [|a acts IH]; intros w Htok Hls Hacts.
  - split; [exact Htok|]. intros r ls' Hr. inversion Hr.
  - inversion Hacts as [|? ? Ha Hacts']; subst. simpl.
    destruct (logged_out_step w a Htok Hls Ha) as [Htok1 Hls1].
    pose proof (step_sends_which w a) as Hsends.
    destruct (step w a) as [w1 sent1].
    destruct (IH w1 Htok1 Hls1 Hacts') as [IHtok IHsent].
    destruct (run w1 acts) as [w2 sent2].
    cbn [fst snd] in *. split; [exact IHtok|].
    intros r ls' Hr. apply elem_of_app in Hr as [Hr | Hr]; [|eauto].
    apply list_elem_of_fmap in Hr as (r' & Heq & Hr').
    injection Heq as <- ->.
    destruct (Hsends r Hr') as [-> | (Habs & _)];
      [apply login_not_protected|congruence].
Qed.

(** X10: [logout] removes 'tp_token' from [localStorage] and nothing
    else, and leaves the login form on screen; from then on, until a login
    settles, the login form stays on screen, across reloads too, and no
    request goes to an events endpoint. *)
Theorem logout_ends_session (w : world) (acts : list action) :
  Forall (fun a => forall o, a <> LoginSettled o) acts ->
  localStorage (logout w) !! tp_token = None
  /\ (forall key, key <> tp_token ->
        localStorage (logout w) !! key = localStorage w !! key)
  /\ on_screen (logout w) = login_screen
  /\ on_screen (fst (run (logout w) acts)) = login_screen
  /\ forall r ls', (r, ls') ∈ snd (run (logout w) acts) -> ~ protected r.
Proof.
  intros Hacts.
  assert (Hls : localStorage (logout w) !! tp_token = None)
    by apply lookup_delete_eq.
  destruct (logged_out_run acts (logout w) eq_refl Hls Hacts) as [Htok Hsent].
  split_and!.
  - exact Hls.
  - intros key Hkey. simpl. apply lookup_delete_ne. congruence.
  - reflexivity.
  - unfold on_screen. rewrite Htok. reflexivity.
  - exact Hsent.
Qed.

(** X11: an OK login stores [String(data.token)] under 'tp_token', and a
    reload takes the token back from there: the dashboard is logged in
    again with that string and fetches the events with it.  When the body
    has no token, or [null], the login form stays on screen, and yet
    'undefined' or 'null' is stored: after a reload the dashboard is logged
    in with it. *)
Theorem login_survives_reload (w : world) (res : response)
    (data tok : value) :
  ok res = true -> json res = Some data ->
  get data (lit "token") = Some tok ->
  let w1 := fst (step w (LoginSettled (Resolved res))) in
  let w2 := fst (step w1 Reload) in
  token w1 = tok
  /\ localStorage w1 !! tp_token = Some (ToString tok)
  /\ token w2 = Str (ToString tok)
  /\ snd (step w1 Reload)
     = (if truthy (Str (ToString tok))
        then [fetchEvents_request (Str (ToString tok))] else [])
  /\ (tok = Undefined \/ tok = Null ->
      on_screen w1 = login_screen
      /\ on_screen w2 = events_screen
      /\ header (lit "Authorization") (fetchEvents_request (token w2))
         = Some (lit "Bearer " ++ ToString tok)
      /\ snd (step w1 Reload) = [fetchEvents_request (token w2)]).
Proof.
  intros Hok Hj Ht w1 w2.
  assert (Hw1 : step w (LoginSettled (Resolved res))
                = handleLogin_settled (Resolved res) w)
    by (unfold step; destruct (on_screen w); reflexivity).
  assert (Htok1 : token w1 = tok
                  /\ localStorage w1 = <[tp_token := ToString tok]>
                                         (localStorage w)).
  { unfold w1. rewrite Hw1. unfold handleLogin_settled, handleLogin_try.
    simpl. rewrite Hj. simpl. rewrite Hok, Ht. simpl. auto. }
  destruct Htok1 as [Htok1 Hls1].
  assert (Hstored : localStorage w1 !! tp_token = Some (ToString tok))
    by (rewrite Hls1; apply lookup_insert_eq).
  assert (Hreload : step w1 Reload
                    = (mounted (localStorage w1),
                       token_effect (mounted (localStorage w1))))
    by (unfold step; destruct (on_screen w1); reflexivity).
  assert (Htok2 : token w2 = Str (ToString tok)).
  { unfold w2. rewrite Hreload. simpl. unfold getItem. rewrite Hstored.
    reflexivity. }
  assert (Hsent : snd (step w1 Reload)
                  = (if truthy (Str (ToString tok))
                     then [fetchEvents_request (Str (ToString tok))]
                     else [])).
  { rewrite Hreload. unfold token_effect. cbn [snd token mounted].
    unfold getItem. rewrite Hstored. reflexivity. }
  split_and!; try assumption.
  intros Hmissing.
  assert (Htruthy : truthy tok = false /\ truthy (Str (ToString tok)) = true)
    by (destruct Hmissing as [-> | ->]; split; reflexivity).
  destruct Htruthy as [Hf Htr]. split_and!.
  - unfold on_screen. rewrite Htok1, Hf. reflexivity.
  - unfold on_screen. rewrite Htok2, Htr. unfold w2. rewrite Hreload.
    reflexivity.
  - rewrite Htok2. reflexivity.
  - rewrite Hsent, Htr, Htok2. reflexivity.
Qed.

(** X12: a login that does not succeed (the fetch throws, the body cannot
    be read, the response is not OK, or the body is [null]) stores nothing,
    leaves the token, the name and the password typed as they are, sends
    nothing, and sets an error, for which the form has a paragraph: 'Erro
    de conexão' when something threw, else the value under 'error' when
    truthy and 'Credenciais inválidas' otherwise.  A string is a child
    React draws; an object, or an array with an object in it, is one it
    throws at.  A login that succeeds empties the password and keeps the
    name. *)
Theorem login_outcomes (w : world) (o : outcome) :
  let w' := fst (handleLogin_settled o w) in
  ((o = Rejected
    \/ exists res, o = Resolved res
         /\ (ok res = false
             \/ json res ≫= (fun data => get data (lit "token")) = None)) ->
   token w' = token w /\ localStorage w' = localStorage w
   /\ username w' = username w /\ password w' = password w
   /\ snd (handleLogin_settled o w) = []
   /\ error_paragraph w' = Some (error w'))
  /\ (o = Rejected -> error w' = Str Erro_de_conexao)
  /\ (forall res, o = Resolved res ->
        json res ≫= (fun data => get data (lit "error")) = None ->
        ok res = false -> error w' = Str Erro_de_conexao)
  /\ (forall res data e, o = Resolved res -> ok res = false ->
        json res = Some data -> get data (lit "error") = Some e ->
        error w' = (if truthy e then e else Str Credenciais_invalidas)
        /\ (forall s, e = Str s -> valid_child (error w') = true)
        /\ (valid_child e = false -> valid_child (error w') = false))
  /\ (forall res data tok, o = Resolved res -> ok res = true ->
        json res = Some data -> get data (lit "token") = Some tok ->
        password w' = [] /\ username w' = username w
        /\ error w' = error w).
Proof.
  assert (Hobject : forall v, valid_child v = false -> truthy v = true)
    by (intros v Hv; destruct v; try discriminate Hv; reflexivity).
  intros w'. subst w'. unfold handleLogin_settled, handleLogin_try.
  split_and!.
  - intros [-> | (res & -> & Hfail)]; simpl; [auto 10|].
    destruct (json res) as [data|]; simpl; [|auto 10].
    destruct (ok res) eqn:Hok.
    + destruct Hfail as [Habs | Hnone]; [discriminate|].
      simpl in Hnone. rewrite Hnone. simpl. auto 10.
    + destruct (get data (lit "error")) as [e|]; simpl; [|auto 10].
      split_and!; try reflexivity. unfold error_paragraph, or. simpl.
      destruct (truthy e) eqn:He; [rewrite He|]; reflexivity.
  - intros ->. reflexivity.
  - intros res -> Hnone Hok. simpl.
    destruct (json res) as [data|]; simpl in *; [|reflexivity].
    rewrite Hok, Hnone. reflexivity.
  - intros res data e -> Hok Hj He. simpl. rewrite Hj. simpl.
    rewrite Hok, He. simpl. unfold or. split_and!.
    + reflexivity.
    + intros s ->. destruct (truthy (Str s)); reflexivity.
    + intros Hv. rewrite (Hobject e Hv). exact Hv.
  - intros res data tok -> Hok Hj Ht. simpl. rewrite Hj. simpl.
    rewrite Hok, Ht. simpl. auto.
Qed.

(** X13: when the creation of an event succeeds, the body of the answer
    is put at the end of the list of events and the form's state goes back
    to the blank one; when it does not, list and form keep what they had
    and the error is set: to 'Erro ao criar evento' when something threw,
    else to the value under 'error' when truthy and to 'Não foi possível
    criar o evento' otherwise.  Either way the token and the storage
    stay.  (What is then drawn is no part of this.) *)
Theorem create_event_outcomes (w : world) (o : outcome) :
  let w' := handleCreateEvent_settled o w in
  token w' = token w /\ localStorage w' = localStorage w
  /\ (forall res data, o = Resolved res -> ok res = true ->
        json res = Some data ->
        newEvent w' = blank_event /\ error w' = error w
        /\ forall items, events w = Array items ->
             events w' = Array (items ++ [data]))
  /\ (forall res data e, o = Resolved res -> ok res = false ->
        json res = Some data -> get data (lit "error") = Some e ->
        newEvent w' = newEvent w /\ events w' = events w
        /\ error w' = if truthy e then e else Str Nao_foi_possivel_criar)
  /\ ((o = Rejected
       \/ exists res, o = Resolved res
            /\ (json res = None
                \/ ok res = false
                   /\ json res ≫= (fun data => get data (lit "error"))
                      = None)) ->
      newEvent w' = newEvent w /\ events w' = events w
      /\ error w' = Str Erro_ao_criar_evento).
Proof.
  intros w'. subst w'.
  destruct (handleCreateEvent_settled_keeps o w) as (Ht & Hl & _).
  split_and!; try assumption;
    unfold handleCreateEvent_settled, handleCreateEvent_try.
  - intros res data -> Hok Hj. simpl. rewrite Hj. simpl. rewrite Hok.
    split_and!; [reflexivity|reflexivity|].
    intros items Hitems. simpl. unfold append_event. rewrite Hitems.
    reflexivity.
  - intros res data e -> Hok Hj He. simpl. rewrite Hj. simpl.
    rewrite Hok, He. auto.
  - intros [-> | (res & -> & [Hj | [Hok Hnone]])]; simpl; [auto| |].
    + rewrite Hj. auto.
    + destruct (json res) as [data|]; simpl in *; [|auto].
      rewrite Hok, Hnone. auto.
Qed.

(** X14: the token in the state and the [localStorage] change only on a
    reload, on a logout, or when an OK login settles: no other answer from
    the backend, not even a refusal of the token by /events, logs the
    administrator out. *)
Theorem session_changes_only_by (w : world) (a : action) :
  (token (fst (step w a)) <> token w
   \/ localStorage (fst (step w a)) <> localStorage w) ->
  a = Reload \/ a = ClickSair
  \/ exists res, a = LoginSettled (Resolved res) /\ ok res = true.
Proof.
  intros Hchanged.
  assert (Hsame : token (fst (step w a)) = token w ->
                  localStorage (fst (step w a)) = localStorage w -> False)
    by (intros E1 E2; destruct Hchanged; auto).
  revert Hsame. unfold step. destruct a; auto.
  - destruct (on_screen w); intros Hsame; destruct Hsame; reflexivity.
  - destruct (on_screen w); intros Hsame; destruct Hsame; reflexivity.
  - destruct (on_screen w); intros Hsame; destruct Hsame; reflexivity.
  - intros Hsame.
    destruct (handleLogin_settled_cases o w)
      as [(res & data & tok & -> & Hok & _) | (E1 & E2 & _)].
    + right; right. eauto.
    + destruct (on_screen w); destruct (Hsame E1 E2).
  - destruct (fetchEvents_settled_keeps o w) as (E1 & E2 & _).
    destruct (on_screen w); intros Hsame; destruct (Hsame E1 E2).
  - destruct (on_screen w); intros Hsame; destruct Hsame; reflexivity.
  - destruct (on_screen w); intros Hsame; destruct Hsame; reflexivity.
  - destruct (on_screen w); intros Hsame; destruct Hsame; reflexivity.
  - destruct (on_screen w); intros Hsame; destruct Hsame; reflexivity.
  - destruct (on_screen w); intros Hsame; destruct Hsame; reflexivity.
  - destruct (handleCreateEvent_settled_keeps o w) as (E1 & E2 & _).
    destruct (on_screen w); intros Hsame; destruct (Hsame E1 E2).
  - destruct (loadAnalytics_keeps eventId o1 o2 w) as (E1 & E2 & _).
    destruct (on_screen w); intros Hsame;
      first [destruct (Hsame E1 E2) | destruct Hsame; reflexivity].
  - destruct (on_screen w); try (intros Hsame; destruct Hsame; reflexivity).
    destruct (analytics w); intros Hsame; destruct Hsame; reflexivity.
Qed.

End DashboardSession.

(** ** The analytics *)

Section AnalyticsFacts.
Context `{Engine} `{Build}.
Import Dashboard.

Lemma count_uploads_sum (items : list value) (p v p' v' : N) :
  count_uploads items p v = Some (p', v') ->
  p' + v' = p + v + N.of_nat (length items).
Proof.
  revert p v. induction items as [|u items IH]; intros p v; simpl.
  - intros Heq. injection Heq as <- <-. lia.
  - destruct (get u (lit "filename")) as [f|]; simpl; [|discriminate].
    destruct (test dashboard_video_re f); intros Hc; apply IH in Hc; lia.
Qed.

Lemma count_uploads_None (items : list value) (p v : N) :
  count_uploads items p v = None
  <-> exists u, u ∈ items /\ (u = Undefined \/ u = Null).
Proof.
  revert p v. induction items as [|u items IH]; intros p v; simpl.
  - split; [discriminate|]. intros (u & Hin & _). inversion Hin.
  - destruct (get u (lit "filename")) as [f|] eqn:Hf; simpl.
    + assert (Hu : u <> Undefined /\ u <> Null)
        by (split; intros ->; discriminate).
      destruct (test dashboard_video_re f); rewrite IH; split;
        try (intros (u' & Hin & Hbad); exists u'; split;
             [right; exact Hin|exact Hbad]);
        intros (u' & Hin & Hbad);
        apply elem_of_cons in Hin as [-> | Hin];
        try (destruct Hu; destruct Hbad; contradiction); eauto.
    + split; [intros _|reflexivity]. exists u. split; [left|].
      destruct u; try discriminate; auto.
Qed.

(** X15: when [loadAnalytics] has its figures for uploads that came as an
    array, the photos and the videos add up to the number of uploads, which
    is the total shown; the participants shown are the length of the
    event's array of participants, and 0 when the event has nothing truthy
    under 'participants'. *)
Theorem analytics_figures (evtData : value) (items : list value)
    (a : analytics_data) :
  analytics_of evtData (Array items) = Some a ->
  photos a + videos a = N.of_nat (length items)
  /\ totalUploads a = Number (Num false (N.of_nat (length items)))
  /\ event a = evtData
  /\ (forall ps, get evtData (lit "participants") = Some (Array ps) ->
        participants a = Number (Num false (N.of_nat (length ps))))
  /\ (forall p, get evtData (lit "participants") = Some p ->
        truthy p = false -> participants a = Number (Num false 0)).
Proof.
  unfold analytics_of. cbn [get_length mbind option_bind].
  destruct (count_uploads items 0 0) as [[p v]|] eqn:Hc; simpl;
    [|discriminate].
  destruct (get evtData (lit "participants")) as [ps|] eqn:Hp; simpl;
    [|discriminate].
  destruct (truthy ps) eqn:Ht.
  - destruct (get_length ps) as [len|] eqn:Hlen; simpl; [|discriminate].
    intros Heq. injection Heq as <-. simpl. split_and!.
    + apply count_uploads_sum in Hc. lia.
    + unfold or. simpl. destruct (N.of_nat (length items)); reflexivity.
    + reflexivity.
    + intros ps' Heq. injection Heq as ->. simpl in Hlen. congruence.
    + intros p' Heq. injection Heq as ->. congruence.
  - simpl. intros Heq. injection Heq as <-. simpl. split_and!.
    + apply count_uploads_sum in Hc. lia.
    + unfold or. simpl. destruct (N.of_nat (length items)); reflexivity.
    + reflexivity.
    + intros ps' Heq. injection Heq as ->. discriminate.
    + reflexivity.
Qed.

(** Stranded: the analytics are on screen and there are none. *)
Lemma stranded_step (w : world) (a : action) :
  activeView w = analytics_view -> analytics w = None ->
  a <> Reload ->
  activeView (fst (step w a)) = analytics_view
  /\ analytics (fst (step w a)) = None.
Proof.
  intros Hview Hnone Ha.
  assert (Hscr : on_screen w <> events_screen).
  { unfold on_screen. rewrite Hview.
    destruct (truthy (token w)); discriminate. }
  unfold step. destruct a; try contradiction;
    destruct (on_screen w); try contradiction; cbn [fst];
    rewrite ?Hnone; auto.
  all: try (unfold handleLogin_settled, handleLogin_try;
            destruct o as [|res]; simpl; auto;
            destruct (json res) as [data|]; simpl; auto;
            destruct (ok res); simpl;
            [destruct (get data (lit "token")); simpl; auto
            |destruct (get data (lit "error")); simpl; auto]; fail).
  all: try (unfold fetchEvents_settled; destruct o as [|res]; simpl; auto;
            destruct (ok res); simpl; auto;
            destruct (json res); simpl; auto; fail).
  all: try (unfold handleCreateEvent_settled, handleCreateEvent_try;
            destruct o as [|res]; simpl; auto;
            destruct (json res) as [data|]; simpl; auto;
            destruct (ok res); simpl; auto;
            destruct (get data (lit "error")); simpl; auto; fail).
Qed.

(** X16: [loadAnalytics] ends without analytics exactly when a fetch or
    the reading of a body fails, the event is [null], the uploads are no
    array, or an upload is [null] or [undefined]; if the first body cannot
    be read the second request is not sent.  The administrator is then left
    on 'Carregando estatísticas...', which has no button: until the page is
    reloaded no action brings the list of events back. *)
Theorem analytics_failure_strands (w : world) (eventId : value)
    (o1 o2 : outcome) (acts : list action) :
  let w' := fst (loadAnalytics eventId o1 o2 w) in
  (analytics w' = None
   <-> awaited o1 ≫= json = None
       \/ awaited o2 ≫= json = None
       \/ exists evtData uploadsData,
            awaited o1 ≫= json = Some evtData
            /\ awaited o2 ≫= json = Some uploadsData
            /\ (evtData = Null \/ evtData = Undefined
                \/ match uploadsData with
                   | Array items =>
                       exists u, u ∈ items /\ (u = Undefined \/ u = Null)
                   | _ => True
                   end))
  /\ (awaited o1 ≫= json = None ->
      snd (loadAnalytics eventId o1 o2 w)
      = [events_request (token w) (ToString eventId)])
  /\ (analytics w' = None ->
      Forall (fun a => a <> Reload) acts ->
      on_screen (fst (run w' acts)) <> events_screen
      /\ analytics (fst (run w' acts)) = None).
Proof.
  intros w'. split_and!.
  - subst w'. unfold loadAnalytics.
    destruct (awaited o1 ≫= json) as [evtData|]; cbn [fst analytics setAnalytics].
    2:{ split; auto. }
    destruct (awaited o2 ≫= json) as [uploadsData|]; simpl.
    2:{ split; auto. }
    assert (Hof : analytics_of evtData uploadsData = None
                  <-> evtData = Null \/ evtData = Undefined
                      \/ match uploadsData with
                         | Array items =>
                             exists u, u ∈ items
                                       /\ (u = Undefined \/ u = Null)
                         | _ => True
                         end).
    { unfold analytics_of.
      destruct uploadsData as [| |b|n|s|items|props]; simpl;
        try (split; auto; fail).
      destruct (count_uploads items 0 0) as [[p v]|] eqn:Hc; simpl.
      - assert (Hgood : ~ exists u, u ∈ items /\ (u = Undefined \/ u = Null)).
        { intros Hbad. apply (count_uploads_None items 0 0) in Hbad.
          congruence. }
        destruct evtData as [| |b|n|s|ps|props]; simpl;
          try (split; auto; fail);
          try (split; [discriminate|];
               intros [Habs | [Habs | Hbad]];
               [discriminate|discriminate|destruct (Hgood Hbad)]).
        destruct (truthy (default Undefined (props !! lit "participants")))
          eqn:Ht; simpl.
        + destruct (default Undefined (props !! lit "participants"));
            simpl in *; try discriminate;
            (split; [discriminate|];
             intros [Habs | [Habs | Hbad]];
             [discriminate|discriminate|destruct (Hgood Hbad)]).
        + split; [discriminate|].
          intros [Habs | [Habs | Hbad]];
            [discriminate|discriminate|destruct (Hgood Hbad)].
      - split; [intros _|reflexivity]. right; right.
        apply (count_uploads_None items 0 0). exact Hc. }
    rewrite Hof. split.
    + intros Hbad. right; right. exists evtData, uploadsData. auto.
    + intros [Habs | [Habs | (e & u & He & Hu & Hbad)]];
        [discriminate|discriminate|].
      injection He as <-. injection Hu as <-. exact Hbad.
  - intros Hnone. unfold loadAnalytics. rewrite Hnone. reflexivity.
  - intros Hnone Hacts.
    assert (Hview : activeView w' = analytics_view).
    { subst w'. unfold loadAnalytics.
      destruct (awaited o1 ≫= json); reflexivity. }
    clearbody w'. revert w' Hview Hnone.
    induction Hacts as [|a acts Ha _ IH]; intros w' Hview Hnone.
    + simpl. split; [|exact Hnone]. unfold on_screen. rewrite Hview.
      destruct (truthy (token w')); discriminate.
    + simpl. destruct (stranded_step w' a Hview Hnone Ha) as [Hv1 Hn1].
      destruct (step w' a) as [w1 sent1].
      specialize (IH w1 Hv1 Hn1).
      destruct (run w1 acts) as [w2 sent2]. exact IH.
Qed.

End AnalyticsFacts.

(** ** What the expiration field makes of a numeral *)

Section NumeralFacts.

Lemma digits_prefix_numeral (ds : list N) (rest : jsstring) :
  Forall (fun d => d < 10) ds ->
  match rest with
  | [] => True
  | c :: _ => is_decimal_digit c = false
  end ->
  digits_prefix 10 (map (fun d => 48 + d) ds ++ rest) = ds.
Proof.
  intros Hds Hrest. induction Hds as [|d ds Hd _ IH]; simpl.
  - destruct rest as [|c rest]; [reflexivity|]. simpl.
    rewrite (radix_digit_10 c Hrest). reflexivity.
  - unfold radix_digit, digit_value.
    assert (Hr : ((48 <=? 48 + d) && (48 + d <=? 57)) = true).
    { apply andb_true_iff. split; apply N.leb_le; lia. }
    rewrite Hr. replace (48 + d - 48) with d by lia.
    destruct (N.ltb_spec d 10); [|lia]. rewrite IH. reflexivity.
Qed.

(** X17: a numeral of value at most 2^53 (up to which the double the
    engine stores is the integer itself) typed into the expiration field,
    followed by nothing or by anything that does not begin with a digit,
    'x' or 'X', is stored as its value, whatever follows being cut off (so
    '1.5' gives 1 and '0.5' gives 30); with a '-' before it the value is
    stored negative; 30 stands in only when the value is zero. *)
Theorem expiration_of_numeral (ds : list N) (rest : jsstring)
    (e : Dashboard.new_event) :
  ds <> [] ->
  Forall (fun d => d < 10) ds ->
  mathInt 10 ds <= 2 ^ 53 ->
  match rest with
  | [] => True
  | c :: _ => is_decimal_digit c = false /\ c <> 120 /\ c <> 88
  end ->
  let numeral := map (fun d => 48 + d) ds ++ rest in
  let v := mathInt 10 ds in
  parseInt numeral = Num false v
  /\ parseInt (45 :: numeral) = Num true v
  /\ Dashboard.expiration_days (Dashboard.change_expiration numeral e)
     = (if v =? 0 then Dashboard.thirty else Number (Num false v))
  /\ Dashboard.expiration_days
       (Dashboard.change_expiration (45 :: numeral) e)
     = (if v =? 0 then Dashboard.thirty else Number (Num true v)).
Proof.
  intros Hne Hds _ Hrest numeral v.
  destruct ds as [|d ds]; [contradiction|].
  inversion Hds as [|? ? Hd Hds']; subst.
  assert (Hrest' : match rest with
                   | [] => True
                   | c :: _ => is_decimal_digit c = false
                   end) by (destruct rest; tauto).
  pose proof (digits_prefix_numeral (d :: ds) rest Hds Hrest') as Hprefix.
  assert (Hx : match map (fun d0 => 48 + d0) ds ++ rest with
               | x :: _ => (x =? 120) || (x =? 88) = false
               | [] => True
               end).
  { destruct ds as [|d' ds]; simpl.
    - destruct rest as [|c rest]; [exact I|].
      destruct Hrest as (_ & H120 & H88).
      apply orb_false_iff. split; apply N.eqb_neq; assumption.
    - inversion Hds' as [|? ? Hd' _]; subst.
      apply orb_false_iff. split; apply N.eqb_neq; lia. }
  assert (Hws : is_white_space (48 + d) = false).
  { unfold is_white_space.
    destruct (N.leb_spec 8192 (48 + d)); [lia|]. simpl.
    rewrite orb_false_r. apply bool_decide_eq_false.
    intros Hin. repeat (apply elem_of_cons in Hin as [Heq | Hin]; [lia|]).
    inversion Hin. }
  subst v numeral. change (map (fun d0 => 48 + d0) (d :: ds) ++ rest)
    with ((48 + d) :: (map (fun d0 => 48 + d0) ds ++ rest)) in *.
  set (v := mathInt 10 (d :: ds)).
  generalize dependent (map (fun d0 => 48 + d0) ds ++ rest).
  intros tl Hprefix Hx.
  assert (Hbody : forall negative,
    (let '(R, digits) :=
       match (48 + d) :: tl with
       | c0 :: x :: rest0 =>
           if (c0 =? 48) && ((x =? 120) || (x =? 88)) then (16, rest0)
           else (10, (48 + d) :: tl)
       | _ => (10, (48 + d) :: tl)
       end in
     match digits_prefix R digits with
     | [] => NaN
     | ds0 => Num negative (mathInt R ds0)
     end) = Num negative v).
  { intros negative. destruct tl as [|x tl]; cbv iota.
    - rewrite Hprefix. reflexivity.
    - rewrite Hx, andb_false_r. cbv iota. rewrite Hprefix. reflexivity. }
  assert (Hplain : parseInt ((48 + d) :: tl) = Num false v).
  { unfold parseInt. cbn [trim_start]. rewrite Hws. cbv beta iota zeta.
    destruct (N.eqb_spec (48 + d) 45); [lia|].
    destruct (N.eqb_spec (48 + d) 43); [lia|].
    exact (Hbody false). }
  assert (Hminus : parseInt (45 :: (48 + d) :: tl) = Num true v).
  { unfold parseInt. cbn [trim_start].
    change (is_white_space 45) with false. cbv beta iota zeta.
    rewrite N.eqb_refl. exact (Hbody true). }
  split_and!; [exact Hplain|exact Hminus|..];
    unfold Dashboard.change_expiration; cbn [Dashboard.expiration_days];
    rewrite ?Hplain, ?Hminus; unfold or; cbn [truthy];
    destruct (v =? 0); reflexivity.
Qed.

End NumeralFacts.

(** '1.5' typed into the field gives 1. *)
Lemma expiration_of_numeral_witness :
  [1] <> [] /\ Forall (fun d => d < 10) [1] /\ mathInt 10 [1] <= 2 ^ 53
  /\ Dashboard.expiration_days
       (Dashboard.change_expiration (lit "1.5") Dashboard.blank_event)
     = Number (Num false 1).
Proof.
  assert (Hne : [1] <> ([] : list N)) by discriminate.
  assert (Hds : Forall (fun d => d < 10) [1]) by (repeat constructor).
  assert (Hv : mathInt 10 [1] <= 2 ^ 53) by (vm_compute; discriminate).
  split; [exact Hne|]. split; [exact Hds|]. split; [exact Hv|].
  destruct (expiration_of_numeral [1] (lit ".5") Dashboard.blank_event
              Hne Hds Hv) as (_ & _ & Hstored & _).
  - vm_compute. split; [reflexivity|]. split; discriminate.
  - exact Hstored.
Defined.

(** ** The earlier dashboard *)

Section EarlierDashboard.
Context `{Engine} `{Build}.
Import Dashboard.

Lemma forget_step (w : world) (a : action) :
  activeView w = events_view ->
  Dashboard0.no_analytics a ->
  Dashboard0.step (Dashboard0.forget w) a
  = (Dashboard0.forget (fst (step w a)), snd (step w a))
  /\ activeView (fst (step w a)) = events_view.
Proof.
  intros Hview Ha.
  assert (Hscr : on_screen w
                 = if truthy (token w) then events_screen else login_screen).
  { unfold on_screen. rewrite Hview. destruct (truthy (token w)); reflexivity. }
  unfold step, Dashboard0.step. rewrite Hscr.
  change (Dashboard0.token (Dashboard0.forget w)) with (token w).
  destruct a; try contradiction;
    destruct (truthy (token w)) eqn:Htok; cbn [fst snd];
    try (split; [reflexivity|assumption || reflexivity]).
  all: try (unfold handleLogin_settled, Dashboard0.handleLogin_settled,
              handleLogin_try, Dashboard0.handleLogin_try;
            destruct o as [|res]; simpl; auto;
            destruct (json res) as [data|]; simpl; auto;
            destruct (ok res); simpl;
            [destruct (get data (lit "token")) as [tok|]; simpl; auto;
             destruct (Object_is (token w) tok); auto
            |destruct (get data (lit "error")); simpl; auto]; fail).
  all: try (unfold fetchEvents_settled, Dashboard0.fetchEvents_settled;
            destruct o as [|res]; simpl; auto;
            destruct (ok res); simpl; auto;
            destruct (json res); simpl; auto; fail).
  all: try (unfold handleCreateEvent_settled,
              Dashboard0.handleCreateEvent_settled,
              handleCreateEvent_try, Dashboard0.handleCreateEvent_try;
            destruct o as [|res]; simpl; auto;
            destruct (json res) as [data|]; simpl; auto;
            destruct (ok res); simpl; auto;
            destruct (get data (lit "error")); simpl; auto; fail).
Qed.

Lemma forget_run (acts : list action) (w : world) :
  activeView w = events_view ->
  Forall Dashboard0.no_analytics acts ->
  Dashboard0.run (Dashboard0.forget w) acts
  = (Dashboard0.forget (fst (run w acts)), snd (run w acts)).
Proof.
  intros Hview Hacts. revert w Hview.
  induction Hacts as [|a acts Ha _ IH]; intros w Hview; [reflexivity|].
  simpl. destruct (forget_step w a Hview Ha) as [Hstep Hview1].
  rewrite Hstep. destruct (step w a) as [w1 sent1]. cbn [fst snd] in *.
  rewrite (IH w1 Hview1). destruct (run w1 acts) as [w2 sent2].
  reflexivity.
Qed.

(** X18: the earlier dashboard (src/unnamed/part_000) and the later one
    do the same in every session in which 'Ver' is not clicked: the same
    requests leave, with the same [localStorage] at each, and the earlier
    one ends in the state of the later one less its three fields for the
    analytics. *)
Theorem earlier_dashboard_agrees (ls : gmap jsstring jsstring)
    (acts : list action) :
  Forall Dashboard0.no_analytics acts ->
  Dashboard0.session ls acts
  = (Dashboard0.forget (fst (session ls acts)), snd (session ls acts)).
Proof.
  intros Hacts. unfold Dashboard0.session, session.
  change (Dashboard0.mounted ls) with (Dashboard0.forget (mounted ls)).
  apply forget_run; [reflexivity|].
  constructor; [exact I|exact Hacts].
Qed.

End EarlierDashboard.

(** The sample session has no click on 'Ver': the earlier dashboard does
    as the later one. *)
Lemma earlier_dashboard_agrees_witness :
  Forall Dashboard0.no_analytics Samples.admin_session
  /\ @Dashboard0.session Samples.engine Samples.build ∅ Samples.admin_session
     = (Dashboard0.forget
          (fst (@Dashboard.session Samples.engine Samples.build ∅
                  Samples.admin_session)),
        snd (@Dashboard.session Samples.engine Samples.build ∅
               Samples.admin_session)).
Proof.
  assert (Hacts : Forall Dashboard0.no_analytics Samples.admin_session)
    by (repeat constructor).
  split; [exact Hacts|].
  exact (@earlier_dashboard_agrees Samples.engine Samples.build ∅
           Samples.admin_session Hacts).
Defined.

(** ** The further properties on sample data *)

(** A 404 whose body holds an object under 'error' leaves the page
    empty. *)
Lemma gallery_settles_witness :
  Microsite.draws
    (@Microsite.Gallery_settled Samples.engine Samples.build
       (Resolved {| ok := false;
                    json := Some (Object (<[lit "error" := Object ∅]> ∅)) |}))
  = false.
Proof.
  apply (proj2 (@gallery_settles Samples.engine Samples.build _)).
  right.
  exists {| ok := false;
            json := Some (Object (<[lit "error" := Object ∅]> ∅)) |},
    (Object (<[lit "error" := Object ∅]> ∅)), (Object ∅).
  split_and!; reflexivity.
Defined.

(** After the sample session and a logout, typing, a click on 'Entrar' and
    a reload leave the login form on screen. *)
Lemma logout_ends_session_witness :
  let w := fst (@Dashboard.session Samples.engine Samples.build ∅
                  Samples.admin_session) in
  let acts := [Dashboard.TypeUsername (lit "admin"); Dashboard.ClickEntrar;
               Dashboard.Reload] in
  Forall (fun a => forall o, a <> Dashboard.LoginSettled o) acts
  /\ Dashboard.on_screen w = Dashboard.events_screen
  /\ Dashboard.on_screen
       (fst (@Dashboard.run Samples.engine Samples.build
               (Dashboard.logout w) acts))
     = Dashboard.login_screen.
Proof.
  intros w acts.
  assert (Hacts : Forall (fun a => forall o, a <> Dashboard.LoginSettled o)
                    acts)
    by (repeat constructor; discriminate).
  split; [exact Hacts|]. split; [vm_compute; reflexivity|].
  destruct (@logout_ends_session Samples.engine Samples.build w acts Hacts)
    as (_ & _ & _ & Hscreen & _).
  exact Hscreen.
Defined.

(** The sample login stores 'tok123', and a reload fetches the events with
    it. *)
Lemma login_survives_reload_witness :
  let res := {| ok := true;
                json := Some (Object (<[lit "token" := Str (lit "tok123")]>
                                        ∅)) |} in
  let w := Dashboard.mounted ∅ in
  let w1 := fst (@Dashboard.step Samples.engine Samples.build w
                   (Dashboard.LoginSettled (Resolved res))) in
  ok res = true
  /\ Dashboard.localStorage w1 !! Dashboard.tp_token = Some (lit "tok123")
  /\ snd (@Dashboard.step Samples.engine Samples.build w1 Dashboard.Reload)
     = [@Dashboard.fetchEvents_request Samples.engine Samples.build
        (Str (lit "tok123"))].
Proof.
  intros res w w1. split; [reflexivity|].
  destruct (@login_survives_reload Samples.engine Samples.build w res
              (Object (<[lit "token" := Str (lit "tok123")]> ∅))
              (Str (lit "tok123")) eq_refl eq_refl eq_refl)
    as (_ & Hstored & _ & Hsent & _).
  split; [exact Hstored|exact Hsent].
Defined.

(** A login whose fetch throws shows 'Erro de conexão'. *)
Lemma login_outcomes_witness :
  let w := Dashboard.mounted ∅ in
  Dashboard.error
    (fst (@Dashboard.handleLogin_settled Samples.engine Samples.build
            Rejected w))
  = Str Microsite.Erro_de_conexao.
Proof.
  intros w.
  destruct (@login_outcomes Samples.engine Samples.build w Rejected)
    as (_ & Hthrown & _).
  exact (Hthrown eq_refl).
Defined.

(** A creation whose fetch throws keeps the form and shows 'Erro ao criar
    evento'. *)
Lemma create_event_outcomes_witness :
  let w := fst (@Dashboard.session Samples.engine Samples.build ∅
                  Samples.admin_session) in
  let w' := Dashboard.handleCreateEvent_settled Rejected w in
  Dashboard.newEvent w' = Dashboard.newEvent w
  /\ Dashboard.events w' = Dashboard.events w
  /\ Dashboard.error w' = Str Dashboard.Erro_ao_criar_evento.
Proof.
  intros w w'.
  destruct (create_event_outcomes w Rejected)
    as (_ & _ & _ & _ & Hfailed).
  apply Hfailed. left. reflexivity.
Defined.

(** The sample login changes the token, and it is an OK login. *)
Lemma session_changes_only_by_witness :
  let w := Dashboard.mounted ∅ in
  let a := Dashboard.LoginSettled Samples.login_ok in
  Dashboard.token (fst (@Dashboard.step Samples.engine Samples.build w a))
  <> Dashboard.token w
  /\ (a = Dashboard.Reload \/ a = Dashboard.ClickSair
      \/ exists res,
           a = Dashboard.LoginSettled (Resolved res) /\ ok res = true).
Proof.
  intros w a.
  assert (Hchanged :
    Dashboard.token (fst (@Dashboard.step Samples.engine Samples.build w a))
    <> Dashboard.token w) by (vm_compute; discriminate).
  split; [exact Hchanged|].
  apply (@session_changes_only_by Samples.engine Samples.build w a).
  left. exact Hchanged.
Defined.

(** The three sample uploads of an event with two participants: one photo
    and two videos. *)
Lemma analytics_figures_witness :
  let evtData := Object (<[lit "participants" := Array [Null; Null]]> ∅) in
  let a := {| Dashboard.event := evtData;
              Dashboard.totalUploads := Number (Num false 3);
              Dashboard.photos := 1; Dashboard.videos := 2;
              Dashboard.participants := Number (Num false 2) |} in
  @Dashboard.analytics_of Samples.engine evtData (Array Samples.three_uploads)
  = Some a
  /\ Dashboard.photos a + Dashboard.videos a = 3.
Proof.
  intros evtData a.
  assert (Ha : @Dashboard.analytics_of Samples.engine evtData
                 (Array Samples.three_uploads) = Some a)
    by (vm_compute; reflexivity).
  split; [exact Ha|].
  destruct (@analytics_figures Samples.engine evtData Samples.three_uploads
              a Ha) as (Hsum & _).
  exact Hsum.
Defined.

(** After the sample session a click on 'Ver' whose first fetch throws
    leaves the administrator off the list of events, whatever is clicked
    next. *)
Lemma analytics_failure_strands_witness :
  let w := fst (@Dashboard.session Samples.engine Samples.build ∅
                  Samples.admin_session) in
  let w' := fst (@Dashboard.loadAnalytics Samples.engine Samples.build
                   (Number (Num false 1)) Rejected Rejected w) in
  let acts := [Dashboard.ClickVoltar; Dashboard.ClickCriar;
               Dashboard.FetchEventsSettled Rejected] in
  Dashboard.analytics w' = None
  /\ Forall (fun a => a <> Dashboard.Reload) acts
  /\ Dashboard.on_screen
       (fst (@Dashboard.run Samples.engine Samples.build w' acts))
     <> Dashboard.events_screen.
Proof.
  intros w w' acts.
  assert (Hnone : Dashboard.analytics w' = None) by reflexivity.
  assert (Hacts : Forall (fun a => a <> Dashboard.Reload) acts)
    by (repeat constructor; discriminate).
  split; [exact Hnone|]. split; [exact Hacts|].
  destruct (@analytics_failure_strands Samples.engine Samples.build w
              (Number (Num false 1)) Rejected Rejected acts)
    as (_ & _ & Hstranded).
  destruct (Hstranded Hnone Hacts) as [Hscreen _]. exact Hscreen.
Defined.

(** ** The end of a registration *)

Section RegistrationEnd.
Context `{Engine} `{Build}.
Variable eventId : value.
Import RegisterSteps RegisterScreens.

(** X19: when a registration settles, the last screen is returned, with:
    'Erro de conexão' when the fetch throws, the body cannot be read or is
    [null]; for an OK response the value under 'message', and 'Perfeito!
    Cadastro realizado. ...' when there is nothing truthy there; for
    another response the value under 'error', and 'Erro ao realizar
    cadastro' when there is nothing truthy there.  A string is shown as it
    is; an object, or an array with an object in it, makes React throw. *)
Theorem registration_outcome_shown (st : state) (o : outcome) :
  let st' := handleCapture_settled o st in
  step st' = done_step /\ submitting st' = false
  /\ ((o = Rejected
       \/ exists res, o = Resolved res
            /\ (json res = None \/ json res = Some Null
                \/ json res = Some Undefined)) ->
      Register st' = DoneScreen (Str Erro_de_conexao)
      /\ draws (Register st') = true)
  /\ (forall res data m, o = Resolved res -> ok res = true ->
        json res = Some data -> get data (lit "message") = Some m ->
        Register st' = DoneScreen (if truthy m then m else Str Perfeito)
        /\ (forall s, m = Str s -> draws (Register st') = true)
        /\ (valid_child m = false -> draws (Register st') = false))
  /\ (forall res data e, o = Resolved res -> ok res = false ->
        json res = Some data -> get data (lit "error") = Some e ->
        Register st'
        = DoneScreen
            (if truthy e then e
             else Str RegisterForm.Erro_ao_realizar_cadastro)
        /\ (forall s, e = Str s -> draws (Register st') = true)
        /\ (valid_child e = false -> draws (Register st') = false)).
Proof.
  intros st'. subst st'.
  assert (Hdone : forall st1,
    Register (setStreamRef false (setStep done_step (setSubmitting false st1)))
    = DoneScreen (if truthy (message st1) then message st1
                  else Str Perfeito)) by reflexivity.
  assert (Hobject : forall v, valid_child v = false -> truthy v = true)
    by (intros v Hv; destruct v; try discriminate Hv; reflexivity).
  unfold handleCapture_settled. rewrite Hdone.
  split_and!; try reflexivity; unfold handleCapture_try.
  - intros [-> | (res & -> & [Hj | [Hj | Hj]])]; simpl; rewrite ?Hj; simpl;
      try (split; reflexivity); destruct (ok res); split; reflexivity.
  - intros res data m -> Hok Hj Hm. simpl. rewrite Hj. simpl.
    rewrite Hok, Hm. simpl. split_and!.
    + reflexivity.
    + intros s ->. simpl. case_bool_decide; reflexivity.
    + intros Hv. rewrite (Hobject m Hv). exact Hv.
  - intros res data e -> Hok Hj He. simpl. rewrite Hj. simpl.
    rewrite Hok, He. simpl. unfold or. split_and!.
    + destruct (truthy e) eqn:Ht; [rewrite Ht|]; reflexivity.
    + intros s ->. simpl. case_bool_decide; simpl; [reflexivity|].
      case_bool_decide; [contradiction|reflexivity].
    + intros Hv. rewrite (Hobject e Hv). simpl. rewrite (Hobject e Hv).
      exact Hv.
Qed.

(** X21: the event's details play no part in the registration: from two
    states that differ at most in them, the same events send the same
    requests and lead to states that again differ at most in them, with
    the same screen once past the phone form.  So a visitor registers just
    the same when the event could not be loaded. *)
Theorem event_details_play_no_part (a b : state) (evs : list event) :
  RegisterWords.same_flow a b ->
  snd (run eventId a evs) = snd (run eventId b evs)
  /\ RegisterWords.same_flow (fst (run eventId a evs))
       (fst (run eventId b evs))
  /\ (step (fst (run eventId a evs)) <> phone_step ->
      Register (fst (run eventId a evs))
      = Register (fst (run eventId b evs))).
Proof.
  assert (Hsettled : forall o st,
    RegisterWords.same_flow (fetchEvent_settled o st) st).
  { intros o st. unfold fetchEvent_settled, fetchEvent_try.
    destruct o as [|res]; simpl; [repeat split|].
    destruct (json res) as [data|]; simpl; [|repeat split].
    destruct (ok res); simpl; [repeat split|].
    destruct (get data (lit "error")); simpl; repeat split. }
  assert (Htrans : forall x y z, RegisterWords.same_flow x y ->
            RegisterWords.same_flow y z -> RegisterWords.same_flow x z).
  { unfold RegisterWords.same_flow. intros x y z.
    intros (?&?&?&?&?&?) (?&?&?&?&?&?). split_and!; congruence. }
  assert (Hsym : forall x y, RegisterWords.same_flow x y ->
            RegisterWords.same_flow y x).
  { unfold RegisterWords.same_flow. intros x y (?&?&?&?&?&?).
    split_and!; congruence. }
  assert (Hon : forall ev x y, RegisterWords.same_flow x y ->
    snd (on eventId x ev) = snd (on eventId y ev)
    /\ RegisterWords.same_flow (fst (on eventId x ev))
         (fst (on eventId y ev))).
  { intros ev x y Hxy. destruct ev as [o|s|granted|granted|blob|o].
    - assert (Hx : snd (on eventId x (EventSettled o)) = []
                   /\ RegisterWords.same_flow
                        (fst (on eventId x (EventSettled o))) x).
      { unfold on. destruct (loadingEvent x); cbn [fst snd];
          (split; [reflexivity|]); [apply Hsettled|repeat split]. }
      assert (Hy : snd (on eventId y (EventSettled o)) = []
                   /\ RegisterWords.same_flow
                        (fst (on eventId y (EventSettled o))) y).
      { unfold on. destruct (loadingEvent y); cbn [fst snd];
          (split; [reflexivity|]); [apply Hsettled|repeat split]. }
      destruct Hx as [-> Hx], Hy as [-> Hy]. split; [reflexivity|].
      eapply Htrans; [exact Hx|]. eapply Htrans; [exact Hxy|].
      apply Hsym. exact Hy.
    - destruct x, y. destruct Hxy as (?&?&?&?&?&?). simpl in *. subst.
      unfold on. simpl. destruct step1; simpl; repeat split.
    - destruct x, y. destruct Hxy as (?&?&?&?&?&?). simpl in *. subst.
      unfold on, handlePhoneSubmit. simpl.
      destruct step1; simpl; try (repeat split; fail).
      case_bool_decide; simpl; [repeat split|].
      destruct phone1; [contradiction|]. destruct granted; repeat split.
    - destruct x, y. destruct Hxy as (?&?&?&?&?&?). simpl in *. subst.
      unfold on. simpl. destruct step1; simpl; try (repeat split; fail).
      destruct granted; repeat split.
    - destruct x, y. destruct Hxy as (?&?&?&?&?&?). simpl in *. subst.
      unfold on, handleCapture. simpl.
      destruct step1; simpl; try (repeat split; fail).
      destruct submitting1; simpl; [repeat split|].
      destruct blob; repeat split.
    - destruct x, y. destruct Hxy as (?&?&?&?&?&?). simpl in *. subst.
      unfold on. simpl.
      assert (Hrs : forall s1 s2,
        RegisterWords.same_flow s1 s2 ->
        RegisterWords.same_flow (handleCapture_settled o s1)
          (handleCapture_settled o s2)).
      { intros s1 s2 (?&?&Hm&?&?&?).
        unfold handleCapture_settled, handleCapture_try.
        destruct o as [|res]; simpl; [repeat split; assumption|].
        destruct (json res) as [data|]; simpl; [|repeat split; assumption].
        destruct (ok res); simpl.
        - destruct (get data (lit "message")); simpl;
            repeat split; assumption.
        - destruct (get data (lit "error")); simpl;
            repeat split; assumption. }
      destruct submitting1; cbn [fst snd];
        destruct step1; cbn [fst snd];
        (split; [reflexivity|]); try (repeat split; fail);
        apply Hrs; repeat split. }
  revert a b. induction evs as [|ev evs IH]; intros a b Hab.
  - simpl. split; [reflexivity|]. split; [exact Hab|].
    destruct Hab as (Hs & Hp & Hm & Hsub & _). intros Hstep.
    unfold Register. rewrite <- Hs.
    destruct (step a); [contradiction|rewrite Hsub, Hm|rewrite Hm];
      reflexivity.
  - simpl. destruct (Hon ev a b Hab) as [Hsent Hab1].
    destruct (on eventId a ev) as [a1 senta], (on eventId b ev) as [b1 sentb].
    cbn [fst snd] in *. specialize (IH a1 b1 Hab1).
    destruct (run eventId a1 evs) as [a2 senta2],
             (run eventId b1 evs) as [b2 sentb2].
    cbn [fst snd] in *. destruct IH as (Hsent2 & Hab2 & Hscr).
    subst. auto.
Qed.

(** X22: above the phone form stands 'Carregando evento...' until the
    fetch of the event settles, and then: 'Erro de conexão ao carregar
    evento' when the fetch throws, the body cannot be read, or a response
    that is not OK has [null] for body; for another response that is not OK
    the value under 'error', and 'Evento não encontrado' when nothing truthy
    is there; for an OK response the event's logo, name and phrase, with
    the commemorative logo and 'Cadastro' standing in, a [null] body giving
    just those two.  Strings are shown as they are; an object under
    'error', 'name' or 'phrase' makes React throw. *)
Theorem event_heading (o : outcome) :
  Register init = PhoneScreen Carregando_evento []
  /\ ((o = Rejected
       \/ exists res, o = Resolved res
            /\ (json res = None
                \/ ok res = false
                   /\ (json res = Some Null \/ json res = Some Undefined))) ->
      Register (fetchEvent_settled o init)
      = PhoneScreen (EventErrorText (Str Erro_ao_carregar_evento)) []
      /\ draws (Register (fetchEvent_settled o init)) = true)
  /\ (forall res data e, o = Resolved res -> ok res = false ->
        json res = Some data -> get data (lit "error") = Some e ->
        Register (fetchEvent_settled o init)
        = PhoneScreen
            (EventErrorText
               (if truthy e then e else Str Evento_nao_encontrado)) []
        /\ (forall s, e = Str s ->
            draws (Register (fetchEvent_settled o init)) = true)
        /\ (valid_child e = false ->
            draws (Register (fetchEvent_settled o init)) = false))
  /\ (forall res data, o = Resolved res -> ok res = true ->
        json res = Some data ->
        Register (fetchEvent_settled o init)
        = PhoneScreen
            (EventHeading
               (if truthy (optional_get data (lit "logo_url"))
                then optional_get data (lit "logo_url")
                else Str (lit "/logo_commemorative.png"))
               (if truthy (optional_get data (lit "name"))
                then optional_get data (lit "name")
                else Str (lit "Cadastro"))
               (optional_get data (lit "phrase"))) []
        /\ draws (Register (fetchEvent_settled o init))
           = valid_child (optional_get data (lit "name"))
             && valid_child (optional_get data (lit "phrase"))
        /\ (data = Null ->
            Register (fetchEvent_settled o init)
            = PhoneScreen
                (EventHeading (Str (lit "/logo_commemorative.png"))
                   (Str (lit "Cadastro")) Undefined) [])).
Proof.
  assert (Hobject : forall v, valid_child v = false -> truthy v = true)
    by (intros v Hv; destruct v; try discriminate Hv; reflexivity).
  split_and!; [reflexivity|..];
    unfold fetchEvent_settled, fetchEvent_try.
  - intros [-> | (res & -> & [Hj | [Hok [Hj | Hj]]])]; simpl;
      rewrite ?Hj; simpl; rewrite ?Hok; split; reflexivity.
  - intros res data e -> Hok Hj He. simpl. rewrite Hj. simpl.
    rewrite Hok, He. simpl. unfold Register. simpl. unfold or.
    split_and!.
    + destruct (truthy e) eqn:Ht; rewrite ?Ht; reflexivity.
    + intros s ->. simpl. case_bool_decide; simpl; [reflexivity|].
      case_bool_decide; [contradiction|reflexivity].
    + intros Hv. rewrite (Hobject e Hv). simpl. rewrite (Hobject e Hv).
      exact Hv.
  - intros res data -> Hok Hj. simpl. rewrite Hj. simpl. rewrite Hok.
    split_and!; [reflexivity| |intros ->; reflexivity].
    unfold Register. simpl. unfold or.
    destruct (truthy (optional_get data (lit "name"))) eqn:Hn;
      [reflexivity|].
    assert (Hname : valid_child (optional_get data (lit "name")) = true).
    { destruct (valid_child (optional_get data (lit "name"))) eqn:Hv;
        [reflexivity|]. apply Hobject in Hv. congruence. }
    rewrite Hname. reflexivity.
Qed.

End RegistrationEnd.

(** ** The single registration form *)

Section SingleForm.
Context `{Engine} `{Build}.
Variable eventId : value.
Import RegisterForm.

Lemma filter_settled_cons (ev : event) (evs : list event) :
  RegisterWords.settlings (ev :: evs)
  = ((if RegisterWords.is_settled ev then 1 else 0)
     + RegisterWords.settlings evs)%nat.
Proof.
  unfold RegisterWords.settlings. rewrite filter_cons.
  destruct (RegisterWords.is_settled ev) eqn:Hev.
  - rewrite decide_True by reflexivity. reflexivity.
  - rewrite decide_False by discriminate. reflexivity.
Qed.

Lemma step_under_way (st : state) (ev : event) :
  (length (snd (step eventId st ev))
   + RegisterWords.under_way st
   = (if RegisterWords.is_settled ev then 1 else 0)
     + RegisterWords.under_way (fst (step eventId st ev))
   \/ (RegisterWords.is_settled ev = true /\ submitting st = false
       /\ step eventId st ev = (st, [])))%nat.
Proof.
  unfold step, RegisterWords.under_way.
  destruct ev as [s|fs| |o]; simpl.
  - left. reflexivity.
  - left. reflexivity.
  - left. destruct (submitting st) eqn:Hs; simpl; [rewrite Hs; reflexivity|].
    destruct (required_filled st); simpl; [|rewrite Hs; reflexivity].
    unfold handleSubmit. destruct (selfie st); simpl; [reflexivity|].
    rewrite Hs. reflexivity.
  - destruct (submitting st) eqn:Hs; simpl; [left; reflexivity|].
    right. auto.
Qed.

(** X23: the single form never has two registrations under way: however
    the visitor types, chooses and clicks, the requests sent are at most
    the answers that arrived, and one more while 'Enviando...' is on the
    button. *)
Theorem one_registration_at_a_time (evs : list event) :
  (length (snd (run eventId init evs))
   <= RegisterWords.settlings evs
      + RegisterWords.under_way (fst (run eventId init evs)))%nat.
Proof.
  assert (Hgen : forall st,
    (length (snd (run eventId st evs)) + RegisterWords.under_way st
     <= RegisterWords.settlings evs
        + RegisterWords.under_way (fst (run eventId st evs)))%nat).
  { induction evs as [|ev evs IH]; intros st.
    - simpl. unfold RegisterWords.settlings. simpl. lia.
    - rewrite filter_settled_cons. simpl.
      pose proof (step_under_way st ev) as Hstep.
      destruct (step eventId st ev) as [st1 sent1]. cbn [fst snd] in Hstep.
      specialize (IH st1).
      destruct (run eventId st1 evs) as [st2 sent2]. cbn [fst snd] in *.
      rewrite length_app.
      destruct Hstep as [Hstep | (Hev & _ & Heq)].
      + lia.
      + injection Heq as -> ->. rewrite Hev. simpl. lia. }
  specialize (Hgen init). unfold RegisterWords.under_way in Hgen at 1.
  simpl in Hgen. lia.
Qed.

(** X24: unlike the flow in steps, the single form can be sent again once
    an attempt has settled, whatever the outcome: with the inputs untouched
    a second click sends the same request as the first. *)
Theorem form_can_be_sent_again (st : state) (o : outcome) :
  submitting st = false -> required_filled st = true ->
  selfie st <> None ->
  let first := step eventId st ClickEnviar in
  let settled := fst (step eventId (fst first) (Settled o)) in
  snd first <> []
  /\ submitting settled = false
  /\ snd (step eventId settled ClickEnviar) = snd first.
Proof.
  intros Hsub Hreq Hsel first settled.
  destruct (selfie st) as [f|] eqn:Hf; [|contradiction].
  assert (Hfirst : first
                   = (setSubmitting true st,
                      [register_request eventId f (setSubmitting true st)])).
  { unfold first, step. rewrite Hsub, Hreq. unfold handleSubmit.
    rewrite Hf. reflexivity. }
  assert (Hsettled : settled
                     = handleSubmit_settled o (setSubmitting true st)).
  { unfold settled. rewrite Hfirst. reflexivity. }
  rewrite Hsettled, Hfirst. clear Hsettled Hfirst settled first.
  assert (Hkeeps : submitting (handleSubmit_settled o (setSubmitting true st))
                   = false
                   /\ phone (handleSubmit_settled o (setSubmitting true st))
                      = phone st
                   /\ selfie (handleSubmit_settled o (setSubmitting true st))
                      = Some f
                   /\ files (handleSubmit_settled o (setSubmitting true st))
                      = files st).
  { unfold handleSubmit_settled, handleSubmit_try.
    destruct o as [|res]; simpl; [auto|].
    destruct (json res) as [data|]; simpl; [|auto].
    destruct (ok res); simpl.
    - destruct (get data (lit "message")); simpl; auto.
    - destruct (get data (lit "error")); simpl; auto. }
  destruct Hkeeps as (Hs & Hp & Hsl & Hfl).
  split; [discriminate|]. split; [exact Hs|].
  unfold step. rewrite Hs.
  assert (Hreq' : required_filled
                    (handleSubmit_settled o (setSubmitting true st)) = true)
    by (unfold required_filled in *; rewrite Hp, Hfl; exact Hreq).
  rewrite Hreq'. unfold handleSubmit. rewrite Hsl. cbn [snd].
  unfold register_request. cbn [phone setSubmitting]. rewrite Hp.
  reflexivity.
Qed.

End SingleForm.

(** ** The registration properties on sample data *)

(** A registration whose fetch throws ends on 'Erro de conexão'. *)
Lemma registration_outcome_shown_witness :
  RegisterScreens.Register
    (RegisterSteps.handleCapture_settled Rejected RegisterSteps.init)
  = RegisterScreens.DoneScreen (Str Erro_de_conexao).
Proof.
  destruct (registration_outcome_shown RegisterSteps.init Rejected)
    as (_ & _ & Hthrown & _).
  apply Hthrown. left. reflexivity.
Defined.

(** When the event could not be loaded, a visitor who types a phone, goes
    on to the camera and captures a frame sends what would be sent
    otherwise. *)
Lemma event_details_play_no_part_witness :
  let blob := {| blob_type := lit "image/jpeg"; blob_bits := [255; 216] |} in
  let evs := [RegisterSteps.TypePhone (lit "11999990000");
              RegisterSteps.ClickContinuar true;
              RegisterSteps.ClickCapturar (Some blob)] in
  let failed := RegisterSteps.fetchEvent_settled Rejected RegisterSteps.init in
  RegisterWords.same_flow failed RegisterSteps.init
  /\ snd (@RegisterSteps.run Samples.engine Samples.build (Str (lit "e1"))
            failed evs)
     = snd (@RegisterSteps.run Samples.engine Samples.build (Str (lit "e1"))
              RegisterSteps.init evs).
Proof.
  intros blob evs failed.
  assert (Hsame : RegisterWords.same_flow failed RegisterSteps.init)
    by (repeat split).
  split; [exact Hsame|].
  destruct (@event_details_play_no_part Samples.engine Samples.build
              (Str (lit "e1")) failed RegisterSteps.init evs Hsame)
    as (Hsent & _).
  exact Hsent.
Defined.

(** An event that is not found, with nothing under 'error': 'Evento não
    encontrado' stands above the phone form. *)
Lemma event_heading_witness :
  let res := {| ok := false; json := Some (Object ∅) |} in
  RegisterScreens.Register
    (RegisterSteps.fetchEvent_settled (Resolved res) RegisterSteps.init)
  = RegisterScreens.PhoneScreen
      (RegisterScreens.EventErrorText
         (Str RegisterSteps.Evento_nao_encontrado)) [].
Proof.
  intros res.
  destruct (event_heading (Resolved res)) as (_ & _ & Hrefused & _).
  destruct (Hrefused res (Object ∅) Undefined eq_refl eq_refl eq_refl
              eq_refl) as (Hview & _).
  exact Hview.
Defined.

(** A phone typed and a file chosen: after a refusal a second click sends
    the same request. *)
Lemma form_can_be_sent_again_witness :
  let f := {| file_name := lit "me.jpg"; file_type := lit "image/jpeg";
              file_bits := [255; 216] |} in
  let st := RegisterForm.chooseFiles [f]
              (RegisterForm.setPhone (lit "11999990000")
                 RegisterForm.init) in
  let o := Resolved {| ok := false; json := Some (Object ∅) |} in
  let first := @RegisterForm.step Samples.engine Samples.build
                 (Str (lit "e1")) st RegisterForm.ClickEnviar in
  let settled := fst (@RegisterForm.step Samples.engine Samples.build
                        (Str (lit "e1")) (fst first)
                        (RegisterForm.Settled o)) in
  RegisterForm.submitting st = false
  /\ RegisterForm.required_filled st = true
  /\ RegisterForm.selfie st <> None
  /\ snd (@RegisterForm.step Samples.engine Samples.build (Str (lit "e1"))
            settled RegisterForm.ClickEnviar)
     = snd first.
Proof.
  intros f st o first settled.
  assert (Hsub : RegisterForm.submitting st = false) by reflexivity.
  assert (Hreq : RegisterForm.required_filled st = true) by reflexivity.
  assert (Hsel : RegisterForm.selfie st <> None) by discriminate.
  split; [exact Hsub|]. split; [exact Hreq|]. split; [exact Hsel|].
  destruct (@form_can_be_sent_again Samples.engine Samples.build
              (Str (lit "e1")) st o Hsub Hreq Hsel) as (_ & _ & Hagain).
  exact Hagain.
Defined.
